(** * AsTeck traffic bot: incident lifecycle and verification engine

    A shallow embedding of the report-intake flow ([TelegramService]),
    the incident store ([infra/supabase.ts]), the HTTP report route and the
    rule-based fallback classifier ([models/gemini.ts]), followed by the
    properties of the specification that are settled on it.

    Conventions.
    - A JavaScript string is the list of its UTF-16 code units ([jsstring]).
    - Integers of the store (counters, scores, severities) are [Z], and
      where a function can write a value beyond the range of its [INTEGER]
      column from values within it ([updateIncidentConfirmations], whose
      delta is free), the refusal of the store is part of the function;
      timestamps are [Z] milliseconds since the epoch; coordinates are [Q].
    - A call to the store can fail in two ways besides the constraints of the
      schema: the client returns an [error] object, or the call throws.  Each
      store function takes one [Fault] per call it makes, so every path of
      its [try]/[catch] is reachable in the model. *)

From Stdlib Require Import ZArith NArith QArith Lia Lqa List Sorted Bool Ascii String.
From stdpp Require Import gmap strings.
Import ListNotations.

(* ===================================================================== *)
(** * Part I. Definitions                                                  *)
(* ===================================================================== *)

(** ** JavaScript strings and the regular expressions of the classifier *)

Module Js.

(** UTF-16 code units. *)
Definition jsstring := list N.

(** Code units of an ASCII literal. *)
Definition units (s : string) : jsstring :=
  map N_of_ascii (list_ascii_of_string s).

(** [String.prototype.slice(0, n)]. *)
Definition slice0 (n : nat) (s : jsstring) : jsstring := firstn n s.

(** The class [\w] of a regular expression without the [u] flag:
    [A-Za-z0-9_]. *)
Definition isWordChar (c : N) : bool :=
  ((48 <=? c) && (c <=? 57) || (65 <=? c) && (c <=? 90)
   || (c =? 95) || (97 <=? c) && (c <=? 122))%N.

Definition isWordAt (o : option N) : bool :=
  match o with Some c => isWordChar c | None => false end.

(** The assertion [\b] between the unit before the position ([None] at the
    start of the input) and the unit after it ([None] at the end). *)
Definition wordBoundary (prev next : option N) : bool :=
  xorb (isWordAt prev) (isWordAt next).

(** [Canonicalize] of the [i] flag (no [u] flag): a unit is compared
    through its upper-case form when that form is one unit and does not
    map a non-ASCII unit into ASCII.  The table is written out for Basic
    Latin and Latin-1 (where the keywords of the classifier live: ASCII
    letters, the space, U+00F4, U+00E9, U+00E8); above U+00FF the unit is
    left as it is, which is exact for the comparison with those keywords:
    no unit above U+00FF has an upper-case form in ASCII that the guard
    lets through, nor one of U+00D4, U+00C9, U+00C8. *)
Definition canonicalize (c : N) : N :=
  (if (97 <=? c) && (c <=? 122) then c - 32
   else if c =? 181 then 924
   else if (224 <=? c) && (c <=? 254) && negb (c =? 247) then c - 32
   else if c =? 255 then 376
   else c)%N.

Definition sameUnit (p c : N) : bool :=
  (canonicalize p =? canonicalize c)%N.

(** Matching one literal alternative at the head of the input: the result
    is the last unit consumed (the unit before the position when the
    alternative is empty) and the rest of the input. *)
Fixpoint matchLiteral (alt s : jsstring) (prev : option N)
  : option (option N * jsstring) :=
  match alt with
  | [] => Some (prev, s)
  | p :: alt' =>
      match s with
      | c :: s' => if sameUnit p c then matchLiteral alt' s' (Some c)
                   else None
      | [] => None
      end
  end.

(** [\b(alt1|alt2|...)\b] anchored at one position; the alternatives are
    tried in order and the trailing [\b] is checked for each, as the
    backtracking matcher does. *)
Definition matchAt (alts : list jsstring) (prev : option N) (s : jsstring)
  : bool :=
  wordBoundary prev (head s)
  && existsb (fun alt =>
                match matchLiteral alt s prev with
                | Some (lst, rest) => wordBoundary lst (head rest)
                | None => false
                end) alts.

(** The scan of [RegExp.prototype.test]: every start index from 0 to the
    length of the input. *)
Fixpoint scanFrom (alts : list jsstring) (prev : option N) (s : jsstring)
  : bool :=
  matchAt alts prev s
  || match s with
     | [] => false
     | c :: s' => scanFrom alts (Some c) s'
     end.

(** [/\b(alt1|alt2|...)\b/i.test(s)]. *)
Definition test (alts : list jsstring) (s : jsstring) : bool :=
  scanFrom alts None s.

(** Strings of Basic Latin and Latin-1: every unit is at most U+00FF. *)
Definition latin1 (s : jsstring) : Prop := Forall (fun c => (c <= 255)%N) s.

(** [String.prototype.toLowerCase] on the strings of Basic Latin and
    Latin-1, where the function of the engine works unit by unit: the
    capitals [A-Z] and U+00C0..U+00DE (without the multiplication sign
    U+00D7) move 32 places up, every other unit stays.  On a string with a
    unit above U+00FF the function of the engine is another one (the Kelvin
    sign U+212A becomes [k], U+0130 becomes two units), and the Unicode
    tables it reads are not embedded: the classifier therefore takes the
    lower-casing function as a parameter, and this instance stands for it on
    [latin1] inputs only. *)
Definition lowerUnit (c : N) : N :=
  (if (65 <=? c) && (c <=? 90) then c + 32
   else if (192 <=? c) && (c <=? 222) && negb (c =? 215) then c + 32
   else c)%N.

Definition toLowerCaseLatin1 (s : jsstring) : jsstring := map lowerUnit s.

(** [===] on strings. *)
Fixpoint eqb (a b : jsstring) : bool :=
  match a, b with
  | [], [] => true
  | x :: a', y :: b' => (x =? y)%N && eqb a' b'
  | _, _ => false
  end.

End Js.

(** ** Types of the domain ([types.ts]) *)

Inductive IncidentType :=
| accident | police_control | flooding | traffic_jam | road_damage
| road_works | hazard | protest | roadblock | sos | other.

Inductive IncidentStatus := pending | verified | expired | false_report.

Inductive Vote := confirm | deny.

Record Coordinates := mkCoordinates { latitude : Q; longitude : Q }.

(** ** The rule-based fallback classifier ([models/gemini.ts]) *)

Module Gemini.
Import Js.

Record ParsedIncident := {
  type : IncidentType;
  severity : Z;
  description : jsstring;
  locationHint : option jsstring;
  isEmergency : bool;
  confidence : Q
}.

(** The alternatives of the regular expressions of [fallbackParse], in the
    order of the source.  The accented letters are single code units. *)
Definition reEmergency : list jsstring :=
  map units ["sos"; "urgence"; "emergency"; "help"; "au secours"; "aide"]%string.
Definition reAccident : list jsstring :=
  map units ["accident"; "collision"; "crash"]%string.
Definition rePolice : list jsstring :=
  [units "police"; units "gendarmerie";
   units "contr" ++ [244%N] ++ units "le"; units "control";
   units "checkpoint"].
Definition reFlooding : list jsstring :=
  map units ["flood"; "inondation"; "eau"; "water"]%string.
Definition reTrafficJam : list jsstring :=
  map units ["embouteillage"; "bouchon"; "jam"; "traffic"; "congestion"]%string.
Definition reRoadWorks : list jsstring :=
  map units ["travaux"; "chantier"; "works"; "construction"]%string.
Definition reHazard : list jsstring :=
  [units "arbre"; units "d" ++ [233%N] ++ units "bris"; units "danger";
   units "hazard"; units "fallen"; units "tree"].
Definition reRoadDamage : list jsstring :=
  [units "route"; units "road"; units "trou"; units "hole";
   units "damage"; units "cass" ++ [233%N]].
Definition reProtest : list jsstring :=
  [units "protest"; units "manifestation";
   units "gr" ++ [232%N] ++ units "ve"; units "strike"].
Definition reRoadblock : list jsstring :=
  map units ["barrage"; "roadblock"; "block"]%string.

Section Classifier.

(** [String.prototype.toLowerCase] of the engine. *)
Variable toLowerCase : jsstring -> jsstring.

Definition fallbackParse (text : jsstring) : ParsedIncident :=
  let lowerText := toLowerCase text in
  let isEmergency := test reEmergency lowerText in
  let type :=
    if test reAccident lowerText then accident
    else if test rePolice lowerText then police_control
    else if test reFlooding lowerText then flooding
    else if test reTrafficJam lowerText then traffic_jam
    else if test reRoadWorks lowerText then road_works
    else if test reHazard lowerText then hazard
    else if test reRoadDamage lowerText then road_damage
    else if test reProtest lowerText then protest
    else if test reRoadblock lowerText then roadblock
    else other in
  let type := if isEmergency then sos else type in
  {| type := type;
     severity := if isEmergency then 5 else 3;
     description := slice0 100 text;
     locationHint := None;
     isEmergency := isEmergency;
     confidence := 6 # 10 |}.

(** The configured backend: [generateContent], the extraction of the
    first JSON object from the response and [JSON.parse].  [None] stands
    for a response without a JSON object and for any exception, both of
    which [analyzeText] answers with the fallback. *)
Definition Backend := jsstring -> option ParsedIncident.

Definition analyzeText (model : option Backend) (text : jsstring)
  : ParsedIncident :=
  match model with
  | None => fallbackParse text
  | Some generate =>
      match generate text with
      | Some parsed => parsed
      | None => fallbackParse text
      end
  end.

End Classifier.

(** The ordered rules as a table, for the statement "the first matching
    rule wins". *)
Definition typeRules : list (list jsstring * IncidentType) :=
  [ (reAccident, accident); (rePolice, police_control);
    (reFlooding, flooding); (reTrafficJam, traffic_jam);
    (reRoadWorks, road_works); (reHazard, hazard);
    (reRoadDamage, road_damage); (reProtest, protest);
    (reRoadblock, roadblock) ].

Definition firstMatchingRule (s : jsstring) : IncidentType :=
  match find (fun r => test (fst r) s) typeRules with
  | Some r => snd r
  | None => other
  end.

(** A keyword occurs in the input as a whole word: some factor of the
    input equals the keyword up to case, with [\b] holding on both of its
    sides. *)
Definition lastOr {A} (d : option A) (l : list A) : option A :=
  match last l with Some x => Some x | None => d end.

Definition occursAsWord (kw s : jsstring) : Prop :=
  exists pre mid post,
    s = pre ++ mid ++ post
    /\ Forall2 (fun p c => sameUnit p c = true) kw mid
    /\ wordBoundary (lastOr None pre) (head (mid ++ post)) = true
    /\ wordBoundary (lastOr None (pre ++ mid)) (head post) = true.

End Gemini.

(** ** What "a keyword occurs as a whole word" says

    These definitions are not read off the code: they say in the terms of a
    reader what the regular expressions of the classifier are compared
    with. *)

Module Keywords.
Import Js.

(** A letter, a digit or the underscore of Basic Latin: the units that make
    up a word. *)
Definition wordChar (c : N) : Prop :=
  (48 <= c <= 57)%N \/ (65 <= c <= 90)%N \/ c = 95%N \/ (97 <= c <= 122)%N.

(** A lower-case letter of Basic Latin or Latin-1; its capital stands 32
    places before it. *)
Definition lowerCaseLetter (p : N) : Prop :=
  (97 <= p <= 122)%N \/ ((224 <= p <= 254)%N /\ p <> 247%N).

(** The unit [c] of a text spells the unit [p] of a keyword, in either
    case. *)
Definition sameLetter (p c : N) : Prop :=
  c = p \/ (lowerCaseLetter p /\ (c + 32)%N = p).

Definition spelled (kw mid : jsstring) : Prop := Forall2 sameLetter kw mid.

(** No unit of a word stands directly before, respectively after. *)
Definition notAfterWord (pre : jsstring) : Prop :=
  pre = [] \/ exists pre' c, pre = pre' ++ [c] /\ ~ wordChar c.

Definition notBeforeWord (post : jsstring) : Prop :=
  post = [] \/ exists c post', post = c :: post' /\ ~ wordChar c.

(** A unit of a word follows directly. *)
Definition beforeWord (post : jsstring) : Prop :=
  exists c post', post = c :: post' /\ wordChar c.

(** The keyword stands in the text as a word of its own. *)
Definition wholeWord (kw s : jsstring) : Prop :=
  exists pre mid post,
    s = pre ++ mid ++ post /\ spelled kw mid
    /\ notAfterWord pre /\ notBeforeWord post.

(** The keyword stands at the start of a longer word. *)
Definition wordStart (kw s : jsstring) : Prop :=
  exists pre mid post,
    s = pre ++ mid ++ post /\ spelled kw mid
    /\ notAfterWord pre /\ beforeWord post.

(** Two units of Latin-1 that differ at most in case. *)
Definition caseVariants (a b : N) : Prop :=
  a = b \/ (lowerCaseLetter a /\ (b + 32)%N = a)
  \/ (lowerCaseLetter b /\ (a + 32)%N = b).

(** Keywords as the rules write them: in lower case (letters of Basic Latin
    and Latin-1, and the space), starting with a letter of Basic Latin. *)
Definition keywordUnit (p : N) : bool :=
  ((p =? 32) || (97 <=? p) && (p <=? 122)
   || (224 <=? p) && (p <=? 254) && negb (p =? 247))%N.

Definition startsWithLetter (kw : jsstring) : bool :=
  match kw with
  | p :: _ => ((97 <=? p) && (p <=? 122))%N
  | [] => false
  end.

Definition endsWithLetter (kw : jsstring) : bool :=
  match last kw with
  | Some p => ((97 <=? p) && (p <=? 122))%N
  | None => false
  end.

Definition wellWritten (kw : jsstring) : bool :=
  forallb keywordUnit kw && startsWithLetter kw.

(** Where a rule finds a keyword: as a word of its own when the keyword ends
    with a letter of Basic Latin; a keyword that ends with an accented
    letter is found only at the start of a longer word, because the
    assertion [\b] after it asks for a unit of a word to follow. *)
Definition found (kw s : jsstring) : Prop :=
  if endsWithLetter kw then wholeWord kw s else wordStart kw s.

(** The rules of the type, in their order, with their keywords written
    out. *)
Definition rules : list (list jsstring * IncidentType) :=
  [ (map units ["accident"; "collision"; "crash"]%string, accident);
    ([units "police"; units "gendarmerie";
      units "contr" ++ [244%N] ++ units "le"; units "control";
      units "checkpoint"], police_control);
    (map units ["flood"; "inondation"; "eau"; "water"]%string, flooding);
    (map units ["embouteillage"; "bouchon"; "jam"; "traffic";
                "congestion"]%string, traffic_jam);
    (map units ["travaux"; "chantier"; "works"; "construction"]%string,
     road_works);
    ([units "arbre"; units "d" ++ [233%N] ++ units "bris"; units "danger";
      units "hazard"; units "fallen"; units "tree"], hazard);
    ([units "route"; units "road"; units "trou"; units "hole";
      units "damage"; units "cass" ++ [233%N]], road_damage);
    ([units "protest"; units "manifestation";
      units "gr" ++ [232%N] ++ units "ve"; units "strike"], protest);
    (map units ["barrage"; "roadblock"; "block"]%string, roadblock) ].

(** A rule has a keyword that is found in the text. *)
Definition hit (s : jsstring) (rule : list jsstring * IncidentType) : Prop :=
  exists kw, In kw (fst rule) /\ found kw s.

(** The type of the first rule that has a keyword in the text, [other]
    when none has. *)
Definition firstHit (s : jsstring) (type : IncidentType) : Prop :=
  (exists before rule after,
     rules = before ++ rule :: after
     /\ Forall (fun r => ~ hit s r) before /\ hit s rule
     /\ type = snd rule)
  \/ (Forall (fun r => ~ hit s r) rules /\ type = other).

End Keywords.


(** ** Domain objects ([types.ts]) *)

Module Incident.
(** [Incident]; [Omit<Incident, 'id'>] is the record with [id = None].
    The fields [voiceFileId], [photoFileId] and [weatherContext] are never
    written by the flows embedded here and are left out. *)
Record t := {
  id : option N;
  type : IncidentType;
  description : option Js.jsstring;
  location : Coordinates;
  address : option string;
  severity : Z;
  status : IncidentStatus;
  reporterId : string;
  reporterUsername : option string;
  confirmations : Z;
  mediaUrl : option string;
  expiresAt : Z;
  createdAt : Z
}.
End Incident.

Module PendingReport.
Inductive Step := awaiting_location | awaiting_description | complete.

Record t := {
  userId : string;
  type : IncidentType;
  description : option Js.jsstring;
  severity : option Z;
  mediaUrl : option string;
  step : Step;
  createdAt : Z
}.
End PendingReport.

(** ** The store: tables of the schema and the repository functions *)

(** What a call to the store client does besides what the schema decides:
    nothing, an [error] object with a code, or a thrown exception. *)
Inductive Fault := NoFault | ReturnsError (code : string) | Throws.

Module IncidentRow.
Record t := {
  id : N;
  type : IncidentType;
  description : option Js.jsstring;
  latitude : Q;
  longitude : Q;
  address : option string;
  severity : Z;
  status : IncidentStatus;
  reporter_id : string;
  reporter_username : option string;
  confirmations : Z;
  media_url : option string;
  expires_at : Z;
  created_at : Z
}.
End IncidentRow.

Module UserRow.
Record t := {
  telegram_id : string;
  username : option string;
  trust_score : Z;
  reports_count : Z;
  accurate_reports : Z
}.
End UserRow.

Module ConfirmationRow.
Record t := {
  incident_id : N;
  user_telegram_id : string;
  vote : Vote
}.
End ConfirmationRow.

Module Supabase.

(** The three tables; [next_id] stands for the generator of primary keys
    ([uuid_generate_v4]), which never returns a key twice. *)
Record Db := {
  users : list UserRow.t;
  incidents : list IncidentRow.t;
  confirmations : list ConfirmationRow.t;
  next_id : N
}.

(** [.single()]: the row when the query selects exactly one. *)
Definition single {A} (rows : list A) : option A :=
  match rows with
  | [r] => Some r
  | _ => None
  end.

Definition userHasId (telegramId : string) (u : UserRow.t) : bool :=
  String.eqb (UserRow.telegram_id u) telegramId.

Definition incidentHasId (incidentId : N) (r : IncidentRow.t) : bool :=
  (IncidentRow.id r =? incidentId)%N.

Definition sameVoter (incidentId : N) (telegramId : string)
  (c : ConfirmationRow.t) : bool :=
  (ConfirmationRow.incident_id c =? incidentId)%N
  && String.eqb (ConfirmationRow.user_telegram_id c) telegramId.

Definition mapDbToIncident (row : IncidentRow.t) : Incident.t :=
  {| Incident.id := Some (IncidentRow.id row);
     Incident.type := IncidentRow.type row;
     Incident.description := IncidentRow.description row;
     Incident.location :=
       {| latitude := IncidentRow.latitude row;
          longitude := IncidentRow.longitude row |};
     Incident.address := IncidentRow.address row;
     Incident.severity := IncidentRow.severity row;
     Incident.status := IncidentRow.status row;
     Incident.reporterId := IncidentRow.reporter_id row;
     Incident.reporterUsername := IncidentRow.reporter_username row;
     Incident.confirmations := IncidentRow.confirmations row;
     Incident.mediaUrl := IncidentRow.media_url row;
     Incident.expiresAt := IncidentRow.expires_at row;
     Incident.createdAt := IncidentRow.created_at row |}.

(** The row that [createIncident] sends to the table [incidents]. *)
Definition incidentRow (newId : N) (incident : Incident.t) : IncidentRow.t :=
  {| IncidentRow.id := newId;
     IncidentRow.type := Incident.type incident;
     IncidentRow.description := Incident.description incident;
     IncidentRow.latitude := latitude (Incident.location incident);
     IncidentRow.longitude := longitude (Incident.location incident);
     IncidentRow.address := Incident.address incident;
     IncidentRow.severity := Incident.severity incident;
     IncidentRow.status := Incident.status incident;
     IncidentRow.reporter_id := Incident.reporterId incident;
     IncidentRow.reporter_username := Incident.reporterUsername incident;
     IncidentRow.confirmations := Incident.confirmations incident;
     IncidentRow.media_url := Incident.mediaUrl incident;
     IncidentRow.expires_at := Incident.expiresAt incident;
     IncidentRow.created_at := Incident.createdAt incident |}.

(** Constraints of the table [incidents]: [reporter_id] references
    [users(telegram_id)] and [severity] is checked to lie in 1..5 (the checks
    on [type] and [status] hold by typing). *)
Definition incidentConstraints (db : Db) (row : IncidentRow.t) : bool :=
  existsb (userHasId (IncidentRow.reporter_id row)) (users db)
  && (1 <=? IncidentRow.severity row)%Z && (IncidentRow.severity row <=? 5)%Z.

(** [createIncident]: one insert; [null] on an error and on an exception. *)
Definition createIncident (fault : Fault) (db : Db) (incident : Incident.t)
  : Db * option Incident.t :=
  match fault with
  | Throws => (db, None)
  | ReturnsError _ => (db, None)
  | NoFault =>
      let row := incidentRow (next_id db) incident in
      if incidentConstraints db row then
        ({| users := users db;
            incidents := incidents db ++ [row];
            confirmations := confirmations db;
            next_id := N.succ (next_id db) |},
         Some (mapDbToIncident row))
      else (db, None)
  end.

Definition activeStatus (s : IncidentStatus) : bool :=
  match s with
  | pending | verified => true
  | _ => false
  end.

(** [ORDER BY]: insertion into a list ordered by [before]; rows with equal
    keys keep the order of the table (the database leaves their order
    open). *)
Fixpoint insertOrdered {A} (before : A -> A -> bool) (x : A) (l : list A)
  : list A :=
  match l with
  | [] => [x]
  | y :: l' => if before x y then x :: l else y :: insertOrdered before x l'
  end.

Definition orderBy {A} (before : A -> A -> bool) (l : list A) : list A :=
  fold_right (insertOrdered before) [] l.

(** [.order('created_at', { ascending: false })]. *)
Definition newerFirst (a b : IncidentRow.t) : bool :=
  (IncidentRow.created_at b <=? IncidentRow.created_at a)%Z.

(** [getNearbyIncidents]: the active incidents in the box of
    [radiusKm / 111] degrees around [coords], newest first.  The four bounds
    of the box are computed here in exact rationals; the code computes them
    in double precision, so for a row that lies within one rounding error of
    an edge of the box the two can differ.  The properties stated below do
    not rest on such rows: they are about membership of rows of the store
    and about the centre of the box, which lies inside whatever the
    rounding. *)
Definition getNearbyIncidents (fault : Fault) (db : Db) (coords : Coordinates)
  (radiusKm : Q) : list Incident.t :=
  let delta := (radiusKm / 111)%Q in
  match fault with
  | NoFault =>
      map mapDbToIncident
        (orderBy newerFirst
           (List.filter (fun r =>
              activeStatus (IncidentRow.status r)
              && Qle_bool (latitude coords - delta) (IncidentRow.latitude r)
              && Qle_bool (IncidentRow.latitude r) (latitude coords + delta)
              && Qle_bool (longitude coords - delta) (IncidentRow.longitude r)
              && Qle_bool (IncidentRow.longitude r) (longitude coords + delta))
              (incidents db)))
  | _ => []
  end.

Definition setConfirmations (newConfirmations : Z) (newStatus : IncidentStatus)
  (r : IncidentRow.t) : IncidentRow.t :=
  {| IncidentRow.id := IncidentRow.id r;
     IncidentRow.type := IncidentRow.type r;
     IncidentRow.description := IncidentRow.description r;
     IncidentRow.latitude := IncidentRow.latitude r;
     IncidentRow.longitude := IncidentRow.longitude r;
     IncidentRow.address := IncidentRow.address r;
     IncidentRow.severity := IncidentRow.severity r;
     IncidentRow.status := newStatus;
     IncidentRow.reporter_id := IncidentRow.reporter_id r;
     IncidentRow.reporter_username := IncidentRow.reporter_username r;
     IncidentRow.confirmations := newConfirmations;
     IncidentRow.media_url := IncidentRow.media_url r;
     IncidentRow.expires_at := IncidentRow.expires_at r;
     IncidentRow.created_at := IncidentRow.created_at r |}.

(** [current?.confirmations || 0]. *)
Definition confirmationsOrZero (current : option IncidentRow.t) : Z :=
  match current with
  | Some r => if (IncidentRow.confirmations r =? 0)%Z then 0%Z
              else IncidentRow.confirmations r
  | None => 0%Z
  end.

(** The largest value that a column of type [INTEGER] holds. *)
Definition maxInteger : Z := 2147483647.

(** [updateIncidentConfirmations]: a read of the counter (whose error is
    ignored), then an update of counter and status on the rows of that id.
    The column [confirmations] is an [INTEGER]: a new count above
    [maxInteger] that is to be written to a row is refused by the store
    (error 22003), which the function answers with [false]. *)
Definition updateIncidentConfirmations (selectFault updateFault : Fault)
  (db : Db) (incidentId : N) (delta : Z) : Db * bool :=
  match selectFault with
  | Throws => (db, false)
  | _ =>
      let current :=
        match selectFault with
        | NoFault => single (List.filter (incidentHasId incidentId) (incidents db))
        | _ => None
        end in
      let currentConfirmations := confirmationsOrZero current in
      let newConfirmations := Z.max 0 (currentConfirmations + delta) in
      match updateFault with
      | Throws => (db, false)
      | ReturnsError _ => (db, false)
      | NoFault =>
          if existsb (incidentHasId incidentId) (incidents db)
             && (maxInteger <? newConfirmations)%Z
          then (db, false)
          else
          ({| users := users db;
              incidents :=
                map (fun r =>
                       if incidentHasId incidentId r
                       then setConfirmations newConfirmations
                              (if (2 <=? newConfirmations)%Z then verified
                               else pending) r
                       else r) (incidents db);
              confirmations := confirmations db;
              next_id := next_id db |},
           true)
      end
  end.

Definition setTrustScore (newScore : Z) (u : UserRow.t) : UserRow.t :=
  {| UserRow.telegram_id := UserRow.telegram_id u;
     UserRow.username := UserRow.username u;
     UserRow.trust_score := newScore;
     UserRow.reports_count := UserRow.reports_count u;
     UserRow.accurate_reports := UserRow.accurate_reports u |}.

Definition setReportsCount (newCount : Z) (u : UserRow.t) : UserRow.t :=
  {| UserRow.telegram_id := UserRow.telegram_id u;
     UserRow.username := UserRow.username u;
     UserRow.trust_score := UserRow.trust_score u;
     UserRow.reports_count := newCount;
     UserRow.accurate_reports := UserRow.accurate_reports u |}.

Definition withUsers (db : Db) (us : list UserRow.t) : Db :=
  {| users := us;
     incidents := incidents db;
     confirmations := confirmations db;
     next_id := next_id db |}.

(** [updateUserTrustScore]: read the score, clamp the sum into 0..100,
    write it back. *)
Definition updateUserTrustScore (selectFault updateFault : Fault)
  (db : Db) (telegramId : string) (delta : Z) : Db * bool :=
  match selectFault with
  | Throws => (db, false)
  | ReturnsError _ => (db, false)
  | NoFault =>
      match single (List.filter (userHasId telegramId) (users db)) with
      | None => (db, false)
      | Some user =>
          let newScore :=
            Z.max 0 (Z.min 100 (UserRow.trust_score user + delta)) in
          match updateFault with
          | Throws => (db, false)
          | ReturnsError _ => (db, false)
          | NoFault =>
              (withUsers db
                 (map (fun u => if userHasId telegramId u
                                then setTrustScore newScore u else u)
                      (users db)),
               true)
          end
      end
  end.

(** [incrementUserReports]: the procedure [increment_reports] of the schema,
    and a read-then-write of the counter when the procedure call returns an
    error.  An error of the second write is not looked at.  (A count that
    has reached the largest [INTEGER], after 2 147 483 647 reports of one
    user, is outside of what is modelled here.) *)
Definition incrementUserReports (rpcFault selectFault updateFault : Fault)
  (db : Db) (telegramId : string) : Db * bool :=
  match rpcFault with
  | Throws => (db, false)
  | NoFault =>
      (withUsers db
         (map (fun u => if userHasId telegramId u
                        then setReportsCount (UserRow.reports_count u + 1) u
                        else u)
              (users db)),
       true)
  | ReturnsError _ =>
      match selectFault with
      | Throws => (db, false)
      | ReturnsError _ => (db, true)
      | NoFault =>
          match single (List.filter (userHasId telegramId) (users db)) with
          | None => (db, true)
          | Some user =>
              match updateFault with
              | Throws => (db, false)
              | ReturnsError _ => (db, true)
              | NoFault =>
                  (withUsers db
                     (map (fun u =>
                             if userHasId telegramId u
                             then setReportsCount
                                    (UserRow.reports_count user + 1) u
                             else u)
                          (users db)),
                   true)
              end
          end
      end
  end.

(** Constraints of the table [confirmations], reported with their codes:
    [UNIQUE(incident_id, user_telegram_id)], checked on the index at the
    insert, then the two foreign keys. *)
Definition confirmationError (db : Db) (incidentId : N) (telegramId : string)
  : option string :=
  if existsb (sameVoter incidentId telegramId) (confirmations db)
  then Some "23505"%string
  else if negb (existsb (incidentHasId incidentId) (incidents db))
  then Some "23503"%string
  else if negb (existsb (userHasId telegramId) (users db))
  then Some "23503"%string
  else None.

(** [addConfirmation]: one insert; [false] on the unique violation, on any
    other error and on an exception. *)
Definition addConfirmation (fault : Fault) (db : Db) (incidentId : N)
  (userTelegramId : string) (vote : Vote) : Db * bool :=
  match fault with
  | Throws => (db, false)
  | ReturnsError code =>
      if String.eqb code "23505" then (db, false) else (db, false)
  | NoFault =>
      match confirmationError db incidentId userTelegramId with
      | Some code =>
          if String.eqb code "23505" then (db, false) else (db, false)
      | None =>
          ({| users := users db;
              incidents := incidents db;
              confirmations :=
                confirmations db
                ++ [{| ConfirmationRow.incident_id := incidentId;
                       ConfirmationRow.user_telegram_id := userTelegramId;
                       ConfirmationRow.vote := vote |}];
              next_id := next_id db |},
           true)
      end
  end.

End Supabase.


(** ** The Telegram service: per-user flow state and the handlers *)

Module Telegram.
Import Supabase.

Inductive AdminStep := broadcast_message.

Inductive RouteStep := route_origin | route_destination.

Record RouteRequest := {
  origin : option Coordinates;
  destination : option Coordinates;
  routeStep : RouteStep
}.

Inductive FuelStep := fuel_awaiting_location | fuel_awaiting_price.

Record FuelRequest := {
  fuelStep : FuelStep;
  stationId : option string;
  fuelType : option string
}.

(** The store and the process-wide maps of the service, keyed by user id.
    [adminStates] is read by [handleLocation] and by the text handler; the
    one statement that writes it stands in the second handler registered
    for the action [admin_broadcast], and the first handler registered for
    that action answers without passing the update on, so the second never
    runs: in every run of the service the map is empty. *)
Record World := {
  db : Db;
  pendingReports : gmap string PendingReport.t;
  adminStates : gmap string AdminStep;
  pendingRoutes : gmap string RouteRequest;
  pendingFuel : gmap string FuelRequest
}.

(** What a handler sends out. *)
Inductive Effect :=
| RoadClear
| NearbyIncidents (found : list Incident.t)
| ReportReceived
| ChannelMessage (saved : Incident.t) (isCritical : bool)
| AskDestination
| Directions (fromLoc toLoc : option Coordinates)
| FuelLookup (location : Coordinates)
| VoteReply (vote : Vote) (success : bool).

(** What the surroundings decide during one run of a handler. *)
Record Env := {
  dateNow : Z;              (* [Date.now()] *)
  newDate : Z;              (* [new Date()] *)
  channelId : option string;
  insertFault : Fault;      (* the insert of [createIncident] *)
  rpcFault : Fault;         (* the calls of [incrementUserReports] *)
  selectFault : Fault;
  updateFault : Fault;
  nearbyFault : Fault;      (* the query of [getNearbyIncidents] *)
  voteFault : Fault;        (* the insert of [addConfirmation] *)
  sendThrows : bool         (* [sendMessage] to the channel throws *)
}.

Definition withPendingReports (w : World)
  (m : gmap string PendingReport.t) : World :=
  {| db := db w; pendingReports := m; adminStates := adminStates w;
     pendingRoutes := pendingRoutes w; pendingFuel := pendingFuel w |}.

Definition withDb (w : World) (d : Db) : World :=
  {| db := d; pendingReports := pendingReports w;
     adminStates := adminStates w;
     pendingRoutes := pendingRoutes w; pendingFuel := pendingFuel w |}.

Definition withPendingRoutes (w : World)
  (m : gmap string RouteRequest) : World :=
  {| db := db w; pendingReports := pendingReports w;
     adminStates := adminStates w;
     pendingRoutes := m; pendingFuel := pendingFuel w |}.

Definition withPendingFuel (w : World)
  (m : gmap string FuelRequest) : World :=
  {| db := db w; pendingReports := pendingReports w;
     adminStates := adminStates w;
     pendingRoutes := pendingRoutes w; pendingFuel := m |}.

(** [handleIncidentTypeSelection]: a fresh entry waiting for a description. *)
Definition handleIncidentTypeSelection (env : Env) (w : World)
  (userId : string) (type : IncidentType) : World :=
  withPendingReports w
    (<[userId :=
        {| PendingReport.userId := userId;
           PendingReport.type := type;
           PendingReport.description := None;
           PendingReport.severity := None;
           PendingReport.mediaUrl := None;
           PendingReport.step := PendingReport.awaiting_description;
           PendingReport.createdAt := newDate env |}]> (pendingReports w)).

(** The branch "pending flows" of the text handler, on its own: a text
    received while the entry waits for a description.  The handler reaches
    this branch after three others (emergency words, a fuel price, the
    reset of the main menu); the whole handler is [Service.onText]. *)
Definition handleDescription (w : World) (userId : string)
  (text : Js.jsstring) : World :=
  match pendingReports w !! userId with
  | Some entry =>
      match PendingReport.step entry with
      | PendingReport.awaiting_description =>
          withPendingReports w
            (<[userId :=
                {| PendingReport.userId := PendingReport.userId entry;
                   PendingReport.type := PendingReport.type entry;
                   PendingReport.description := Some text;
                   PendingReport.severity := PendingReport.severity entry;
                   PendingReport.mediaUrl := PendingReport.mediaUrl entry;
                   PendingReport.step := PendingReport.awaiting_location;
                   PendingReport.createdAt :=
                     PendingReport.createdAt entry |}]>
               (pendingReports w))
      | _ => w
      end
  | None => w
  end.

(** [showNearbyIncidents]: a lookup within 5 km, answered to the user (the
    sort by distance of the answer is presentation and is not modelled). *)
Definition showNearbyIncidents (env : Env) (w : World)
  (location : Coordinates) : list Effect :=
  match getNearbyIncidents (nearbyFault env) (db w) location 5 with
  | [] => [RoadClear]
  | nearby => [NearbyIncidents nearby]
  end.

(** [pending.description || '']. *)
Definition descriptionOrEmpty (d : option Js.jsstring) : Js.jsstring :=
  match d with
  | Some s => s
  | None => []
  end.

(** [pending.severity || 3]. *)
Definition severityOrThree (s : option Z) : Z :=
  match s with
  | Some v => if (v =? 0)%Z then 3%Z else v
  | None => 3%Z
  end.

(** The payload that [handleLocation] builds for [createIncident]. *)
Definition incidentData (env : Env) (userId : string)
  (entry : PendingReport.t) (location : Coordinates) : Incident.t :=
  {| Incident.id := None;
     Incident.type := PendingReport.type entry;
     Incident.description :=
       Some (descriptionOrEmpty (PendingReport.description entry));
     Incident.location := location;
     Incident.address := None;
     Incident.severity := severityOrThree (PendingReport.severity entry);
     Incident.status := pending;
     Incident.reporterId := userId;
     Incident.reporterUsername := None;
     Incident.confirmations := 0;
     Incident.mediaUrl := PendingReport.mediaUrl entry;
     Incident.expiresAt := (dateNow env + 4 * 60 * 60 * 1000)%Z;
     Incident.createdAt := newDate env |}.

(** [handleLocation].  [message] is the location of [ctx.message] when the
    message carries one. *)
Definition handleLocation (env : Env) (w : World) (userId : string)
  (message : option Coordinates) : World * list Effect :=
  let entry := pendingReports w !! userId in
  match adminStates w !! userId with
  | Some broadcast_message => (w, [])
  | None =>
      match entry with
      | Some p =>
          match PendingReport.step p with
          | PendingReport.awaiting_location =>
              match message with
              | None => (w, [])
              | Some location =>
                  let (db1, saved) :=
                    createIncident (insertFault env) (db w)
                      (incidentData env userId p location) in
                  let (db2, _) :=
                    incrementUserReports (rpcFault env) (selectFault env)
                      (updateFault env) db1 userId in
                  let w2 := withDb w db2 in
                  match saved, channelId env with
                  | Some inc, Some _ =>
                      if sendThrows env then (w2, [ReportReceived])
                      else
                        (withPendingReports w2
                           (delete userId (pendingReports w2)),
                         [ReportReceived;
                          ChannelMessage inc (4 <=? Incident.severity inc)%Z])
                  | _, _ =>
                      (withPendingReports w2
                         (delete userId (pendingReports w2)),
                       [ReportReceived])
                  end
              end
          | _ =>
              match message with
              | Some location => (w, showNearbyIncidents env w location)
              | None => (w, [])
              end
          end
      | None =>
          match message with
          | Some location => (w, showNearbyIncidents env w location)
          | None => (w, [])
          end
      end
  end.

(** [handleRouteLocation]: the first location is the origin, the second the
    destination, after which the entry is removed and the directions are
    asked from the routing service. *)
Definition handleRouteLocation (w : World) (userId : string)
  (req : RouteRequest) (loc : Coordinates) : World * list Effect :=
  match routeStep req with
  | route_origin =>
      (withPendingRoutes w
         (<[userId := {| origin := Some loc;
                         destination := destination req;
                         routeStep := route_destination |}]>
            (pendingRoutes w)),
       [AskDestination])
  | route_destination =>
      (withPendingRoutes w (delete userId (pendingRoutes w)),
       [Directions (origin req) (Some loc)])
  end.

(** The handler of location messages: a pending route first, then a fuel
    request waiting for a location, then [handleLocation]. *)
Definition onLocation (env : Env) (w : World) (userId : string)
  (message : option Coordinates) : World * list Effect :=
  match message with
  | None => (w, [])
  | Some loc =>
      match pendingRoutes w !! userId with
      | Some routeReq => handleRouteLocation w userId routeReq loc
      | None =>
          match pendingFuel w !! userId with
          | Some {| fuelStep := fuel_awaiting_location |} =>
              (withPendingFuel w (delete userId (pendingFuel w)),
               [FuelLookup loc])
          | _ => handleLocation env w userId message
          end
      end
  end.

(** The action [confirm_<id>]: the vote is recorded and answered. *)
Definition onConfirm (env : Env) (w : World) (incidentId : N)
  (userId : string) : World * list Effect :=
  let (db1, success) :=
    addConfirmation (voteFault env) (db w) incidentId userId confirm in
  (withDb w db1, [VoteReply confirm success]).

(** The action [reject_<id>]. *)
Definition onReject (env : Env) (w : World) (incidentId : N)
  (userId : string) : World * list Effect :=
  let (db1, success) :=
    addConfirmation (voteFault env) (db w) incidentId userId deny in
  (withDb w db1, [VoteReply deny success]).

End Telegram.

(** ** The HTTP route [POST /report] *)

Module Api.
Import Supabase.

Record ReportBody := {
  userId : option string;
  type : option IncidentType;
  description : option Js.jsstring;
  latitude : option Q;
  longitude : option Q;
  severity : option Z
}.

Inductive Response :=
| Created (incidentId : option N)     (* 201 *)
| BadRequest                         (* 400, missing required fields *)
| ServerError.                       (* 500 *)

(** Truthiness of the fields that the route requires. *)
Definition truthyString (s : option string) : bool :=
  match s with
  | Some s => negb (String.eqb s "")
  | None => false
  end.

Definition truthyNumber (q : option Q) : bool :=
  match q with
  | Some q => negb (Qeq_bool q 0)
  | None => false
  end.

(** [(severity as Severity) || 3]. *)
Definition severityOrThree (s : option Z) : Z :=
  match s with
  | Some v => if (v =? 0)%Z then 3%Z else v
  | None => 3%Z
  end.

(** [router.post('/report')].  [newDate] is read for [createdAt], then
    [dateNow] for [expiresAt]. *)
Definition postReport (newDate dateNow : Z) (fault : Fault) (db : Db)
  (body : ReportBody) : Db * Response :=
  match userId body, type body, latitude body, longitude body with
  | Some uid, Some ty, Some lat, Some lon =>
      if truthyString (userId body) && truthyNumber (latitude body)
         && truthyNumber (longitude body)
      then
        let (db1, incident) :=
          createIncident fault db
            {| Incident.id := None;
               Incident.type := ty;
               Incident.description := description body;
               Incident.location := mkCoordinates lat lon;
               Incident.address := Some ""%string;
               Incident.severity := severityOrThree (severity body);
               Incident.status := pending;
               Incident.reporterId := uid;
               Incident.reporterUsername := Some "native_app_user"%string;
               Incident.confirmations := 0;
               Incident.mediaUrl := None;
               Incident.expiresAt := (dateNow + 60 * 60 * 1000)%Z;
               Incident.createdAt := newDate |} in
        match incident with
        | Some inc => (db1, Created (Incident.id inc))
        | None => (db1, ServerError)
        end
      else (db, BadRequest)
  | _, _, _, _ => (db, BadRequest)
  end.

End Api.


(** ** Runs of the handlers and the conditions under which a report is
       finalized *)

Module Runs.
Import Supabase Telegram.

(** One call of [addConfirmation] with what the surroundings decide for it. *)
Record VoteCall := {
  callFault : Fault;
  callIncident : N;
  callUser : string;
  callVote : Vote
}.

(** A sequence of calls of [addConfirmation], with the answer of each. *)
Fixpoint addConfirmationCalls (calls : list VoteCall) (db : Db)
  : Db * list bool :=
  match calls with
  | [] => (db, [])
  | c :: calls' =>
      let (db1, ok) :=
        addConfirmation (callFault c) db (callIncident c) (callUser c)
          (callVote c) in
      let (db2, oks) := addConfirmationCalls calls' db1 in
      (db2, ok :: oks)
  end.

(** Rows of the table [confirmations] for one (incident, reporter) pair. *)
Definition votesOf (db : Db) (incidentId : N) (telegramId : string) : nat :=
  length (List.filter (sameVoter incidentId telegramId) (confirmations db)).

(** A sequence of confirm actions on one incident, each by some reporter. *)
Fixpoint confirmVotes (votes : list (Env * string)) (w : World)
  (incidentId : N) : World * list Effect :=
  match votes with
  | [] => (w, [])
  | (env, userId) :: votes' =>
      let (w1, out1) := onConfirm env w incidentId userId in
      let (w2, out2) := confirmVotes votes' w1 incidentId in
      (w2, out1 ++ out2)
  end.

Definition accepted (e : Effect) : bool :=
  match e with
  | VoteReply confirm true => true
  | _ => false
  end.

(** The location message of [userId] reaches the finalize step of
    [handleLocation] with the entry [p]. *)
Definition reachesFinalize (w : World) (userId : string)
  (p : PendingReport.t) : Prop :=
  adminStates w !! userId = None
  /\ pendingReports w !! userId = Some p
  /\ PendingReport.step p = PendingReport.awaiting_location.

(** The row that the finalize step sends to the store. *)
Definition finalizedRow (env : Env) (w : World) (userId : string)
  (p : PendingReport.t) (location : Coordinates) : IncidentRow.t :=
  incidentRow (next_id (db w)) (incidentData env userId p location).

(** The store accepts that row: no fault, and the constraints hold. *)
Definition insertAccepted (env : Env) (w : World) (userId : string)
  (p : PendingReport.t) (location : Coordinates) : Prop :=
  insertFault env = NoFault
  /\ incidentConstraints (db w) (finalizedRow env w userId p location) = true.

(** The effect of the procedure [increment_reports] on one row. *)
Definition countedReport (telegramId : string) (u : UserRow.t) : UserRow.t :=
  if userHasId telegramId u
  then setReportsCount (UserRow.reports_count u + 1) u
  else u.

Definition trustInRange (u : UserRow.t) : Prop :=
  (0 <= UserRow.trust_score u <= 100)%Z.

(** The row [r'] is the row [r] but for the confirmation count and the
    status. *)
Definition sameReport (r r' : IncidentRow.t) : Prop :=
  IncidentRow.id r' = IncidentRow.id r
  /\ IncidentRow.type r' = IncidentRow.type r
  /\ IncidentRow.description r' = IncidentRow.description r
  /\ IncidentRow.latitude r' = IncidentRow.latitude r
  /\ IncidentRow.longitude r' = IncidentRow.longitude r
  /\ IncidentRow.address r' = IncidentRow.address r
  /\ IncidentRow.severity r' = IncidentRow.severity r
  /\ IncidentRow.reporter_id r' = IncidentRow.reporter_id r
  /\ IncidentRow.reporter_username r' = IncidentRow.reporter_username r
  /\ IncidentRow.media_url r' = IncidentRow.media_url r
  /\ IncidentRow.expires_at r' = IncidentRow.expires_at r
  /\ IncidentRow.created_at r' = IncidentRow.created_at r.

End Runs.

(** ** Sample data for the examples *)

Module Sample.
Import Supabase Telegram.

Definition alice : UserRow.t :=
  {| UserRow.telegram_id := "1001"; UserRow.username := Some "alice"%string;
     UserRow.trust_score := 50; UserRow.reports_count := 0;
     UserRow.accurate_reports := 0 |}.

Definition bob : UserRow.t :=
  {| UserRow.telegram_id := "1002"; UserRow.username := Some "bob"%string;
     UserRow.trust_score := 95; UserRow.reports_count := 7;
     UserRow.accurate_reports := 0 |}.

Definition emptyDb : Db :=
  {| users := [alice; bob]; incidents := []; confirmations := [];
     next_id := 1 |}.

Definition idle : World :=
  {| db := emptyDb; pendingReports := ∅; adminStates := ∅;
     pendingRoutes := ∅; pendingFuel := ∅ |}.

(** Surroundings in which every call goes through, at clock reading [t]. *)
Definition calm (t : Z) : Env :=
  {| dateNow := t; newDate := t; channelId := None;
     insertFault := NoFault; rpcFault := NoFault; selectFault := NoFault;
     updateFault := NoFault; nearbyFault := NoFault; voteFault := NoFault;
     sendThrows := false |}.

Definition bastos : Coordinates := mkCoordinates (38480 # 10000) (115021 # 10000).

(** A complete flow up to the request for the location: the reporter picks
    the type and sends a description. *)
Definition describes (t : Z) (w : World) (userId : string)
  (type : IncidentType) (text : string) : World :=
  handleDescription (handleIncidentTypeSelection (calm t) w userId type)
    userId (Js.units text).

(** The entry that such a flow leaves for the reporter. *)
Definition describes_entry (userId : string) (text : string)
  : PendingReport.t :=
  {| PendingReport.userId := userId;
     PendingReport.type := flooding;
     PendingReport.description := Some (Js.units text);
     PendingReport.severity := None;
     PendingReport.mediaUrl := None;
     PendingReport.step := PendingReport.awaiting_location;
     PendingReport.createdAt := 0 |}.

(** Alice and Bob both describe a flooding; Alice shares her location at
    [t = 0], Bob shares the same location three minutes later. *)
Definition bothWaiting : World :=
  describes 0 (describes 0 idle "1001" flooding "Route inondee")
    "1002" flooding "Inondation au carrefour".

Definition afterAlice : World :=
  fst (handleLocation (calm 0) bothWaiting "1001" (Some bastos)).

Definition afterBob : World :=
  fst (handleLocation (calm 180000) afterAlice "1002" (Some bastos)).

(** A stored incident that reached two confirmations. *)
Definition verifiedRow : IncidentRow.t :=
  {| IncidentRow.id := 7; IncidentRow.type := accident;
     IncidentRow.description := Some (Js.units "Collision");
     IncidentRow.latitude := 38480 # 10000;
     IncidentRow.longitude := 115021 # 10000;
     IncidentRow.address := None; IncidentRow.severity := 3;
     IncidentRow.status := verified; IncidentRow.reporter_id := "1001";
     IncidentRow.reporter_username := None; IncidentRow.confirmations := 2;
     IncidentRow.media_url := None; IncidentRow.expires_at := 14400000;
     IncidentRow.created_at := 0 |}.

Definition verifiedDb : Db :=
  {| users := [alice; bob]; incidents := [verifiedRow]; confirmations := [];
     next_id := 8 |}.

(** A report sent by the native application. *)
Definition nativeReport : Api.ReportBody :=
  {| Api.userId := Some "1002"%string;
     Api.type := Some accident;
     Api.description := Some (Js.units "Collision au rond-point");
     Api.latitude := Some (38480 # 10000);
     Api.longitude := Some (115021 # 10000);
     Api.severity := None |}.

End Sample.


(** ** More of the repository: queries, users, badges, the expiry sweep *)

Module Repository.
Import Supabase.

(** The rows that [getActiveIncidents] selects at clock reading [dateNow]:
    status [pending] or [verified], created at or after the cutoff. *)
Definition recentActive (dateNow maxAge : Z) (r : IncidentRow.t) : bool :=
  activeStatus (IncidentRow.status r)
  && (dateNow - maxAge * 60 * 1000 <=? IncidentRow.created_at r)%Z.

(** [getActiveIncidents(maxAge = 60)]: [maxAge] is [None] when the caller
    leaves it out. *)
Definition getActiveIncidents (fault : Fault) (dateNow : Z) (db : Db)
  (maxAge : option Z) : list Incident.t :=
  let maxAge := match maxAge with Some m => m | None => 60%Z end in
  match fault with
  | NoFault =>
      map mapDbToIncident
        (orderBy newerFirst
           (List.filter (recentActive dateNow maxAge) (incidents db)))
  | _ => []
  end.

Definition withIncidents (db : Db) (rows : list IncidentRow.t) : Db :=
  {| users := users db;
     incidents := rows;
     confirmations := confirmations db;
     next_id := next_id db |}.

Definition setStatus (newStatus : IncidentStatus) (r : IncidentRow.t)
  : IncidentRow.t :=
  setConfirmations (IncidentRow.confirmations r) newStatus r.

(** The rows that the procedure [expire_old_incidents] of the schema
    updates at the clock reading [now] of the database. *)
Definition stale (now : Z) (r : IncidentRow.t) : bool :=
  activeStatus (IncidentRow.status r) && (IncidentRow.expires_at r <? now)%Z.

(** [expire_old_incidents()]: the stale rows become [expired]; the result
    is the number of rows updated. *)
Definition expire_old_incidents (now : Z) (db : Db) : Db * Z :=
  (withIncidents db
     (map (fun r => if stale now r then setStatus expired r else r)
        (incidents db)),
   Z.of_nat (length (List.filter (stale now) (incidents db)))).

(** [runExpiryCleanup] of the scheduler: the procedure is called, a
    positive count is logged ([Some]), an error or an exception is
    swallowed. *)
Definition runExpiryCleanup (fault : Fault) (now : Z) (db : Db)
  : Db * option Z :=
  match fault with
  | NoFault =>
      let (db1, data) := expire_old_incidents now db in
      (db1, if (data =? 0)%Z then None
            else if (0 <? data)%Z then Some data else None)
  | _ => (db, None)
  end.

(** [User], restricted to the columns of [UserRow.t]. *)
Record User := {
  telegramId : string;
  username : option string;
  trustScore : Z;
  reportsCount : Z;
  accurateReports : Z
}.

Definition mapDbToUser (row : UserRow.t) : User :=
  {| telegramId := UserRow.telegram_id row;
     username := UserRow.username row;
     trustScore := UserRow.trust_score row;
     reportsCount := UserRow.reports_count row;
     accurateReports := UserRow.accurate_reports row |}.

(** The row that [getOrCreateUser] inserts for a new user. *)
Definition newUserRow (telegramId : string) (username : option string)
  : UserRow.t :=
  {| UserRow.telegram_id := telegramId;
     UserRow.username := username;
     UserRow.trust_score := 50;
     UserRow.reports_count := 0;
     UserRow.accurate_reports := 0 |}.

(** The columns of the table [users] in the schema of the repository. *)
Definition usersColumns : list string :=
  ["id"; "telegram_id"; "username"; "trust_score"; "reports_count";
   "accurate_reports"; "language"; "subscribed_alerts"; "preferred_city";
   "created_at"; "updated_at"]%string.

(** The columns that the insert of [getOrCreateUser] names. *)
Definition newUserColumns : list string :=
  ["telegram_id"; "username"; "trust_score"; "reports_count";
   "accurate_reports"; "language"; "emergency_contacts";
   "subscription_tier"]%string.

(** The store takes an insert only when the table has every column that the
    insert names (otherwise it returns the error PGRST204). *)
Definition columnsKnown (table sent : list string) : bool :=
  forallb (fun c => existsb (String.eqb c) table) sent.

(** The insert of [getOrCreateUser]: refused when it names a column that
    the table [users] does not have, and by [telegram_id UNIQUE] when the
    table has a row of that id.  With the schema of the repository the first
    refusal always applies: [emergency_contacts] and [subscription_tier] are
    not columns of [users]. *)
Definition createUser (insertFault : Fault) (db : Db) (telegramId : string)
  (username : option string) : Db * option User :=
  match insertFault with
  | NoFault =>
      if negb (columnsKnown usersColumns newUserColumns) then (db, None)
      else if existsb (userHasId telegramId) (users db) then (db, None)
      else (withUsers db (users db ++ [newUserRow telegramId username]),
            Some (mapDbToUser (newUserRow telegramId username)))
  | _ => (db, None)
  end.

(** [getOrCreateUser]: the row of the user when [.single()] finds it; an
    insert when [.single()] reports [PGRST116] (no row, or several); [null]
    on every other error and on an exception. *)
Definition getOrCreateUser (selectFault insertFault : Fault) (db : Db)
  (telegramId : string) (username : option string) : Db * option User :=
  match selectFault with
  | Throws => (db, None)
  | ReturnsError code =>
      if String.eqb code "PGRST116"
      then createUser insertFault db telegramId username
      else (db, None)
  | NoFault =>
      match single (List.filter (userHasId telegramId) (users db)) with
      | Some row => (db, Some (mapDbToUser row))
      | None => createUser insertFault db telegramId username
      end
  end.

(** The four badges, in place of their labels. *)
Inductive Badge := Legend | Trusted | Active | New.

Definition getUserBadge (trustScore reportsCount : Z) : Badge :=
  if (100 <=? reportsCount)%Z && (80 <=? trustScore)%Z then Legend
  else if (50 <=? reportsCount)%Z && (70 <=? trustScore)%Z then Trusted
  else if (10 <=? reportsCount)%Z && (50 <=? trustScore)%Z then Active
  else New.

Definition badgeRank (b : Badge) : Z :=
  match b with
  | New => 0
  | Active => 1
  | Trusted => 2
  | Legend => 3
  end.

Record LeaderboardEntry := {
  entryUsername : option string;
  entryTrustScore : Z;
  entryReportsCount : Z;
  entryBadge : Badge
}.

(** [.order('trust_score', desc).order('reports_count', desc)]. *)
Definition ranksBefore (a b : UserRow.t) : bool :=
  (UserRow.trust_score b <? UserRow.trust_score a)%Z
  || (UserRow.trust_score a =? UserRow.trust_score b)%Z
     && (UserRow.reports_count b <=? UserRow.reports_count a)%Z.

Definition leaderboardEntry (row : UserRow.t) : LeaderboardEntry :=
  {| entryUsername := UserRow.username row;
     entryTrustScore := UserRow.trust_score row;
     entryReportsCount := UserRow.reports_count row;
     entryBadge :=
       getUserBadge (UserRow.trust_score row) (UserRow.reports_count row) |}.

(** [getLeaderboard(limit = 10)]. *)
Definition getLeaderboard (fault : Fault) (db : Db) (limit : option nat)
  : list LeaderboardEntry :=
  let limit := match limit with Some n => n | None => 10%nat end in
  match fault with
  | NoFault =>
      map leaderboardEntry (firstn limit (orderBy ranksBefore (users db)))
  | _ => []
  end.

(** The bar of [/mystats]: [Math.round(trustScore / 10)] filled cells and
    [10 - Math.round(trustScore / 10)] empty ones; [String.repeat] throws on
    a negative count, which is [None] here. *)
Definition roundTenth (trustScore : Z) : Z := ((trustScore + 5) / 10)%Z.

Definition trustBar (trustScore : Z) : option (list bool) :=
  let filled := roundTenth trustScore in
  if (filled <? 0)%Z || (10 - filled <? 0)%Z then None
  else Some (repeat true (Z.to_nat filled)
             ++ repeat false (Z.to_nat (10 - filled))).

(** One call of the repository, with what the surroundings decide for it. *)
Inductive StoreOp :=
| CreateIncident (fault : Fault) (incident : Incident.t)
| UpdateIncidentConfirmations (selectFault updateFault : Fault)
    (incidentId : N) (delta : Z)
| GetOrCreateUser (selectFault insertFault : Fault) (telegramId : string)
    (username : option string)
| UpdateUserTrustScore (selectFault updateFault : Fault)
    (telegramId : string) (delta : Z)
| IncrementUserReports (rpcFault selectFault updateFault : Fault)
    (telegramId : string)
| AddConfirmation (fault : Fault) (incidentId : N) (telegramId : string)
    (vote : Vote)
| ExpireOldIncidents (now : Z).

Definition runOp (db : Db) (op : StoreOp) : Db :=
  match op with
  | CreateIncident fault incident => fst (createIncident fault db incident)
  | UpdateIncidentConfirmations sel upd incidentId delta =>
      fst (updateIncidentConfirmations sel upd db incidentId delta)
  | GetOrCreateUser sel ins telegramId username =>
      fst (getOrCreateUser sel ins db telegramId username)
  | UpdateUserTrustScore sel upd telegramId delta =>
      fst (updateUserTrustScore sel upd db telegramId delta)
  | IncrementUserReports rpc sel upd telegramId =>
      fst (incrementUserReports rpc sel upd db telegramId)
  | AddConfirmation fault incidentId telegramId vote =>
      fst (addConfirmation fault db incidentId telegramId vote)
  | ExpireOldIncidents now => fst (expire_old_incidents now db)
  end.

Definition runOps (ops : list StoreOp) (db : Db) : Db :=
  fold_left runOp ops db.

(** The constraints of the schema on the three tables: primary keys and
    [telegram_id] unique, one vote per (incident, reporter), foreign keys
    of votes and incidents, the checks on [severity] and [trust_score]; and
    every key handed out lies below the next one. *)
Definition wellFormed (db : Db) : Prop :=
  List.NoDup (map IncidentRow.id (incidents db))
  /\ Forall (fun r => (IncidentRow.id r < next_id db)%N) (incidents db)
  /\ List.NoDup (map UserRow.telegram_id (users db))
  /\ List.NoDup (map (fun c => (ConfirmationRow.incident_id c,
                           ConfirmationRow.user_telegram_id c))
              (confirmations db))
  /\ Forall (fun c =>
       existsb (incidentHasId (ConfirmationRow.incident_id c)) (incidents db)
       = true
       /\ existsb (userHasId (ConfirmationRow.user_telegram_id c)) (users db)
          = true) (confirmations db)
  /\ Forall (fun r =>
       existsb (userHasId (IncidentRow.reporter_id r)) (users db) = true
       /\ (1 <= IncidentRow.severity r <= 5)%Z) (incidents db)
  /\ Forall (fun u => (0 <= UserRow.trust_score u <= 100)%Z) (users db).

End Repository.


(** ** More of the service: the panic button, the commands that open a
       flow, and the events of the whole service *)

Module Service.
Import Supabase Telegram Repository.

(** What the handlers of this part answer. *)
Inductive Notice :=
| SosReceived
| ContactAlert (contactId : string)
| AskSosLocation
| Welcome (activeCount : nat) (isAdmin : bool)
| AskOrigin
| FuelPrices
| InvalidPrice
| FuelPriceSaved (price : Z)
| Restart
| AskLocation
| AskDestinationLocation
| Typing
| Detected (type : IncidentType)
| HelpHint.

(** The entry that the panic button leaves. *)
Definition panicEntry (newDate : Z) (userId : string) : PendingReport.t :=
  {| PendingReport.userId := userId;
     PendingReport.type := accident;
     PendingReport.description :=
       Some (Js.units "SOS PANIC BUTTON ACTIVATED");
     PendingReport.severity := Some 5%Z;
     PendingReport.mediaUrl := None;
     PendingReport.step := PendingReport.awaiting_location;
     PendingReport.createdAt := newDate |}.

(** [handlePanic].  [contacts] is what [mapDbToUser] reads from the field
    [emergency_contacts] of the user's row, a column that the tables of this
    file do not carry (and that the table [users] of the schema does not
    have, so that the list is empty there); the contacts are alerted when
    the user could be read. *)
Definition handlePanic (selectFault insertFault : Fault) (newDate : Z)
  (w : World) (userId : string) (username : option string)
  (contacts : list string) : World * list Notice :=
  let (db1, user) :=
    getOrCreateUser selectFault insertFault (db w) userId username in
  let alerts :=
    match user with
    | Some _ => map ContactAlert contacts
    | None => []
    end in
  (withPendingReports (withDb w db1)
     (<[userId := panicEntry newDate userId]> (pendingReports w)),
   [SosReceived] ++ alerts ++ [AskSosLocation]).














(** The command [/start]: the user is registered and greeted with the
    number of incidents of the last twelve hours. *)
Definition onStart (selectFault insertFault activeFault : Fault)
  (dateNow : Z) (isAdmin : bool) (w : World) (userId : string)
  (username : option string) : World * list Notice :=
  let (db1, _) :=
    getOrCreateUser selectFault insertFault (db w) userId username in
  (withDb w db1,
   [Welcome (length (getActiveIncidents activeFault dateNow db1
                       (Some (12 * 60)%Z))) isAdmin]).

(** The command [/route]. *)
Definition onRouteCommand (w : World) (userId : string)
  : World * list Notice :=
  (withPendingRoutes w
     (<[userId := {| origin := None; destination := None;
                     routeStep := route_origin |}]> (pendingRoutes w)),
   [AskOrigin]).

(** The command [/fuel]. *)
Definition onFuelCommand (w : World) (userId : string)
  : World * list Notice :=
  (withPendingFuel w
     (<[userId := {| fuelStep := fuel_awaiting_location;
                     stationId := None; fuelType := None |}]>
        (pendingFuel w)),
   [FuelPrices]).

(** The two vote actions, by the vote they record. *)
Definition onVote (vote : Vote) (env : Env) (w : World) (incidentId : N)
  (userId : string) : World * list Effect :=
  match vote with
  | confirm => onConfirm env w incidentId userId
  | deny => onReject env w incidentId userId
  end.

(** [GET /incidents]. *)
Definition getIncidents (fault : Fault) (dateNow : Z) (db : Db)
  : list Incident.t :=
  getActiveIncidents fault dateNow db None.

(** The events that reach the store through the service, the scheduler and
    the HTTP routes. *)
Inductive Event :=
| LocationMessage (env : Env) (userId : string)
    (message : option Coordinates)
| ConfirmAction (env : Env) (incidentId : N) (userId : string)
| RejectAction (env : Env) (incidentId : N) (userId : string)
| TypeSelected (env : Env) (userId : string) (type : IncidentType)
| DescriptionText (userId : string) (text : Js.jsstring)
| PanicButton (selectFault insertFault : Fault) (newDate : Z)
    (userId : string) (username : option string) (contacts : list string)
| StartCommand (selectFault insertFault activeFault : Fault) (dateNow : Z)
    (isAdmin : bool) (userId : string) (username : option string)
| RouteCommand (userId : string)
| FuelCommand (userId : string)
| ExpiryCleanup (fault : Fault) (now : Z)
| ReportPosted (newDate dateNow : Z) (fault : Fault)
    (body : Api.ReportBody).

Definition dispatch (w : World) (e : Event) : World :=
  match e with
  | LocationMessage env userId message =>
      fst (onLocation env w userId message)
  | ConfirmAction env incidentId userId =>
      fst (onConfirm env w incidentId userId)
  | RejectAction env incidentId userId =>
      fst (onReject env w incidentId userId)
  | TypeSelected env userId type =>
      handleIncidentTypeSelection env w userId type
  | DescriptionText userId text => handleDescription w userId text
  | PanicButton sel ins newDate userId username contacts =>
      fst (handlePanic sel ins newDate w userId username contacts)
  | StartCommand sel ins act dateNow isAdmin userId username =>
      fst (onStart sel ins act dateNow isAdmin w userId username)
  | RouteCommand userId => fst (onRouteCommand w userId)
  | FuelCommand userId => fst (onFuelCommand w userId)
  | ExpiryCleanup fault now =>
      withDb w (fst (runExpiryCleanup fault now (db w)))
  | ReportPosted newDate dateNow fault body =>
      withDb w (fst (Api.postReport newDate dateNow fault (db w) body))
  end.

Definition run (events : list Event) (w : World) : World :=
  fold_left dispatch events w.

(** The calls of the repository that the events make: an incident is
    created with confirmation count 0 and status [pending]; the counter of
    an incident and the trust score of a user are never written. *)
Definition serviceOp (op : StoreOp) : Prop :=
  match op with
  | CreateIncident _ incident =>
      Incident.confirmations incident = 0%Z
      /\ Incident.status incident = pending
  | UpdateIncidentConfirmations _ _ _ _ => False
  | UpdateUserTrustScore _ _ _ _ => False
  | _ => True
  end.

(** Every incident is as the service creates it or as the sweep leaves it:
    confirmation count 0 and status [pending] or [expired]. *)
Definition unconfirmed (r : IncidentRow.t) : Prop :=
  IncidentRow.confirmations r = 0%Z
  /\ (IncidentRow.status r = pending \/ IncidentRow.status r = expired).

End Service.

(** ** Scenarios for the examples of the second half *)

Module Scenarios.
Import Supabase Telegram Repository Service.



Definition rowAt (id : N) (status : IncidentStatus) (created expires : Z)
  : IncidentRow.t :=
  {| IncidentRow.id := id; IncidentRow.type := traffic_jam;
     IncidentRow.description := None;
     IncidentRow.latitude := 38480 # 10000;
     IncidentRow.longitude := 115021 # 10000;
     IncidentRow.address := None; IncidentRow.severity := 2;
     IncidentRow.status := status; IncidentRow.reporter_id := "1001";
     IncidentRow.reporter_username := None; IncidentRow.confirmations := 0;
     IncidentRow.media_url := None; IncidentRow.expires_at := expires;
     IncidentRow.created_at := created |}.

(** Four incidents: two active and recent, one active and overdue, one
    already marked false. *)
Definition mixedDb : Db :=
  {| users := [Sample.alice; Sample.bob];
     incidents := [ rowAt 1 pending 1000 5000; rowAt 2 verified 3000 9000;
                    rowAt 3 pending 2000 2500; rowAt 4 false_report 2600 9000 ];
     confirmations := [];
     next_id := 5 |}.

Definition carol : UserRow.t :=
  {| UserRow.telegram_id := "1003"; UserRow.username := None;
     UserRow.trust_score := 95; UserRow.reports_count := 120;
     UserRow.accurate_reports := 0 |}.

Definition boardDb : Db :=
  {| users := [Sample.alice; Sample.bob; carol]; incidents := [];
     confirmations := []; next_id := 1 |}.

(** The payload of Bob's flooding report. *)
Definition bobsFlooding : Incident.t :=
  incidentData (Sample.calm 0) "1002"
    (Sample.describes_entry "1002" "Route inondee") Sample.bastos.


Definition equator : Api.ReportBody :=
  {| Api.userId := Some "1002"%string;
     Api.type := Some accident;
     Api.description := None;
     Api.latitude := Some (0 # 1);
     Api.longitude := Some (90000 # 10000);
     Api.severity := None |}.

End Scenarios.


(* ===================================================================== *)
(** * Part II. Properties                                                  *)
(* ===================================================================== *)

(** ** The matcher finds whole-word occurrences *)

Section MatcherFacts.
Import Js Gemini.

Lemma lastOr_cons {A} (d : option A) (x : A) (l : list A) :
  lastOr d (x :: l) = lastOr (Some x) l.
Proof.
  unfold lastOr. destruct l as [|y l]; [reflexivity|].
  change (last (x :: y :: l)) with (last (y :: l)).
  destruct (last (y :: l)) eqn:E; [reflexivity|].
  destruct l; discriminate || (apply last_None in E; discriminate).
Qed.

Lemma matchLiteral_sound alt : forall s prev lst rest,
  matchLiteral alt s prev = Some (lst, rest) ->
  exists mid, s = mid ++ rest
              /\ Forall2 (fun p c => sameUnit p c = true) alt mid
              /\ lst = lastOr prev mid.
Proof.
  induction alt as [|p alt IH]; intros s prev lst rest H; simpl in H.
  - injection H as <- <-. exists []. repeat split. constructor.
  - destruct s as [|c s]; [discriminate|].
    destruct (sameUnit p c) eqn:E; [|discriminate].
    destruct (IH _ _ _ _ H) as (mid & -> & HF & ->).
    exists (c :: mid). repeat split.
    + constructor; assumption.
    + symmetry. apply lastOr_cons.
Qed.

Lemma matchLiteral_complete alt : forall mid rest prev,
  Forall2 (fun p c => sameUnit p c = true) alt mid ->
  matchLiteral alt (mid ++ rest) prev = Some (lastOr prev mid, rest).
Proof.
  induction alt as [|p alt IH]; intros mid rest prev HF; inversion HF; subst.
  - reflexivity.
  - simpl. rewrite H1, lastOr_cons. apply IH. assumption.
Qed.

Lemma matchAt_spec alts prev s :
  matchAt alts prev s = true <->
  exists alt mid post,
    In alt alts /\ s = mid ++ post
    /\ Forall2 (fun p c => sameUnit p c = true) alt mid
    /\ wordBoundary prev (head (mid ++ post)) = true
    /\ wordBoundary (lastOr prev mid) (head post) = true.
Proof.
  unfold matchAt. rewrite andb_true_iff, existsb_exists. split.
  - intros (Hb & alt & Hin & Hm).
    destruct (matchLiteral alt s prev) as [[lst rest]|] eqn:E; [|discriminate].
    destruct (matchLiteral_sound _ _ _ _ _ E) as (mid & -> & HF & ->).
    exists alt, mid, rest. auto.
  - intros (alt & mid & post & Hin & -> & HF & Hb1 & Hb2).
    split; [assumption|]. exists alt. split; [assumption|].
    rewrite (matchLiteral_complete _ _ _ _ HF). assumption.
Qed.

Lemma scanFrom_spec alts : forall s prev,
  scanFrom alts prev s = true <->
  exists alt pre mid post,
    In alt alts /\ s = pre ++ mid ++ post
    /\ Forall2 (fun p c => sameUnit p c = true) alt mid
    /\ wordBoundary (lastOr prev pre) (head (mid ++ post)) = true
    /\ wordBoundary (lastOr prev (pre ++ mid)) (head post) = true.
Proof.
  induction s as [|c s IH]; intros prev; simpl scanFrom;
    rewrite orb_true_iff, matchAt_spec.
  - split.
    + intros [(alt & mid & post & H)|H]; [|discriminate].
      exists alt, [], mid, post. exact H.
    + intros (alt & pre & mid & post & Hin & Hs & H).
      left. destruct pre; [|discriminate]. exists alt, mid, post. auto.
  - rewrite IH. split.
    + intros [(alt & mid & post & H)|(alt & pre & mid & post & Hin & -> & H)].
      * exists alt, [], mid, post. exact H.
      * exists alt, (c :: pre), mid, post.
        simpl app. rewrite !lastOr_cons. auto.
    + intros (alt & pre & mid & post & Hin & Hs & HF & Hb1 & Hb2).
      destruct pre as [|c' pre].
      * left. exists alt, mid, post. auto.
      * right. simpl in Hs. injection Hs as <- ->.
        simpl app in Hb2. rewrite lastOr_cons in Hb1, Hb2.
        exists alt, pre, mid, post. auto.
Qed.

(** [test] answers [true] exactly when one of the alternatives occurs in
    the input as a whole word. *)
Lemma test_spec alts s :
  test alts s = true <->
  exists kw, In kw alts /\ occursAsWord kw s.
Proof.
  unfold test, occursAsWord. rewrite scanFrom_spec. split.
  - intros (alt & pre & mid & post & H1 & H2). exists alt. split; [tauto|].
    exists pre, mid, post. tauto.
  - intros (alt & Hin & pre & mid & post & H). exists alt, pre, mid, post.
    tauto.
Qed.

(** Decides the comparisons of the goal from the hypotheses. *)
Ltac settle_comparisons :=
  repeat match goal with
         | |- context [(?a <=? ?b)%N] =>
             first [ replace (a <=? b)%N with true
                       by (symmetry; apply N.leb_le; lia)
                   | replace (a <=? b)%N with false
                       by (symmetry; apply N.leb_gt; lia) ]
         | |- context [(?a =? ?b)%N] =>
             first [ replace (a =? b)%N with true
                       by (symmetry; apply N.eqb_eq; lia)
                   | replace (a =? b)%N with false
                       by (symmetry; apply N.eqb_neq; lia) ]
         end; cbn [andb orb negb].

Lemma canonicalize_lowerUnit c : canonicalize (lowerUnit c) = canonicalize c.
Proof.
  unfold lowerUnit.
  destruct ((65 <=? c) && (c <=? 90))%N eqn:E1.
  - apply andb_true_iff in E1. destruct E1 as (Ha & Hb).
    apply N.leb_le in Ha, Hb. unfold canonicalize. settle_comparisons. lia.
  - destruct ((192 <=? c) && (c <=? 222) && negb (c =? 215))%N eqn:E2;
      [|reflexivity].
    apply andb_true_iff in E2. destruct E2 as (E2 & Hc).
    apply andb_true_iff in E2. destruct E2 as (Ha & Hb).
    apply N.leb_le in Ha, Hb. apply negb_true_iff, N.eqb_neq in Hc.
    unfold canonicalize. settle_comparisons. lia.
Qed.

Lemma isWordChar_canonicalize c : isWordChar (canonicalize c) = isWordChar c.
Proof.
  unfold canonicalize.
  destruct ((97 <=? c) && (c <=? 122))%N eqn:E1.
  { apply andb_true_iff in E1. destruct E1 as (Ha & Hb).
    apply N.leb_le in Ha, Hb. unfold isWordChar. settle_comparisons.
    reflexivity. }
  destruct (c =? 181)%N eqn:E2.
  { apply N.eqb_eq in E2. subst c. reflexivity. }
  destruct ((224 <=? c) && (c <=? 254) && negb (c =? 247))%N eqn:E3.
  { apply andb_true_iff in E3. destruct E3 as (E3 & Hc).
    apply andb_true_iff in E3. destruct E3 as (Ha & Hb).
    apply N.leb_le in Ha, Hb. unfold isWordChar. settle_comparisons.
    reflexivity. }
  destruct (c =? 255)%N eqn:E4; [|reflexivity].
  apply N.eqb_eq in E4. subst c. reflexivity.
Qed.

Lemma wordBoundary_canonical a a' b b' :
  option_map canonicalize a = option_map canonicalize a' ->
  option_map canonicalize b = option_map canonicalize b' ->
  wordBoundary a b = wordBoundary a' b'.
Proof.
  assert (H : forall x y,
             option_map canonicalize x = option_map canonicalize y ->
             isWordAt x = isWordAt y).
  { intros [x|] [y|]; simpl; intros E; try discriminate; [|reflexivity].
    injection E as E.
    rewrite <- (isWordChar_canonicalize x), <- (isWordChar_canonicalize y), E.
    reflexivity. }
  intros Ha Hb. unfold wordBoundary. rewrite (H _ _ Ha), (H _ _ Hb).
  reflexivity.
Qed.

Lemma head_canonical (s t : jsstring) :
  map canonicalize s = map canonicalize t ->
  option_map canonicalize (head s) = option_map canonicalize (head t).
Proof.
  destruct s, t; simpl; intros E; try discriminate; [reflexivity|].
  injection E as E _. rewrite E. reflexivity.
Qed.

Lemma matchLiteral_canonical alt : forall s t prev prev',
  map canonicalize s = map canonicalize t ->
  option_map canonicalize prev = option_map canonicalize prev' ->
  match matchLiteral alt s prev, matchLiteral alt t prev' with
  | Some (l, r), Some (l', r') =>
      option_map canonicalize l = option_map canonicalize l'
      /\ map canonicalize r = map canonicalize r'
  | None, None => True
  | _, _ => False
  end.
Proof.
  induction alt as [|p alt IH]; intros s t prev prev' Hs Hp; simpl.
  - split; assumption.
  - destruct s as [|c s], t as [|d t]; simpl in Hs; try discriminate;
      [exact I|].
    injection Hs as Hc Hs. unfold sameUnit. rewrite Hc.
    destruct (canonicalize p =? canonicalize d)%N; [|exact I].
    apply IH; [exact Hs|]. simpl. rewrite Hc. reflexivity.
Qed.

Lemma matchAt_canonical alts s t prev prev' :
  map canonicalize s = map canonicalize t ->
  option_map canonicalize prev = option_map canonicalize prev' ->
  matchAt alts prev s = matchAt alts prev' t.
Proof.
  intros Hs Hp. unfold matchAt.
  rewrite (wordBoundary_canonical prev prev' (head s) (head t) Hp
             (head_canonical s t Hs)).
  f_equal. induction alts as [|alt alts IH]; simpl; [reflexivity|].
  rewrite IH. f_equal.
  pose proof (matchLiteral_canonical alt s t prev prev' Hs Hp) as H.
  destruct (matchLiteral alt s prev) as [[l r]|],
           (matchLiteral alt t prev') as [[l' r']|]; try contradiction;
    [|reflexivity].
  destruct H as (Hl & Hr).
  apply wordBoundary_canonical; [exact Hl|apply head_canonical; exact Hr].
Qed.

Lemma scanFrom_canonical alts : forall s t prev prev',
  map canonicalize s = map canonicalize t ->
  option_map canonicalize prev = option_map canonicalize prev' ->
  scanFrom alts prev s = scanFrom alts prev' t.
Proof.
  induction s as [|c s IH]; intros t prev prev' Hs Hp;
    destruct t as [|d t]; try discriminate; simpl.
  - rewrite (matchAt_canonical alts [] [] prev prev' Hs Hp). reflexivity.
  - rewrite (matchAt_canonical alts (c :: s) (d :: t) prev prev' Hs Hp).
    simpl in Hs. injection Hs as Hc Hs. f_equal.
    apply IH; [exact Hs|]. simpl. rewrite Hc. reflexivity.
Qed.

Lemma toLowerCaseLatin1_canonical s :
  map canonicalize (toLowerCaseLatin1 s) = map canonicalize s.
Proof.
  unfold toLowerCaseLatin1. rewrite map_map. apply map_ext.
  apply canonicalize_lowerUnit.
Qed.


(** From boolean comparisons among the hypotheses to arithmetic. *)
Ltac arith_of_bool :=
  repeat match goal with
         | H : (_ && _) = true |- _ => apply andb_true_iff in H; destruct H
         | H : (_ && _) = false |- _ => apply andb_false_iff in H; destruct H
         | H : (_ || _) = true |- _ => apply orb_true_iff in H; destruct H
         | H : (_ || _) = false |- _ => apply orb_false_iff in H; destruct H
         | H : negb _ = true |- _ => apply negb_true_iff in H
         | H : negb _ = false |- _ => apply negb_false_iff in H
         | H : (_ <=? _)%N = true |- _ => apply N.leb_le in H
         | H : (_ <=? _)%N = false |- _ => apply N.leb_gt in H
         | H : (_ =? _)%N = true |- _ => apply N.eqb_eq in H
         | H : (_ =? _)%N = false |- _ => apply N.eqb_neq in H
         end.

Lemma isWordChar_spec c : isWordChar c = true <-> Keywords.wordChar c.
Proof.
  unfold isWordChar, Keywords.wordChar.
  rewrite !orb_true_iff, !andb_true_iff, !N.leb_le, N.eqb_eq. lia.
Qed.

Lemma isWordChar_false c : isWordChar c = false <-> ~ Keywords.wordChar c.
Proof.
  rewrite <- isWordChar_spec. destruct (isWordChar c); split; intros H;
    try reflexivity; try discriminate; [exfalso; apply H; reflexivity].
Qed.

Lemma sameUnit_sameLetter p c :
  Keywords.keywordUnit p = true ->
  sameUnit p c = true <-> Keywords.sameLetter p c.
Proof.
  intros Hk. unfold sameUnit. rewrite N.eqb_eq.
  unfold Keywords.sameLetter, Keywords.lowerCaseLetter.
  unfold Keywords.keywordUnit in Hk. unfold canonicalize.
  destruct ((97 <=? p) && (p <=? 122))%N eqn:P1;
    [|destruct (p =? 181)%N eqn:P2;
      [|destruct ((224 <=? p) && (p <=? 254) && negb (p =? 247))%N eqn:P3;
        [|destruct (p =? 255)%N eqn:P4]]];
    (destruct ((97 <=? c) && (c <=? 122))%N eqn:C1;
     [|destruct (c =? 181)%N eqn:C2;
       [|destruct ((224 <=? c) && (c <=? 254) && negb (c =? 247))%N eqn:C3;
         [|destruct (c =? 255)%N eqn:C4]]]);
    arith_of_bool; lia.
Qed.

Lemma sameUnit_isWordChar p c :
  sameUnit p c = true -> isWordChar c = isWordChar p.
Proof.
  unfold sameUnit. intros H. apply N.eqb_eq in H.
  rewrite <- (isWordChar_canonicalize c), <- (isWordChar_canonicalize p), H.
  reflexivity.
Qed.

Lemma spelled_iff kw mid :
  forallb Keywords.keywordUnit kw = true ->
  Forall2 (fun p c => sameUnit p c = true) kw mid <-> Keywords.spelled kw mid.
Proof.
  unfold Keywords.spelled. revert mid.
  induction kw as [|p kw IH]; intros mid Hk.
  - split; intros H; inversion H; constructor.
  - simpl in Hk. apply andb_true_iff in Hk. destruct Hk as (Hp & Hk).
    split; intros H; inversion H; subst; constructor;
      try (apply (IH _ Hk); assumption);
      apply (sameUnit_sameLetter p _ Hp); assumption.
Qed.

Lemma notAfterWord_iff pre :
  isWordAt (lastOr None pre) = false <-> Keywords.notAfterWord pre.
Proof.
  unfold lastOr, Keywords.notAfterWord.
  destruct (last pre) as [c|] eqn:E.
  - apply last_Some in E. destruct E as (pre' & ->). simpl.
    rewrite isWordChar_false. split.
    + intros H. right. exists pre', c. split; [reflexivity|exact H].
    + intros [H|(pre'' & c' & H & Hc)].
      * destruct pre'; discriminate.
      * apply app_inj_tail in H. destruct H as (_ & ->). exact Hc.
  - apply last_None in E. subst pre. split; [left|]; reflexivity.
Qed.

Lemma notBeforeWord_iff post :
  isWordAt (head post) = false <-> Keywords.notBeforeWord post.
Proof.
  unfold Keywords.notBeforeWord. destruct post as [|c post]; simpl.
  - split; [left|]; reflexivity.
  - rewrite isWordChar_false. split.
    + intros H. right. exists c, post. split; [reflexivity|exact H].
    + intros [H|(c' & post' & H & Hc)]; [discriminate|].
      injection H as -> _. exact Hc.
Qed.

Lemma beforeWord_iff post :
  isWordAt (head post) = true <-> Keywords.beforeWord post.
Proof.
  unfold Keywords.beforeWord. destruct post as [|c post]; simpl.
  - split; [discriminate|]. intros (c & post & H & _). discriminate.
  - rewrite isWordChar_spec. split.
    + intros H. exists c, post. split; [reflexivity|exact H].
    + intros (c' & post' & H & Hc). injection H as -> _. exact Hc.
Qed.

(** The two assertions [\b] around an occurrence of a well-written
    keyword: the unit before is no unit of a word; the unit after is none
    when the keyword ends with a letter of Basic Latin, and is one
    otherwise. *)
Lemma boundaries_of_occurrence kw pre mid post :
  Keywords.wellWritten kw = true ->
  Forall2 (fun p c => sameUnit p c = true) kw mid ->
  (wordBoundary (lastOr None pre) (head (mid ++ post)) = true
   <-> isWordAt (lastOr None pre) = false)
  /\ (wordBoundary (lastOr None (pre ++ mid)) (head post) = true
      <-> isWordAt (head post) = negb (Keywords.endsWithLetter kw)).
Proof.
  unfold Keywords.wellWritten. intros Hw HF.
  apply andb_true_iff in Hw. destruct Hw as (Hunits & Hstart).
  destruct kw as [|p kw]; [discriminate|].
  inversion HF as [|? c ? mid' Hpc HF']; subst.
  assert (Hfirst : isWordChar c = true).
  { rewrite (sameUnit_isWordChar p c Hpc). unfold isWordChar.
    simpl in Hstart. apply andb_true_iff in Hstart.
    destruct Hstart as (H1 & H2). rewrite H1, H2.
    rewrite !orb_true_r. reflexivity. }
  split.
  - cbn [app head]. unfold wordBoundary. cbn [isWordAt]. rewrite Hfirst.
    destruct (isWordAt (lastOr None pre)); simpl; split; congruence.
  - pose proof (Forall2_last _ _ _ HF) as Hlast.
    assert (Hl : exists q d, last (p :: kw) = Some q
                             /\ last (c :: mid') = Some d
                             /\ sameUnit q d = true).
    { inversion Hlast as [q d Hqd Hq Hd|Hq Hd].
      - exists q, d. auto.
      - symmetry in Hq. apply last_None in Hq. discriminate. }
    destruct Hl as (q & d & Hq & Hd & Hqd).
    assert (Hlo : lastOr None (pre ++ c :: mid') = Some d).
    { unfold lastOr. rewrite last_app, Hd. reflexivity. }
    rewrite Hlo. unfold wordBoundary. cbn [isWordAt].
    rewrite (sameUnit_isWordChar q d Hqd).
    unfold Keywords.endsWithLetter. rewrite Hq.
    assert (Hq' : Keywords.keywordUnit q = true).
    { rewrite forallb_forall in Hunits. apply Hunits.
      apply last_Some in Hq. destruct Hq as (l' & ->).
      apply in_or_app. right. left. reflexivity. }
    assert (Hword : isWordChar q = ((97 <=? q) && (q <=? 122))%N).
    { unfold Keywords.keywordUnit in Hq'. unfold isWordChar.
      destruct ((97 <=? q) && (q <=? 122))%N eqn:E;
        [rewrite !orb_true_r; reflexivity|].
      rewrite orb_false_r.
      destruct ((48 <=? q) && (q <=? 57))%N eqn:E1;
        destruct ((65 <=? q) && (q <=? 90))%N eqn:E2;
        destruct (q =? 95)%N eqn:E3; try reflexivity;
        exfalso; arith_of_bool; lia. }
    rewrite Hword.
    destruct ((97 <=? q) && (q <=? 122))%N, (isWordAt (head post)); simpl;
      split; congruence.
Qed.

(** A keyword that ends with a letter of Basic Latin is found by the
    matcher exactly where it stands as a word of its own. *)
Lemma occursAsWord_wholeWord kw s :
  Keywords.wellWritten kw = true ->
  Keywords.endsWithLetter kw = true ->
  occursAsWord kw s <-> Keywords.wholeWord kw s.
Proof.
  intros Hw He. unfold occursAsWord, Keywords.wholeWord.
  assert (Hunits : forallb Keywords.keywordUnit kw = true).
  { unfold Keywords.wellWritten in Hw. apply andb_true_iff in Hw. tauto. }
  split.
  - intros (pre & mid & post & Hs & HF & Hb1 & Hb2).
    destruct (boundaries_of_occurrence kw pre mid post Hw HF) as (B1 & B2).
    rewrite He in B2. exists pre, mid, post.
    split; [exact Hs|]. split; [apply spelled_iff; assumption|].
    split; [apply notAfterWord_iff, B1, Hb1
           |apply notBeforeWord_iff, B2, Hb2].
  - intros (pre & mid & post & Hs & HF & Hb1 & Hb2).
    apply spelled_iff in HF; [|exact Hunits].
    destruct (boundaries_of_occurrence kw pre mid post Hw HF) as (B1 & B2).
    rewrite He in B2. exists pre, mid, post.
    split; [exact Hs|]. split; [exact HF|].
    split; [apply B1, notAfterWord_iff, Hb1
           |apply B2, notBeforeWord_iff, Hb2].
Qed.

(** A keyword that ends otherwise is found exactly where it stands at the
    start of a longer word. *)
Lemma occursAsWord_wordStart kw s :
  Keywords.wellWritten kw = true ->
  Keywords.endsWithLetter kw = false ->
  occursAsWord kw s <-> Keywords.wordStart kw s.
Proof.
  intros Hw He. unfold occursAsWord, Keywords.wordStart.
  assert (Hunits : forallb Keywords.keywordUnit kw = true).
  { unfold Keywords.wellWritten in Hw. apply andb_true_iff in Hw. tauto. }
  split.
  - intros (pre & mid & post & Hs & HF & Hb1 & Hb2).
    destruct (boundaries_of_occurrence kw pre mid post Hw HF) as (B1 & B2).
    rewrite He in B2. exists pre, mid, post.
    split; [exact Hs|]. split; [apply spelled_iff; assumption|].
    split; [apply notAfterWord_iff, B1, Hb1|apply beforeWord_iff, B2, Hb2].
  - intros (pre & mid & post & Hs & HF & Hb1 & Hb2).
    apply spelled_iff in HF; [|exact Hunits].
    destruct (boundaries_of_occurrence kw pre mid post Hw HF) as (B1 & B2).
    rewrite He in B2. exists pre, mid, post.
    split; [exact Hs|]. split; [exact HF|].
    split; [apply B1, notAfterWord_iff, Hb1|apply B2, beforeWord_iff, Hb2].
Qed.

(** A test whose alternatives all end with a letter of Basic Latin. *)
Lemma test_wholeWord alts s :
  forallb Keywords.wellWritten alts = true ->
  forallb Keywords.endsWithLetter alts = true ->
  test alts s = true <-> exists kw, In kw alts /\ Keywords.wholeWord kw s.
Proof.
  intros Hw He. rewrite test_spec. rewrite forallb_forall in Hw, He.
  split; intros (kw & Hin & H); exists kw; (split; [exact Hin|]);
    apply (occursAsWord_wholeWord kw s (Hw kw Hin) (He kw Hin)); exact H.
Qed.


(** Units that differ at most in case are compared as equal. *)
Lemma caseVariants_canonical a b :
  Keywords.caseVariants a b -> canonicalize a = canonicalize b.
Proof.
  assert (H : forall x y,
             Keywords.lowerCaseLetter x -> (y + 32)%N = x ->
             canonicalize x = canonicalize y).
  { intros x y Hx Hy. unfold Keywords.lowerCaseLetter in Hx.
    unfold canonicalize.
    destruct ((97 <=? x) && (x <=? 122))%N eqn:P1;
      [|destruct (x =? 181)%N eqn:P2;
        [|destruct ((224 <=? x) && (x <=? 254) && negb (x =? 247))%N eqn:P3;
          [|destruct (x =? 255)%N eqn:P4]]];
      (destruct ((97 <=? y) && (y <=? 122))%N eqn:C1;
       [|destruct (y =? 181)%N eqn:C2;
         [|destruct ((224 <=? y) && (y <=? 254) && negb (y =? 247))%N eqn:C3;
           [|destruct (y =? 255)%N eqn:C4]]]);
      arith_of_bool; lia. }
  intros [->|[(Ha & Hb)|(Hb & Ha)]].
  - reflexivity.
  - apply H; assumption.
  - symmetry. apply H; assumption.
Qed.

Lemma eqb_eq (a : jsstring) : forall b, Js.eqb a b = true <-> a = b.
Proof.
  induction a as [|x a IH]; intros [|y b]; simpl;
    try (split; [discriminate|discriminate]); [tauto|].
  rewrite andb_true_iff, N.eqb_eq, IH. split.
  - intros (-> & ->). reflexivity.
  - intros H. injection H as -> ->. auto.
Qed.

End MatcherFacts.

(** ** The fallback classifier *)

Section ClassifierFacts.
Import Js Gemini.

Lemma fallbackParse_isEmergency lower text :
  isEmergency (fallbackParse lower text) = test reEmergency (lower text).
Proof. reflexivity. Qed.

(** The chain of conditionals of [fallbackParse] is the search for the first
    matching rule of the table. *)
Lemma fallbackParse_chain lower text :
  test reEmergency (lower text) = false ->
  type (fallbackParse lower text) = firstMatchingRule (lower text).
Proof.
  intros H. unfold fallbackParse, firstMatchingRule, typeRules.
  cbn [type find fst snd]. rewrite H.
  repeat match goal with
         | |- context [if test ?re ?s then _ else _] =>
             destruct (test re s); [reflexivity|]
         end.
  reflexivity.
Qed.

Lemma in_units_iff (words : list string) (P : jsstring -> Prop) :
  (exists kw, In kw (map units words) /\ P kw)
  <-> exists word, In word words /\ P (units word).
Proof.
  split.
  - intros (kw & Hin & H). apply in_map_iff in Hin.
    destruct Hin as (word & <- & Hin). exists word. auto.
  - intros (word & Hin & H). exists (units word). split; [|exact H].
    apply in_map. exact Hin.
Qed.

(** The emergency flag is set exactly when one of the six emergency words
    stands in the tested string as a word of its own. *)
Lemma emergency_test s :
  test reEmergency s = true <->
  exists word,
    In word ["sos"; "urgence"; "emergency"; "help"; "au secours";
             "aide"]%string
    /\ Keywords.wholeWord (units word) s.
Proof.
  rewrite (test_wholeWord reEmergency s eq_refl eq_refl).
  apply (in_units_iff _ (fun kw => Keywords.wholeWord kw s)).
Qed.

(** C5. For every input text the fallback classifier sets the emergency
    flag exactly when one of the words sos, urgence, emergency, help,
    au secours, aide stands in the lower-cased text as a word of its own,
    in either case of its letters: no letter, digit or underscore of Basic
    Latin stands directly before it or after it.  Whenever the flag is set
    the answer has type [sos] and severity 5, whatever words of the type
    rules the text also holds, with the first 100 code units of the text as
    its description and confidence 0.6.  For a text of Basic Latin and
    Latin-1 the lower-casing changes nothing of this: the word stands so in
    the text itself.  "SOS aide au secours" yields exactly such an answer. *)
Theorem fallbackParse_emergency :
  (forall lower text,
     isEmergency (fallbackParse lower text) = true <->
     exists word,
       In word ["sos"; "urgence"; "emergency"; "help"; "au secours";
                "aide"]%string
       /\ Keywords.wholeWord (units word) (lower text))
  /\ (forall lower text,
        isEmergency (fallbackParse lower text) = true ->
        type (fallbackParse lower text) = sos
        /\ severity (fallbackParse lower text) = 5%Z
        /\ description (fallbackParse lower text) = firstn 100 text
        /\ locationHint (fallbackParse lower text) = None
        /\ confidence (fallbackParse lower text) = 6 # 10)
  /\ (forall text,
        latin1 text ->
        isEmergency (fallbackParse toLowerCaseLatin1 text) = true <->
        exists word,
          In word ["sos"; "urgence"; "emergency"; "help"; "au secours";
                   "aide"]%string
          /\ Keywords.wholeWord (units word) text)
  /\ units "sos" = [115; 111; 115]%N
  /\ fallbackParse toLowerCaseLatin1 (units "SOS aide au secours")
     = {| type := sos; severity := 5;
          description := units "SOS aide au secours";
          locationHint := None; isEmergency := true; confidence := 6 # 10 |}.
Proof.
  split; [|split; [|split; [|split]]].
  - intros lower text. rewrite fallbackParse_isEmergency.
    apply emergency_test.
  - intros lower text H. rewrite fallbackParse_isEmergency in H.
    unfold fallbackParse. cbn [type severity description locationHint
                                 confidence]. rewrite H. repeat split.
  - intros text _. rewrite fallbackParse_isEmergency.
    assert (E : test reEmergency (toLowerCaseLatin1 text)
                = test reEmergency text).
    { unfold test. apply scanFrom_canonical; [|reflexivity].
      apply toLowerCaseLatin1_canonical. }
    rewrite E. apply emergency_test.
  - reflexivity.
  - vm_compute. reflexivity.
Qed.

(** "Help! accident police flood": the word help, followed by an
    exclamation mark, stands on its own before words of three type rules. *)
Lemma fallbackParse_emergency_witness :
  type (fallbackParse toLowerCaseLatin1 (units "Help! accident police flood"))
  = sos
  /\ severity (fallbackParse toLowerCaseLatin1
                 (units "Help! accident police flood")) = 5%Z.
Proof.
  destruct (proj1 (proj2 fallbackParse_emergency) toLowerCaseLatin1
              (units "Help! accident police flood")) as (H1 & H2 & _).
  - apply (proj1 fallbackParse_emergency). exists "help"%string.
    split; [right; right; right; left; reflexivity|].
    exists [], (units "help"), (units "! accident police flood").
    split; [reflexivity|]. split; [|split].
    + repeat constructor.
    + left. reflexivity.
    + right. exists 33%N, (units " accident police flood").
      split; [reflexivity|]. unfold Keywords.wordChar. lia.
  - split; [exact H1|exact H2].
Defined.

Lemma found_iff kw s :
  Keywords.wellWritten kw = true ->
  occursAsWord kw s <-> Keywords.found kw s.
Proof.
  intros Hw. unfold Keywords.found.
  destruct (Keywords.endsWithLetter kw) eqn:E.
  - apply occursAsWord_wholeWord; assumption.
  - apply occursAsWord_wordStart; assumption.
Qed.

(** A rule of the table matches exactly when one of its keywords is found. *)
Lemma rule_test s rule :
  In rule Keywords.rules ->
  test (fst rule) s = true <-> Keywords.hit s rule.
Proof.
  intros Hin. rewrite test_spec. unfold Keywords.hit.
  assert (Hw : forallb Keywords.wellWritten (fst rule) = true).
  { assert (Hall : forallb (fun r => forallb Keywords.wellWritten (fst r))
                     Keywords.rules = true) by reflexivity.
    rewrite forallb_forall in Hall. exact (Hall rule Hin). }
  rewrite forallb_forall in Hw.
  split; intros (kw & Hk & H); exists kw; (split; [exact Hk|]);
    apply (found_iff kw s (Hw kw Hk)); exact H.
Qed.

(** The search for the first matching rule, against the written table. *)
Lemma firstMatchingRule_firstHit s :
  Keywords.firstHit s (firstMatchingRule s).
Proof.
  unfold Keywords.firstHit, firstMatchingRule.
  change typeRules with Keywords.rules.
  assert (Hgen : forall done rest,
             Keywords.rules = done ++ rest ->
             Forall (fun r => ~ Keywords.hit s r) done ->
             (exists before rule after,
                Keywords.rules = before ++ rule :: after
                /\ Forall (fun r => ~ Keywords.hit s r) before
                /\ Keywords.hit s rule
                /\ match find (fun r => test (fst r) s) rest with
                   | Some r => snd r
                   | None => other
                   end = snd rule)
             \/ (Forall (fun r => ~ Keywords.hit s r) Keywords.rules
                 /\ match find (fun r => test (fst r) s) rest with
                    | Some r => snd r
                    | None => other
                    end = other)).
  { intros done rest. revert done.
    induction rest as [|r rest IH]; intros done Heq Hdone.
    - right. rewrite app_nil_r in Heq. rewrite Heq. split; [exact Hdone|].
      reflexivity.
    - assert (Hin : In r Keywords.rules)
        by (rewrite Heq; apply in_or_app; right; left; reflexivity).
      simpl find. destruct (test (fst r) s) eqn:E.
      + left. exists done, r, rest. split; [exact Heq|].
        split; [exact Hdone|]. split; [|reflexivity].
        apply (rule_test s r Hin). exact E.
      + apply (IH (done ++ [r])).
        * rewrite <- app_assoc. exact Heq.
        * apply Forall_app. split; [exact Hdone|].
          constructor; [|constructor]. intros Hhit.
          apply (rule_test s r Hin) in Hhit. congruence. }
  apply (Hgen [] Keywords.rules); [reflexivity|constructor].
Qed.

(** C6, at the input where the code leaves the claim, "Pont casse" with
    an acute accent on its last letter.
    The keyword of the rule for road damage stands in the text as a word of
    its own, after a space and at the end of the text, no emergency word
    occurs, and the classifier answers [other] where the claim has
    [road_damage]: the expression asks for a word boundary after the
    accented letter, which the end of the text (or a space) does not give.
    The same word with one more letter is classified as road damage. *)
Theorem broken_bridge_is_unclassified :
  In (units "cass" ++ [233%N]) reRoadDamage
  /\ Keywords.wholeWord (units "cass" ++ [233%N])
       (toLowerCaseLatin1 (units "Pont cass" ++ [233%N]))
  /\ isEmergency (fallbackParse toLowerCaseLatin1 (units "Pont cass" ++ [233%N]))
     = false
  /\ type (fallbackParse toLowerCaseLatin1 (units "Pont cass" ++ [233%N]))
     = other
  /\ type (fallbackParse toLowerCaseLatin1
             (units "Pont cass" ++ [233%N] ++ units "e"))
     = road_damage
  /\ analyzeText toLowerCaseLatin1 None
       (units "Accident grave au carrefour Bastos")
     = {| type := accident; severity := 3;
          description := units "Accident grave au carrefour Bastos";
          locationHint := None; isEmergency := false; confidence := 6 # 10 |}.
Proof.
  split; [|split; [|repeat split]].
  - unfold reRoadDamage. do 5 right. left. reflexivity.
  - exists (units "pont "), (units "cass" ++ [233%N]), [].
    split; [reflexivity|]. split; [|split].
    + repeat constructor.
    + right. exists (units "pont"), 32%N. split; [reflexivity|].
      unfold Keywords.wordChar. lia.
    + left. reflexivity.
Qed.

End ClassifierFacts.

(** ** The store *)

Section StoreFacts.
Import Supabase Runs.

Lemma filter_map_stable {A} (p : A -> bool) (f : A -> A) (l : list A) :
  (forall x, p (f x) = p x) ->
  List.filter p (map f l) = map f (List.filter p l).
Proof.
  intros Hp. induction l as [|x l IH]; simpl; [reflexivity|].
  rewrite Hp. destruct (p x); simpl; rewrite IH; reflexivity.
Qed.

Lemma single_Some {A} (l : list A) (x : A) : single l = Some x -> l = [x].
Proof.
  destruct l as [|y [|z l]]; simpl; intros H; try discriminate.
  injection H as ->. reflexivity.
Qed.

Lemma existsb_false_filter {A} (p : A -> bool) (l : list A) :
  existsb p l = false <-> List.filter p l = [].
Proof.
  induction l as [|x l IH]; simpl; [tauto|].
  destruct (p x); simpl; [split; discriminate|exact IH].
Qed.

Lemma confirmationsOrZero_Some r :
  confirmationsOrZero (Some r) = IncidentRow.confirmations r.
Proof.
  unfold confirmationsOrZero.
  destruct (IncidentRow.confirmations r =? 0)%Z eqn:E; [|reflexivity].
  apply Z.eqb_eq in E. congruence.
Qed.

Lemma Forall2_map_r {A B} (P : A -> B -> Prop) (f : A -> B) (l : list A) :
  (forall x, In x l -> P x (f x)) -> Forall2 P l (map f l).
Proof.
  induction l as [|x l IH]; intros H; simpl; constructor.
  - apply H. left. reflexivity.
  - apply IH. intros y Hy. apply H. right. exact Hy.
Qed.

Lemma NoDup_map_unique {A B} (f : A -> B) (l : list A) (a b : A) :
  List.NoDup (map f l) -> In a l -> In b l -> f a = f b -> a = b.
Proof.
  induction l as [|x l IH]; intros Hnd Ha Hb Hf; [destruct Ha|].
  simpl in Hnd. inversion Hnd as [|? ? Hx Hnd']; subst.
  destruct Ha as [->|Ha], Hb as [->|Hb].
  - reflexivity.
  - exfalso. apply Hx. rewrite Hf. apply in_map. exact Hb.
  - exfalso. apply Hx. rewrite <- Hf. apply in_map. exact Ha.
  - exact (IH Hnd' Ha Hb Hf).
Qed.

(** With unique ids, the rows of an id are the one row that has it. *)
Lemma filter_incidentHasId_unique rows row :
  List.NoDup (map IncidentRow.id rows) ->
  In row rows ->
  List.filter (incidentHasId (IncidentRow.id row)) rows = [row].
Proof.
  induction rows as [|r rows IH]; intros Hnd Hin; [destruct Hin|].
  simpl in Hnd. inversion Hnd as [|? ? Hr Hnd']; subst. simpl.
  destruct Hin as [->|Hin].
  - unfold incidentHasId at 1. rewrite N.eqb_refl. f_equal.
    apply existsb_false_filter. apply not_true_iff_false. intros Hex.
    apply existsb_exists in Hex. destruct Hex as (x & Hx & Hid).
    unfold incidentHasId in Hid. apply N.eqb_eq in Hid. apply Hr.
    rewrite <- Hid. apply in_map. exact Hx.
  - destruct (incidentHasId (IncidentRow.id row) r) eqn:E.
    + exfalso. unfold incidentHasId in E. apply N.eqb_eq in E. apply Hr.
      rewrite E. apply in_map. exact Hin.
    + apply IH; assumption.
Qed.

Lemma sameReport_setConfirmations n st r :
  sameReport r (setConfirmations n st r).
Proof. repeat split. Qed.

(** C10, as the code has it.  For a stored incident, with ids unique and
    both calls to the store going through: when the new count
    [max 0 (current + delta)] fits the [INTEGER] column (it is at most
    2 147 483 647), [updateIncidentConfirmations] answers [true], the row of
    the incident gets that count, which is never negative, and the status
    written from that count alone, [verified] when it is at least 2 and
    [pending] when it is below 2, whatever the status was before; nothing
    else of the row, no other row and no other table is changed.  When the
    new count does not fit the column, the store refuses the update: the
    function answers [false] and nothing is written. *)
Theorem updateIncidentConfirmations_spec db incidentId delta row :
  List.NoDup (map IncidentRow.id (incidents db)) ->
  In row (incidents db) ->
  IncidentRow.id row = incidentId ->
  let newCount := Z.max 0 (IncidentRow.confirmations row + delta) in
  let result :=
    updateIncidentConfirmations NoFault NoFault db incidentId delta in
  ((newCount <= 2147483647)%Z ->
   snd result = true
   /\ Forall2 (fun r r' =>
         (IncidentRow.id r <> incidentId /\ r' = r)
         \/ (r = row /\ sameReport r r'
             /\ IncidentRow.confirmations r' = newCount
             /\ (0 <= IncidentRow.confirmations r')%Z
             /\ (IncidentRow.status r' = verified <-> (2 <= newCount)%Z)
             /\ (IncidentRow.status r' = pending <-> (newCount < 2)%Z)))
         (incidents db) (incidents (fst result))
   /\ users (fst result) = users db
   /\ confirmations (fst result) = confirmations db
   /\ next_id (fst result) = next_id db)
  /\ ((2147483647 < newCount)%Z -> result = (db, false)).
Proof.
  intros Hnd Hin Hid newCount result. subst result.
  assert (Hrow : List.filter (incidentHasId incidentId) (incidents db) = [row])
    by (rewrite <- Hid; apply filter_incidentHasId_unique; assumption).
  assert (Hex : existsb (incidentHasId incidentId) (incidents db) = true).
  { apply existsb_exists. exists row. split; [exact Hin|].
    unfold incidentHasId. rewrite Hid. apply N.eqb_refl. }
  unfold updateIncidentConfirmations.
  rewrite Hrow, Hex. cbn [single]. rewrite confirmationsOrZero_Some.
  fold newCount. cbn [andb]. unfold maxInteger. split.
  - intros Hfit.
    assert (E : (2147483647 <? newCount)%Z = false) by (apply Z.ltb_ge; lia).
    rewrite E. cbn [fst snd users incidents confirmations next_id].
    split; [reflexivity|]. split; [|repeat split].
    apply Forall2_map_r. intros r Hr.
    destruct (incidentHasId incidentId r) eqn:Er.
    + right. unfold incidentHasId in Er. apply N.eqb_eq in Er.
      assert (Heq : r = row).
      { apply (NoDup_map_unique IncidentRow.id (incidents db)); try assumption.
        congruence. }
      split; [exact Heq|]. split; [apply sameReport_setConfirmations|].
      cbn [setConfirmations IncidentRow.confirmations IncidentRow.status].
      split; [reflexivity|]. split; [unfold newCount; lia|].
      destruct (2 <=? newCount)%Z eqn:E2.
      * apply Z.leb_le in E2. split; split; try reflexivity; try lia;
          try discriminate; intros _; lia.
      * apply Z.leb_gt in E2. split; split; try reflexivity; try lia;
          try discriminate; intros _; lia.
    + left. unfold incidentHasId in Er. apply N.eqb_neq in Er.
      split; [exact Er|reflexivity].
  - intros Hbig.
    assert (E : (2147483647 <? newCount)%Z = true) by (apply Z.ltb_lt; lia).
    rewrite E. reflexivity.
Qed.

(** Incident 7, verified with two confirmations, loses one and is pending
    with one. *)
Lemma updateIncidentConfirmations_spec_witness :
  snd (updateIncidentConfirmations NoFault NoFault Sample.verifiedDb 7 (-1))
  = true
  /\ map (fun r => (IncidentRow.id r, IncidentRow.confirmations r,
                    IncidentRow.status r))
       (incidents
          (fst (updateIncidentConfirmations NoFault NoFault Sample.verifiedDb
                  7 (-1))))
     = [(7%N, 1%Z, pending)].
Proof.
  split; [|reflexivity].
  refine (proj1 (proj1 (updateIncidentConfirmations_spec Sample.verifiedDb 7
                          (-1) Sample.verifiedRow _ _ _) _)).
  - cbn. repeat constructor. intros [].
  - left. reflexivity.
  - reflexivity.
  - cbn. lia.
Defined.

(** C10 as the claim words it fails for a delta that takes the count past
    the column: incident 7 has two confirmations, and with the delta
    2 147 483 647 the function answers [false] and the row keeps its two
    confirmations, where the claim has the count [max 0 (2 + delta)]. *)
Lemma update_out_of_range_counterexample :
  map (fun r => (IncidentRow.id r, IncidentRow.confirmations r))
    (incidents Sample.verifiedDb) = [(7%N, 2%Z)]
  /\ updateIncidentConfirmations NoFault NoFault Sample.verifiedDb 7
       2147483647
     = (Sample.verifiedDb, false)
  /\ ~ Exists (fun r => IncidentRow.confirmations r
                        = Z.max 0 (2 + 2147483647))
        (incidents
           (fst (updateIncidentConfirmations NoFault NoFault
                   Sample.verifiedDb 7 2147483647))).
Proof.
  split; [reflexivity|]. split; [reflexivity|].
  rewrite List.Exists_exists. intros (r & Hin & Hr).
  destruct Hin as [<-|[]]. vm_compute in Hr. discriminate.
Qed.

(** C8. Whatever the faults, the reporter and the delta, positive or
    negative: when [updateUserTrustScore] answers [true] the score it has
    stored for the reporter is [max 0 (min 100 (score + delta))], which lies
    in 0..100; and when it writes nothing the scores are those from before,
    so a table whose scores lie in 0..100 keeps that property. *)
Theorem updateUserTrustScore_bounds selectFault updateFault db telegramId
  delta :
  let db' :=
    fst (updateUserTrustScore selectFault updateFault db telegramId delta) in
  let ok :=
    snd (updateUserTrustScore selectFault updateFault db telegramId delta) in
  (ok = true ->
   exists user,
     List.filter (userHasId telegramId) (users db) = [user]
     /\ List.filter (userHasId telegramId) (users db')
        = [setTrustScore
             (Z.max 0 (Z.min 100 (UserRow.trust_score user + delta))) user]
     /\ forall u, In u (users db') -> userHasId telegramId u = true ->
                  (0 <= UserRow.trust_score u <= 100)%Z)
  /\ (ok = false -> db' = db)
  /\ (Forall trustInRange (users db) -> Forall trustInRange (users db')).
Proof.
  intros db' ok. subst db' ok. unfold updateUserTrustScore.
  destruct selectFault; cbn [fst snd];
    try (split; [discriminate|split; [reflexivity|tauto]]).
  destruct (single (List.filter (userHasId telegramId) (users db)))
    as [user|] eqn:Hs; cbn [fst snd];
    try (split; [discriminate|split; [reflexivity|tauto]]).
  destruct updateFault; cbn [fst snd];
    try (split; [discriminate|split; [reflexivity|tauto]]).
  apply single_Some in Hs. cbn [users withUsers].
  set (newScore := Z.max 0 (Z.min 100 (UserRow.trust_score user + delta))).
  assert (Hrange : (0 <= newScore <= 100)%Z) by (unfold newScore; lia).
  assert (Hstable : forall x,
             userHasId telegramId
               (if userHasId telegramId x then setTrustScore newScore x else x)
             = userHasId telegramId x).
  { intros x. destruct (userHasId telegramId x) eqn:E; exact E. }
  split; [|split].
  - intros _. exists user. split; [exact Hs|]. split.
    + rewrite filter_map_stable by exact Hstable. rewrite Hs. simpl.
      assert (Hid : userHasId telegramId user = true).
      { assert (Hin : In user (List.filter (userHasId telegramId) (users db)))
          by (rewrite Hs; left; reflexivity).
        apply filter_In in Hin. tauto. }
      rewrite Hid. reflexivity.
    + intros u Hin Hu.
      apply in_map_iff in Hin. destruct Hin as (x & <- & _).
      rewrite Hstable in Hu. rewrite Hu. exact Hrange.
  - discriminate.
  - intros Hall. rewrite List.Forall_forall in *. intros u Hin.
    apply in_map_iff in Hin. destruct Hin as (x & <- & Hx).
    destruct (userHasId telegramId x); [exact Hrange|exact (Hall x Hx)].
Qed.

(** Bob, at 95, is granted 10 points and is stored at 100. *)
Lemma updateUserTrustScore_bounds_witness :
  exists user,
    List.filter (userHasId "1002") (users Sample.emptyDb) = [user]
    /\ List.filter (userHasId "1002")
         (users (fst (updateUserTrustScore NoFault NoFault Sample.emptyDb
                        "1002" 10)))
       = [setTrustScore (Z.max 0 (Z.min 100 (UserRow.trust_score user + 10)))
            user]
    /\ forall u,
         In u (users (fst (updateUserTrustScore NoFault NoFault Sample.emptyDb
                             "1002" 10))) ->
         userHasId "1002" u = true ->
         (0 <= UserRow.trust_score u <= 100)%Z.
Proof.
  exact (proj1 (updateUserTrustScore_bounds NoFault NoFault Sample.emptyDb
                  "1002" 10) eq_refl).
Defined.

End StoreFacts.

(** ** Votes are recorded once per reporter and incident *)

Section ConfirmationFacts.
Import Supabase Runs.

(** The two outcomes of one call: nothing is written and the answer is
    [false], or the pair had no row and now has the one appended. *)
Lemma addConfirmation_cases fault db incidentId telegramId vote :
  addConfirmation fault db incidentId telegramId vote = (db, false)
  \/ (existsb (sameVoter incidentId telegramId) (confirmations db) = false
      /\ addConfirmation fault db incidentId telegramId vote
         = ({| users := users db;
               incidents := incidents db;
               confirmations :=
                 confirmations db
                 ++ [{| ConfirmationRow.incident_id := incidentId;
                        ConfirmationRow.user_telegram_id := telegramId;
                        ConfirmationRow.vote := vote |}];
               next_id := next_id db |}, true)).
Proof.
  unfold addConfirmation, confirmationError.
  destruct fault as [|code|]; [|left; destruct (String.eqb _ _); reflexivity
                              |left; reflexivity].
  destruct (existsb (sameVoter incidentId telegramId) (confirmations db)) eqn:E;
    [left; reflexivity|].
  destruct (existsb (incidentHasId incidentId) (incidents db));
    [|left; reflexivity].
  destruct (existsb (userHasId telegramId) (users db)); [|left; reflexivity].
  right. split; reflexivity.
Qed.

Lemma sameVoter_row i u j t v :
  sameVoter j t
    {| ConfirmationRow.incident_id := i;
       ConfirmationRow.user_telegram_id := u;
       ConfirmationRow.vote := v |} = true ->
  i = j /\ u = t.
Proof.
  unfold sameVoter. cbn [ConfirmationRow.incident_id
                           ConfirmationRow.user_telegram_id].
  intros H. apply andb_true_iff in H. destruct H as [H1 H2].
  apply N.eqb_eq in H1. apply String.eqb_eq in H2. tauto.
Qed.

Lemma votesOf_step fault db i u v j t :
  (votesOf db j t <= 1)%nat ->
  (votesOf (fst (addConfirmation fault db i u v)) j t <= 1)%nat.
Proof.
  intros Hle.
  destruct (addConfirmation_cases fault db i u v) as [->|[Hnone ->]];
    [exact Hle|].
  unfold votesOf in *. cbn [fst confirmations].
  rewrite List.filter_app, List.length_app. simpl.
  destruct (sameVoter j t _) eqn:E; simpl; [|lia].
  apply sameVoter_row in E. destruct E as [-> ->].
  apply existsb_false_filter in Hnone. rewrite Hnone. simpl. lia.
Qed.

(** C7. Whatever sequence of calls of [addConfirmation] is made, with
    whatever faults, a pair (incident, reporter) that had at most one row
    keeps at most one row; a call for a pair that already has its row meets
    the unique violation (code 23505), writes nothing and answers [false];
    a call answers [true] only when the pair
    had no row, and the pair has exactly one afterwards; and an error of
    the store or an exception is answered with [false] and is not passed on
    to the caller. *)
Theorem addConfirmation_at_most_once :
  (forall calls db incidentId telegramId,
     (votesOf db incidentId telegramId <= 1)%nat ->
     (votesOf (fst (addConfirmationCalls calls db)) incidentId telegramId
      <= 1)%nat)
  /\ (forall fault db incidentId telegramId vote,
        (1 <= votesOf db incidentId telegramId)%nat ->
        confirmationError db incidentId telegramId = Some "23505"%string
        /\ addConfirmation fault db incidentId telegramId vote = (db, false))
  /\ (forall fault db incidentId telegramId vote,
        snd (addConfirmation fault db incidentId telegramId vote) = true ->
        votesOf db incidentId telegramId = 0%nat
        /\ votesOf (fst (addConfirmation fault db incidentId telegramId vote))
             incidentId telegramId = 1%nat)
  /\ (forall db incidentId telegramId vote,
        addConfirmation Throws db incidentId telegramId vote = (db, false))
  /\ (forall code db incidentId telegramId vote,
        addConfirmation (ReturnsError code) db incidentId telegramId vote
        = (db, false)).
Proof.
  split; [|split; [|split; [|split]]].
  - induction calls as [|c calls IH]; intros db i u Hle; [exact Hle|].
    simpl.
    pose proof (votesOf_step (callFault c) db (callIncident c) (callUser c)
                  (callVote c) i u Hle) as Hstep.
    destruct (addConfirmation _ db _ _ _) as [db1 ok]. cbn [fst] in Hstep.
    specialize (IH db1 i u Hstep).
    destruct (addConfirmationCalls calls db1) as [db2 oks]. exact IH.
  - intros fault db i u v Hge.
    assert (Hsome : existsb (sameVoter i u) (confirmations db) = true).
    { destruct (existsb (sameVoter i u) (confirmations db)) eqn:E;
        [reflexivity|].
      apply existsb_false_filter in E. unfold votesOf in Hge.
      rewrite E in Hge. simpl in Hge. lia. }
    split; [unfold confirmationError; rewrite Hsome; reflexivity|].
    destruct (addConfirmation_cases fault db i u v) as [H|[Hnone _]];
      [exact H|congruence].
  - intros fault db i u v Hok.
    destruct (addConfirmation_cases fault db i u v) as [H|[Hnone H]];
      rewrite H in Hok |- *; [discriminate|].
    apply existsb_false_filter in Hnone.
    unfold votesOf. cbn [fst confirmations].
    rewrite List.filter_app, List.length_app, Hnone. simpl.
    unfold sameVoter. cbn [ConfirmationRow.incident_id
                             ConfirmationRow.user_telegram_id].
    rewrite N.eqb_refl, String.eqb_refl. split; reflexivity.
  - reflexivity.
  - intros code db i u v. unfold addConfirmation.
    destruct (String.eqb code "23505"); reflexivity.
Qed.

(** Alice confirms incident 7 three times, the second time through a
    failing connection: one row, and the answers [true], [false], [false]. *)
Lemma addConfirmation_at_most_once_witness :
  (votesOf
     (fst (addConfirmationCalls
             [ {| callFault := NoFault; callIncident := 7;
                  callUser := "1001"; callVote := confirm |};
               {| callFault := Throws; callIncident := 7;
                  callUser := "1001"; callVote := confirm |};
               {| callFault := NoFault; callIncident := 7;
                  callUser := "1001"; callVote := deny |} ]
             Sample.verifiedDb)) 7 "1001" <= 1)%nat
  /\ snd (addConfirmationCalls
            [ {| callFault := NoFault; callIncident := 7;
                 callUser := "1001"; callVote := confirm |};
              {| callFault := Throws; callIncident := 7;
                 callUser := "1001"; callVote := confirm |};
              {| callFault := NoFault; callIncident := 7;
                 callUser := "1001"; callVote := deny |} ]
            Sample.verifiedDb) = [true; false; false].
Proof.
  split.
  - apply (proj1 addConfirmation_at_most_once). vm_compute. lia.
  - reflexivity.
Defined.

End ConfirmationFacts.

(** ** The finalize step of the report flow *)

Section FinalizeFacts.
Import Supabase Telegram Runs.

Lemma createIncident_accepted db incident :
  incidentConstraints db (incidentRow (next_id db) incident) = true ->
  createIncident NoFault db incident
  = ({| users := users db;
        incidents := incidents db ++ [incidentRow (next_id db) incident];
        confirmations := confirmations db;
        next_id := N.succ (next_id db) |},
     Some (mapDbToIncident (incidentRow (next_id db) incident))).
Proof. intros H. unfold createIncident. rewrite H. reflexivity. Qed.

Lemma createIncident_users fault db incident :
  users (fst (createIncident fault db incident)) = users db.
Proof.
  unfold createIncident. destruct fault; try reflexivity.
  destruct (incidentConstraints _ _); reflexivity.
Qed.

(** [incrementUserReports] writes to the table [users] only. *)
Lemma incrementUserReports_tables rpc sel upd db telegramId :
  incidents (fst (incrementUserReports rpc sel upd db telegramId))
  = incidents db
  /\ confirmations (fst (incrementUserReports rpc sel upd db telegramId))
     = confirmations db
  /\ next_id (fst (incrementUserReports rpc sel upd db telegramId))
     = next_id db.
Proof.
  unfold incrementUserReports.
  destruct rpc; [repeat split| |repeat split].
  destruct sel; [|repeat split|repeat split].
  destruct (single _); [|repeat split].
  destruct upd; repeat split.
Qed.


Lemma map_unmatched {A} (p : A -> bool) (f : A -> A) (l : list A) :
  List.filter p l = [] -> map (fun x => if p x then f x else x) l = l.
Proof.
  induction l as [|x l IH]; simpl; [reflexivity|].
  destruct (p x); [discriminate|]. intros H. rewrite (IH H). reflexivity.
Qed.

(** The fallback of [incrementUserReports] writes what the procedure
    writes. *)
Lemma incrementUserReports_fallback code db telegramId :
  (length (List.filter (userHasId telegramId) (users db)) <= 1)%nat ->
  users (fst (incrementUserReports (ReturnsError code) NoFault NoFault db
                telegramId))
  = map (countedReport telegramId) (users db).
Proof.
  intros Hle. unfold incrementUserReports, countedReport.
  destruct (List.filter (userHasId telegramId) (users db))
    as [|user [|user' rest]] eqn:Hf; cbn [single fst users withUsers].
  - symmetry. apply map_unmatched. exact Hf.
  - apply map_ext_in. intros u Hin.
    destruct (userHasId telegramId u) eqn:Hu; [|reflexivity].
    assert (Hin' : In u (List.filter (userHasId telegramId) (users db)))
      by (apply filter_In; split; assumption).
    rewrite Hf in Hin'. destruct Hin' as [->|[]]. reflexivity.
  - simpl in Hle. lia.
Qed.

(** The store after a location message that reaches the finalize step: the
    insert of [createIncident], then [incrementUserReports]. *)
Lemma handleLocation_db env w userId p location :
  reachesFinalize w userId p ->
  db (fst (handleLocation env w userId (Some location)))
  = fst (incrementUserReports (rpcFault env) (selectFault env)
           (updateFault env)
           (fst (createIncident (insertFault env) (db w)
                   (incidentData env userId p location)))
           userId).
Proof.
  intros (Hadmin & Hpending & Hstep). unfold handleLocation.
  rewrite Hadmin, Hpending, Hstep.
  destruct (createIncident _ _ _) as [db1 saved]. cbn [fst].
  destruct (incrementUserReports _ _ _ db1 userId) as [db2 ok]. cbn [fst].
  destruct saved as [inc|]; [|reflexivity].
  destruct (channelId env); [|reflexivity].
  destruct (sendThrows env); reflexivity.
Qed.

(** An accepted insert appends the row of the report, with a fresh id, and
    touches no other row and no vote. *)
Lemma handleLocation_inserts env w userId p location :
  reachesFinalize w userId p ->
  insertAccepted env w userId p location ->
  incidents (db (fst (handleLocation env w userId (Some location))))
  = incidents (db w) ++ [finalizedRow env w userId p location]
  /\ next_id (db (fst (handleLocation env w userId (Some location))))
     = N.succ (next_id (db w))
  /\ confirmations (db (fst (handleLocation env w userId (Some location))))
     = confirmations (db w).
Proof.
  intros Hreach (Hfault & Hok).
  rewrite (handleLocation_db env w userId p location Hreach).
  destruct (incrementUserReports_tables (rpcFault env) (selectFault env)
              (updateFault env)
              (fst (createIncident (insertFault env) (db w)
                      (incidentData env userId p location))) userId)
    as (-> & -> & ->).
  rewrite Hfault, (createIncident_accepted _ _ Hok). cbn [fst].
  repeat split.
Qed.

(** C1, as the code has it.  Two reports that reach the finalize step and
    whose inserts the store accepts give two incident rows, whatever their
    types, places and times: each report appends its own row, with its own
    id, confirmation count 0 and status [pending]; no existing row is
    changed and no confirmation is recorded. *)
Theorem two_reports_two_incidents env1 env2 w u1 u2 p1 p2 loc1 loc2 :
  let w1 := fst (handleLocation env1 w u1 (Some loc1)) in
  let w2 := fst (handleLocation env2 w1 u2 (Some loc2)) in
  let r1 := finalizedRow env1 w u1 p1 loc1 in
  let r2 := finalizedRow env2 w1 u2 p2 loc2 in
  reachesFinalize w u1 p1 -> insertAccepted env1 w u1 p1 loc1 ->
  reachesFinalize w1 u2 p2 -> insertAccepted env2 w1 u2 p2 loc2 ->
  incidents (db w2) = incidents (db w) ++ [r1; r2]
  /\ IncidentRow.id r1 <> IncidentRow.id r2
  /\ IncidentRow.type r1 = PendingReport.type p1
  /\ IncidentRow.type r2 = PendingReport.type p2
  /\ IncidentRow.confirmations r1 = 0%Z /\ IncidentRow.confirmations r2 = 0%Z
  /\ IncidentRow.status r1 = pending /\ IncidentRow.status r2 = pending
  /\ confirmations (db w2) = confirmations (db w).
Proof.
  intros w1 w2 r1 r2 Hr1 Ha1 Hr2 Ha2.
  destruct (handleLocation_inserts env1 w u1 p1 loc1 Hr1 Ha1)
    as (Hi1 & Hn1 & Hc1).
  destruct (handleLocation_inserts env2 w1 u2 p2 loc2 Hr2 Ha2)
    as (Hi2 & Hn2 & Hc2).
  fold w1 in Hi1, Hn1, Hc1. fold w2 in Hi2, Hn2, Hc2.
  split; [|split; [|repeat split]].
  - rewrite Hi2, Hi1, <- app_assoc. reflexivity.
  - unfold r1, r2, finalizedRow. cbn [incidentRow IncidentRow.id].
    rewrite Hn1. lia.
  - rewrite Hc2, Hc1. reflexivity.
Qed.

(** Alice and Bob report a flooding at the same place, three minutes
    apart. *)
Lemma two_reports_two_incidents_witness :
  incidents (db Sample.afterBob)
  = incidents (db Sample.bothWaiting)
    ++ [finalizedRow (Sample.calm 0) Sample.bothWaiting "1001"
          (Sample.describes_entry "1001" "Route inondee") Sample.bastos;
        finalizedRow (Sample.calm 180000) Sample.afterAlice "1002"
          (Sample.describes_entry "1002" "Inondation au carrefour")
          Sample.bastos].
Proof.
  refine (proj1 (two_reports_two_incidents (Sample.calm 0)
                   (Sample.calm 180000) Sample.bothWaiting "1001" "1002"
                   _ _ Sample.bastos Sample.bastos _ _ _ _)).
  all: repeat split; vm_compute; reflexivity.
Defined.

(** C1 as the specification words it fails: two reports of a flooding at the
    same coordinates, three minutes apart, both finalized, leave two
    incidents, each with confirmation count 0, and not one incident
    confirmed twice. *)
Lemma dedup_counterexample :
  map IncidentRow.type (incidents (db Sample.afterBob))
  = [flooding; flooding]
  /\ map (fun r => (IncidentRow.latitude r, IncidentRow.longitude r))
       (incidents (db Sample.afterBob))
     = [(38480 # 10000, 115021 # 10000); (38480 # 10000, 115021 # 10000)]
  /\ map IncidentRow.created_at (incidents (db Sample.afterBob))
     = [0%Z; 180000%Z]
  /\ map IncidentRow.confirmations (incidents (db Sample.afterBob))
     = [0%Z; 0%Z]
  /\ ~ (length (incidents (db Sample.afterBob)) = 1%nat
        /\ Exists (fun r => (2 <= IncidentRow.confirmations r)%Z)
             (incidents (db Sample.afterBob))).
Proof.
  repeat split; try (vm_compute; reflexivity).
  intros [H _]. vm_compute in H. discriminate.
Qed.

End FinalizeFacts.

(** ** Expiry of a new incident, and the reward of the reporter *)

Section ReportFacts.
Import Supabase Telegram Runs.

(** C3, as the code has it.  An incident created when a Telegram report
    flow is finalized is stored with status [pending], with the clock
    reading [new Date()] as its creation time and with an expiry four hours
    after the clock reading [Date.now()] taken for it; an incident created by
    [POST /report] is stored with status [pending] and an expiry 60 minutes
    after its clock reading. *)
Theorem report_expiry :
  (forall env w userId p location,
     reachesFinalize w userId p ->
     insertAccepted env w userId p location ->
     exists row,
       incidents (db (fst (handleLocation env w userId (Some location))))
       = incidents (db w) ++ [row]
       /\ IncidentRow.status row = pending
       /\ IncidentRow.expires_at row = (dateNow env + 4 * 60 * 60 * 1000)%Z
       /\ IncidentRow.created_at row = newDate env)
  /\ (forall newDate dateNow fault db body incidentId,
        snd (Api.postReport newDate dateNow fault db body)
        = Api.Created incidentId ->
        exists row,
          incidents (fst (Api.postReport newDate dateNow fault db body))
          = incidents db ++ [row]
          /\ incidentId = Some (IncidentRow.id row)
          /\ IncidentRow.status row = pending
          /\ IncidentRow.expires_at row = (dateNow + 60 * 60 * 1000)%Z
          /\ IncidentRow.created_at row = newDate).
Proof.
  split.
  - intros env w userId p location Hreach Hacc.
    exists (finalizedRow env w userId p location).
    split; [apply (handleLocation_inserts env w userId p location Hreach Hacc)|].
    repeat split.
  - intros newDate dateNow fault db body incidentId.
    unfold Api.postReport.
    destruct (Api.userId body) as [uid|]; [|discriminate].
    destruct (Api.type body) as [ty|]; [|discriminate].
    destruct (Api.latitude body) as [lat|]; [|discriminate].
    destruct (Api.longitude body) as [lon|]; [|discriminate].
    destruct (_ && _); [|discriminate].
    unfold createIncident. destruct fault; try discriminate.
    destruct (incidentConstraints _ _); [|discriminate].
    cbn [fst snd incidents]. intros H. injection H as <-.
    eexists. split; [reflexivity|]. repeat split.
Qed.

(** Alice's flooding, shared at clock reading 0, expires at 14 400 000 ms;
    a report of the native application received at clock reading 1000
    expires at 3 601 000 ms. *)
Lemma report_expiry_witness :
  (exists row,
     incidents (db Sample.afterAlice)
     = incidents (db Sample.bothWaiting) ++ [row]
     /\ IncidentRow.status row = pending
     /\ IncidentRow.expires_at row = 14400000%Z
     /\ IncidentRow.created_at row = 0%Z)
  /\ (exists row,
        incidents (fst (Api.postReport 1000 1000 NoFault Sample.emptyDb
                          Sample.nativeReport))
        = incidents Sample.emptyDb ++ [row]
        /\ Some 1%N = Some (IncidentRow.id row)
        /\ IncidentRow.status row = pending
        /\ IncidentRow.expires_at row = 3601000%Z
        /\ IncidentRow.created_at row = 1000%Z).
Proof.
  split.
  - refine (proj1 report_expiry (Sample.calm 0) Sample.bothWaiting "1001"
              (Sample.describes_entry "1001" "Route inondee") Sample.bastos
              _ _).
    all: repeat split; vm_compute; reflexivity.
  - refine (proj2 report_expiry 1000%Z 1000%Z NoFault Sample.emptyDb
              Sample.nativeReport (Some 1%N) _).
    vm_compute. reflexivity.
Defined.

(** C3 as the specification words it fails: the incident of a completed
    Telegram flow expires four hours, not 60 minutes, after its creation
    time. *)
Lemma expiry_counterexample :
  map (fun r => (IncidentRow.status r,
                 (IncidentRow.expires_at r - IncidentRow.created_at r)%Z))
    (incidents (db Sample.afterAlice))
  = [(pending, 14400000%Z)]
  /\ ~ Forall (fun r =>
         IncidentRow.expires_at r
         = (IncidentRow.created_at r + 60 * 60 * 1000)%Z)
         (incidents (db Sample.afterAlice)).
Proof.
  split; [vm_compute; reflexivity|].
  intros H. vm_compute in H. inversion H as [|r l Hr Hl]. discriminate.
Qed.

(** C4, at the input where the code leaves the claim.  Alice, with trust
    score 50 and no report so far, files a flooding that is stored.  Her
    report count goes from 0 to 1, as the claim has it, and her trust score
    is 50 afterwards, where the claim has it raised: the finalize step calls
    [incrementUserReports] and never [updateUserTrustScore], the function
    of the store that raises a score and keeps it within 0..100 (called with
    a delta of 1 on the store after her report, it would leave her at 51). *)
Theorem stored_report_leaves_trust_score :
  length (incidents (db Sample.afterAlice)) = 1%nat
  /\ map (fun u => (UserRow.telegram_id u, UserRow.trust_score u,
                    UserRow.reports_count u))
       (users (db Sample.bothWaiting))
     = [("1001"%string, 50%Z, 0%Z); ("1002"%string, 95%Z, 7%Z)]
  /\ map (fun u => (UserRow.telegram_id u, UserRow.trust_score u,
                    UserRow.reports_count u))
       (users (db Sample.afterAlice))
     = [("1001"%string, 50%Z, 1%Z); ("1002"%string, 95%Z, 7%Z)]
  /\ map (fun u => (UserRow.telegram_id u, UserRow.trust_score u,
                    UserRow.reports_count u))
       (users (fst (updateUserTrustScore NoFault NoFault
                      (db Sample.afterAlice) "1001" 1)))
     = [("1001"%string, 51%Z, 1%Z); ("1002"%string, 95%Z, 7%Z)].
Proof. repeat split. Qed.

End ReportFacts.

(** ** Confirm actions *)

Section VoteFacts.
Import Supabase Telegram Runs.

(** One confirm action records at most the vote: the tables [incidents] and
    [users] are not written, and the table of votes grows by one row exactly
    when the action is answered as accepted. *)
Lemma onConfirm_step env w incidentId userId :
  incidents (db (fst (onConfirm env w incidentId userId))) = incidents (db w)
  /\ users (db (fst (onConfirm env w incidentId userId))) = users (db w)
  /\ length (confirmations (db (fst (onConfirm env w incidentId userId))))
     = (length (confirmations (db w))
        + length (List.filter accepted
                    (snd (onConfirm env w incidentId userId))))%nat.
Proof.
  unfold onConfirm.
  destruct (addConfirmation_cases (voteFault env) (db w) incidentId userId
              confirm) as [->|[_ ->]]; cbn.
  - repeat split. lia.
  - repeat split. rewrite List.length_app. reflexivity.
Qed.

(** A sequence of confirm actions in general: each accepted action adds
    one row to the table of votes, and no action writes the table of
    incidents. *)
Lemma confirm_votes_are_only_recorded votes : forall w incidentId,
  incidents (db (fst (confirmVotes votes w incidentId))) = incidents (db w)
  /\ users (db (fst (confirmVotes votes w incidentId))) = users (db w)
  /\ length (confirmations (db (fst (confirmVotes votes w incidentId))))
     = (length (confirmations (db w))
        + length (List.filter accepted
                    (snd (confirmVotes votes w incidentId))))%nat.
Proof.
  induction votes as [|[env userId] votes IH]; intros w incidentId; simpl.
  - repeat split. lia.
  - destruct (onConfirm_step env w incidentId userId) as (Hi & Hu & Hc).
    destruct (onConfirm env w incidentId userId) as [w1 out1].
    cbn [fst snd] in *.
    destruct (IH w1 incidentId) as (Hi' & Hu' & Hc').
    destruct (confirmVotes votes w1 incidentId) as [w2 out2].
    cbn [fst snd] in *.
    split; [congruence|]. split; [congruence|].
    rewrite Hc', Hc, List.filter_app, List.length_app. lia.
Qed.

(** C2, at the input where the code leaves the claim.  Alice and Bob both
    confirm incident 1, a pending incident without confirmations; both
    votes are accepted and recorded, and the incident keeps count 0 and
    status [pending], where the claim has count 2 and status [verified].
    The confirm action calls [addConfirmation] and never
    [updateIncidentConfirmations], the function of the store that holds the
    counter and the rule: called with a delta of 1 once for each of the two
    votes, it would leave the incident with count 2 and [verified]. *)
Theorem two_confirms_leave_incident_pending :
  map (fun r => (IncidentRow.id r, IncidentRow.confirmations r,
                 IncidentRow.status r))
    (incidents (db Sample.afterAlice))
  = [(1%N, 0%Z, pending)]
  /\ snd (confirmVotes [(Sample.calm 1, "1001"%string);
                        (Sample.calm 2, "1002"%string)]
            Sample.afterAlice 1)
     = [VoteReply confirm true; VoteReply confirm true]
  /\ map (fun c => (ConfirmationRow.incident_id c,
                    ConfirmationRow.user_telegram_id c,
                    ConfirmationRow.vote c))
       (confirmations
          (db (fst (confirmVotes [(Sample.calm 1, "1001"%string);
                                  (Sample.calm 2, "1002"%string)]
                      Sample.afterAlice 1))))
     = [(1%N, "1001"%string, confirm); (1%N, "1002"%string, confirm)]
  /\ map (fun r => (IncidentRow.id r, IncidentRow.confirmations r,
                    IncidentRow.status r))
       (incidents
          (db (fst (confirmVotes [(Sample.calm 1, "1001"%string);
                                  (Sample.calm 2, "1002"%string)]
                      Sample.afterAlice 1))))
     = [(1%N, 0%Z, pending)]
  /\ map (fun r => (IncidentRow.id r, IncidentRow.confirmations r,
                    IncidentRow.status r))
       (incidents
          (fst (updateIncidentConfirmations NoFault NoFault
                  (fst (updateIncidentConfirmations NoFault NoFault
                          (db Sample.afterAlice) 1 1)) 1 1)))
     = [(1%N, 2%Z, verified)].
Proof. repeat split. Qed.

End VoteFacts.

(** ** Ordered queries *)

Section OrderFacts.
Import Supabase Repository.

Lemma insertOrdered_perm {A} (before : A -> A -> bool) x l :
  Permutation (insertOrdered before x l) (x :: l).
Proof.
  induction l as [|y l IH]; simpl; [reflexivity|].
  destruct (before x y); [reflexivity|].
  rewrite IH. apply perm_swap.
Qed.

Lemma orderBy_perm {A} (before : A -> A -> bool) l :
  Permutation (orderBy before l) l.
Proof.
  induction l as [|x l IH]; simpl; [reflexivity|].
  rewrite insertOrdered_perm, IH. reflexivity.
Qed.

Section Sorting.
Context {A : Type} (before : A -> A -> bool).
Hypothesis before_total : forall x y, before x y = false -> before y x = true.
Hypothesis before_trans :
  forall x y z, before x y = true -> before y z = true -> before x z = true.

Lemma insertOrdered_sorted x l :
  StronglySorted (fun a b => before a b = true) l ->
  StronglySorted (fun a b => before a b = true) (insertOrdered before x l).
Proof.
  induction l as [|y l IH]; intros Hs; simpl.
  - constructor; constructor.
  - inversion Hs as [|? ? Hl Hy]; subst.
    destruct (before x y) eqn:E.
    + constructor; [exact Hs|]. constructor; [exact E|].
      rewrite List.Forall_forall in *. intros z Hz.
      apply (before_trans x y z E (Hy z Hz)).
    + constructor; [apply IH; exact Hl|].
      rewrite List.Forall_forall in *. intros z Hz.
      apply (Permutation_in _ (insertOrdered_perm before x l)) in Hz.
      destruct Hz as [<-|Hz]; [apply before_total; exact E|exact (Hy z Hz)].
Qed.

Lemma orderBy_sorted l :
  StronglySorted (fun a b => before a b = true) (orderBy before l).
Proof.
  induction l as [|x l IH]; simpl; [constructor|].
  apply insertOrdered_sorted. exact IH.
Qed.

End Sorting.

Lemma StronglySorted_map {A B} (f : A -> B) (R : B -> B -> Prop) l :
  StronglySorted (fun a b => R (f a) (f b)) l ->
  StronglySorted R (map f l).
Proof.
  induction 1 as [|x l Hs IH Hx]; simpl; constructor; [exact IH|].
  rewrite List.Forall_forall in *. intros y Hy.
  apply in_map_iff in Hy. destruct Hy as (z & <- & Hz). exact (Hx z Hz).
Qed.

Lemma StronglySorted_weaken {A} (R1 R2 : A -> A -> Prop) l :
  (forall a b, R1 a b -> R2 a b) ->
  StronglySorted R1 l -> StronglySorted R2 l.
Proof.
  intros Himp. induction 1 as [|x l Hs IH Hx]; constructor; [exact IH|].
  rewrite List.Forall_forall in *. intros y Hy. apply Himp, Hx, Hy.
Qed.

Lemma activeStatus_true s :
  activeStatus s = true <-> s = pending \/ s = verified.
Proof.
  destruct s; simpl; split; try tauto; try discriminate;
    intros [H|H]; discriminate.
Qed.

(** Membership in the answer of [getActiveIncidents]. *)
Lemma getActiveIncidents_In dateNow db maxAge inc :
  In inc (getActiveIncidents NoFault dateNow db maxAge) <->
  exists row,
    In row (incidents db) /\ inc = mapDbToIncident row
    /\ (IncidentRow.status row = pending \/ IncidentRow.status row = verified)
    /\ (dateNow - match maxAge with Some m => m | None => 60%Z end * 60 * 1000
        <= IncidentRow.created_at row)%Z.
Proof.
  unfold getActiveIncidents. rewrite in_map_iff. split.
  - intros (row & <- & Hin).
    apply (Permutation_in _ (orderBy_perm newerFirst _)) in Hin.
    apply filter_In in Hin. destruct Hin as (Hin & Hp).
    unfold recentActive in Hp. apply andb_true_iff in Hp.
    destruct Hp as (Ha & Hc). apply activeStatus_true in Ha.
    apply Z.leb_le in Hc. exists row. auto.
  - intros (row & Hin & -> & Ha & Hc). exists row. split; [reflexivity|].
    apply (Permutation_in _ (Permutation_sym (orderBy_perm newerFirst _))).
    apply filter_In. split; [exact Hin|].
    unfold recentActive. apply andb_true_iff. split.
    + apply activeStatus_true. exact Ha.
    + apply Z.leb_le. exact Hc.
Qed.

(** X1. [getActiveIncidents] answers exactly the stored incidents whose
    status is [pending] or [verified] and that were created at or after the
    cutoff, [maxAge] minutes (60 when left out) before the clock reading,
    newest first; an error of the store or an exception gives the empty
    list. *)
Theorem getActiveIncidents_spec dateNow db maxAge :
  let window := match maxAge with Some m => m | None => 60%Z end in
  (forall inc,
     In inc (getActiveIncidents NoFault dateNow db maxAge) <->
     exists row,
       In row (incidents db) /\ inc = mapDbToIncident row
       /\ (IncidentRow.status row = pending
           \/ IncidentRow.status row = verified)
       /\ (dateNow - window * 60 * 1000 <= IncidentRow.created_at row)%Z)
  /\ StronglySorted
       (fun a b => (Incident.createdAt b <= Incident.createdAt a)%Z)
       (getActiveIncidents NoFault dateNow db maxAge)
  /\ (length (getActiveIncidents NoFault dateNow db maxAge)
      <= length (incidents db))%nat
  /\ (forall code,
        getActiveIncidents (ReturnsError code) dateNow db maxAge = [])
  /\ getActiveIncidents Throws dateNow db maxAge = [].
Proof.
  intros window.
  split; [|split; [|split; [|split; reflexivity]]].
  - intros inc. apply getActiveIncidents_In.
  - unfold getActiveIncidents. apply StronglySorted_map.
    eapply StronglySorted_weaken
      with (R1 := fun a b => newerFirst a b = true);
      [|apply orderBy_sorted].
    + intros a b H. unfold newerFirst in H. apply Z.leb_le in H. exact H.
    + intros x y H. unfold newerFirst in *. apply Z.leb_gt in H.
      apply Z.leb_le. lia.
    + intros x y z H1 H2. unfold newerFirst in *.
      apply Z.leb_le in H1, H2. apply Z.leb_le. lia.
  - unfold getActiveIncidents. rewrite length_map.
    rewrite (Permutation_length (orderBy_perm newerFirst _)).
    apply List.filter_length_le.
Qed.

(** At clock reading 3 600 000 with a window of 60 minutes, the recent
    active incidents of the mixed store, newest first. *)
Lemma getActiveIncidents_spec_witness :
  In (mapDbToIncident (Scenarios.rowAt 2 verified 3000 9000))
    (getActiveIncidents NoFault 3600000 Scenarios.mixedDb None).
Proof.
  apply (proj1 (getActiveIncidents_spec 3600000 Scenarios.mixedDb None)).
  exists (Scenarios.rowAt 2 verified 3000 9000).
  split; [right; left; reflexivity|].
  split; [reflexivity|]. split; [right; reflexivity|]. vm_compute. discriminate.
Defined.

End OrderFacts.

(** ** The expiry sweep *)

Section ExpiryFacts.
Import Supabase Repository.

Lemma stale_setStatus_expired now r :
  stale now (setStatus expired r) = false.
Proof. reflexivity. Qed.

Lemma expire_leaves_none_stale now db :
  Forall (fun r => stale now r = false)
    (incidents (fst (expire_old_incidents now db))).
Proof.
  unfold expire_old_incidents. cbn [fst incidents withIncidents].
  rewrite List.Forall_forall. intros r' Hin.
  apply in_map_iff in Hin. destruct Hin as (r & <- & _).
  destruct (stale now r) eqn:E; [apply stale_setStatus_expired|exact E].
Qed.

(** X2. The sweep [expire_old_incidents] at the clock reading [now] sets
    the status [expired] on exactly the rows that are [pending] or
    [verified] and whose expiry lies before [now], and answers their number;
    every other row keeps its status, no row changes in anything else, and
    the tables of users and votes are not written.  Afterwards every row
    that is [pending] or [verified] has its expiry at [now] or later. *)
Theorem expire_old_incidents_spec now db :
  Forall2 (fun r r' =>
     Runs.sameReport r r'
     /\ IncidentRow.confirmations r' = IncidentRow.confirmations r
     /\ IncidentRow.status r'
        = match IncidentRow.status r with
          | pending | verified =>
              if (IncidentRow.expires_at r <? now)%Z then expired
              else IncidentRow.status r
          | status => status
          end)
    (incidents db) (incidents (fst (expire_old_incidents now db)))
  /\ snd (expire_old_incidents now db)
     = Z.of_nat
         (length
            (List.filter
               (fun r =>
                  match IncidentRow.status r with
                  | pending | verified => (IncidentRow.expires_at r <? now)%Z
                  | _ => false
                  end) (incidents db)))
  /\ Forall (fun r' =>
       match IncidentRow.status r' with
       | pending | verified => (now <= IncidentRow.expires_at r')%Z
       | _ => True
       end) (incidents (fst (expire_old_incidents now db)))
  /\ users (fst (expire_old_incidents now db)) = users db
  /\ confirmations (fst (expire_old_incidents now db)) = confirmations db
  /\ next_id (fst (expire_old_incidents now db)) = next_id db.
Proof.
  split; [|split; [|split; [|repeat split]]].
  - unfold expire_old_incidents. cbn [fst incidents withIncidents].
    apply Forall2_map_r. intros r _. unfold stale.
    destruct (activeStatus (IncidentRow.status r)
              && (IncidentRow.expires_at r <? now)%Z) eqn:E.
    + split; [apply sameReport_setConfirmations|]. split; [reflexivity|].
      unfold setStatus. cbn [setConfirmations IncidentRow.status].
      apply andb_true_iff in E. destruct E as (Ea & Eb).
      destruct (IncidentRow.status r); try discriminate; rewrite Eb;
        reflexivity.
    + split; [repeat split|]. split; [reflexivity|].
      destruct (IncidentRow.status r); cbn [activeStatus andb] in E;
        try reflexivity; rewrite E; reflexivity.
  - unfold expire_old_incidents. cbn [snd]. do 2 f_equal.
    apply filter_ext. intros r. unfold stale.
    destruct (IncidentRow.status r); reflexivity.
  - pose proof (expire_leaves_none_stale now db) as Hnone.
    rewrite List.Forall_forall in *. intros r Hin. specialize (Hnone r Hin).
    unfold stale in Hnone.
    destruct (IncidentRow.status r); cbn [activeStatus andb] in Hnone;
      try exact I; apply Z.ltb_ge in Hnone; exact Hnone.
Qed.

(** The mixed store swept at clock reading 3000: incident 3, pending and
    due at 2500, is the one row that expires. *)
Lemma expire_old_incidents_spec_witness :
  snd (expire_old_incidents 3000 Scenarios.mixedDb) = 1%Z
  /\ map IncidentRow.status
       (incidents (fst (expire_old_incidents 3000 Scenarios.mixedDb)))
     = [pending; verified; expired; false_report].
Proof.
  destruct (expire_old_incidents_spec 3000 Scenarios.mixedDb)
    as (_ & Hcount & _).
  split; [rewrite Hcount; reflexivity|reflexivity].
Defined.

Lemma expireRow_compose now1 now2 r :
  (if stale now2 (if stale now1 r then setStatus expired r else r)
   then setStatus expired (if stale now1 r then setStatus expired r else r)
   else (if stale now1 r then setStatus expired r else r))
  = (if stale (Z.max now1 now2) r then setStatus expired r else r).
Proof.
  destruct (stale now1 r) eqn:E1.
  - rewrite stale_setStatus_expired.
    assert (H : stale (Z.max now1 now2) r = true).
    { unfold stale in *. apply andb_true_iff in E1. destruct E1 as (Ha & Hb).
      apply andb_true_iff. split; [exact Ha|].
      apply Z.ltb_lt in Hb. apply Z.ltb_lt. lia. }
    rewrite H. reflexivity.
  - assert (H : stale (Z.max now1 now2) r = stale now2 r).
    { unfold stale in *. destruct (activeStatus (IncidentRow.status r));
        [|reflexivity]. simpl in *. apply Z.ltb_ge in E1.
      destruct (IncidentRow.expires_at r <? now2)%Z eqn:E2.
      - apply Z.ltb_lt in E2. apply Z.ltb_lt. lia.
      - apply Z.ltb_ge in E2. apply Z.ltb_ge. lia. }
    rewrite H. reflexivity.
Qed.

(** X3. Two sweeps, at the clock readings [now1] and then [now2], leave the
    store that one sweep at the later of the two readings leaves; so a
    second sweep at the same reading changes nothing and reports 0 rows. *)
Theorem expire_old_incidents_twice now1 now2 db :
  fst (expire_old_incidents now2 (fst (expire_old_incidents now1 db)))
  = fst (expire_old_incidents (Z.max now1 now2) db)
  /\ expire_old_incidents now1 (fst (expire_old_incidents now1 db))
     = (fst (expire_old_incidents now1 db), 0%Z).
Proof.
  assert (Hdb : forall n1 n2,
             fst (expire_old_incidents n2 (fst (expire_old_incidents n1 db)))
             = fst (expire_old_incidents (Z.max n1 n2) db)).
  { intros n1 n2. unfold expire_old_incidents, withIncidents.
    cbn [fst incidents users confirmations next_id]. f_equal.
    rewrite map_map. apply map_ext. intros r. apply expireRow_compose. }
  split; [apply Hdb|].
  rewrite (surjective_pairing
             (expire_old_incidents now1 (fst (expire_old_incidents now1 db)))).
  rewrite Hdb, Z.max_id. f_equal.
  pose proof (expire_leaves_none_stale now1 db) as Hnone.
  change (snd (expire_old_incidents now1 (fst (expire_old_incidents now1 db))))
    with (Z.of_nat
            (length (List.filter (stale now1)
                       (incidents (fst (expire_old_incidents now1 db)))))).
  assert (Hf : List.filter (stale now1)
                 (incidents (fst (expire_old_incidents now1 db))) = []).
  { apply existsb_false_filter. apply not_true_iff_false. intros Hex.
    apply existsb_exists in Hex. destruct Hex as (r & Hin & Hr).
    rewrite List.Forall_forall in Hnone. rewrite (Hnone r Hin) in Hr.
    discriminate. }
  rewrite Hf. reflexivity.
Qed.

Lemma nearby_from_row fault db coords radius inc :
  In inc (getNearbyIncidents fault db coords radius) ->
  exists row, In row (incidents db) /\ inc = mapDbToIncident row
              /\ activeStatus (IncidentRow.status row) = true.
Proof.
  unfold getNearbyIncidents. destruct fault; try (intros []).
  intros Hin. apply in_map_iff in Hin. destruct Hin as (row & <- & Hin).
  apply (Permutation_in _ (orderBy_perm newerFirst _)) in Hin.
  apply filter_In in Hin. destruct Hin as (Hin & Hp).
  exists row. split; [exact Hin|]. split; [reflexivity|].
  repeat (apply andb_true_iff in Hp; destruct Hp as (Hp & _)). exact Hp.
Qed.

(** X4. Expiry is enforced by the sweep alone: after a sweep at the clock
    reading [now], every incident that [getNearbyIncidents] or
    [getActiveIncidents] answers has its expiry at [now] or later, whereas
    on a store that was not swept both answer an overdue incident that is
    still [pending] or [verified] and lies in the box, respectively in the
    window. *)
Theorem lookups_after_sweep now db :
  (forall fault coords radius inc,
     In inc (getNearbyIncidents fault (fst (expire_old_incidents now db))
               coords radius) ->
     (now <= Incident.expiresAt inc)%Z)
  /\ (forall fault dateNow maxAge inc,
        In inc (getActiveIncidents fault dateNow
                  (fst (expire_old_incidents now db)) maxAge) ->
        (now <= Incident.expiresAt inc)%Z)
  /\ (forall row dateNow,
        In row (incidents db) ->
        activeStatus (IncidentRow.status row) = true ->
        (dateNow - 60 * 60 * 1000 <= IncidentRow.created_at row)%Z ->
        In (mapDbToIncident row)
          (getNearbyIncidents NoFault db
             (mkCoordinates (IncidentRow.latitude row)
                (IncidentRow.longitude row)) 0)
        /\ In (mapDbToIncident row)
             (getActiveIncidents NoFault dateNow db None)).
Proof.
  assert (Hkey : forall row,
             In row (incidents (fst (expire_old_incidents now db))) ->
             activeStatus (IncidentRow.status row) = true ->
             (now <= IncidentRow.expires_at row)%Z).
  { intros row Hin Ha.
    pose proof (expire_leaves_none_stale now db) as Hnone.
    rewrite List.Forall_forall in Hnone. specialize (Hnone row Hin).
    unfold stale in Hnone. rewrite Ha in Hnone. simpl in Hnone.
    apply Z.ltb_ge in Hnone. exact Hnone. }
  split; [|split].
  - intros fault coords radius inc Hin.
    apply nearby_from_row in Hin. destruct Hin as (row & Hin & -> & Ha).
    exact (Hkey row Hin Ha).
  - intros fault dateNow maxAge inc Hin.
    destruct fault; try (destruct Hin).
    apply getActiveIncidents_In in Hin.
    destruct Hin as (row & Hin & -> & Ha & _).
    apply activeStatus_true in Ha. exact (Hkey row Hin Ha).
  - intros row dateNow Hin Ha Hc. split.
    + unfold getNearbyIncidents. apply in_map.
      apply (Permutation_in _ (Permutation_sym (orderBy_perm newerFirst _))).
      apply filter_In.
      split; [exact Hin|]. rewrite Ha. cbn [latitude longitude andb].
      rewrite !andb_true_iff, !Qle_bool_iff.
      assert (H0 : (0 / 111 == 0)%Q) by reflexivity.
      repeat split; rewrite H0; lra.
    + apply getActiveIncidents_In.
      exists row. split; [exact Hin|]. split; [reflexivity|].
      split; [apply activeStatus_true; exact Ha|exact Hc].
Qed.

(** Incident 3 of the mixed store, pending and due at 2500, is answered at
    clock reading 3000 until the store is swept. *)
Lemma lookups_after_sweep_witness :
  In (mapDbToIncident (Scenarios.rowAt 3 pending 2000 2500))
    (getActiveIncidents NoFault 3000 Scenarios.mixedDb None)
  /\ Forall (fun inc => (3000 <= Incident.expiresAt inc)%Z)
       (getActiveIncidents NoFault 3000
          (fst (expire_old_incidents 3000 Scenarios.mixedDb)) None).
Proof.
  split.
  - apply (proj2 (proj2 (lookups_after_sweep 3000 Scenarios.mixedDb))
             (Scenarios.rowAt 3 pending 2000 2500) 3000%Z).
    + right; right; left; reflexivity.
    + reflexivity.
    + vm_compute. discriminate.
  - rewrite List.Forall_forall. intros inc Hin.
    exact (proj1 (proj2 (lookups_after_sweep 3000 Scenarios.mixedDb))
             NoFault 3000%Z None inc Hin).
Defined.

End ExpiryFacts.

(** ** Location messages outside a report flow *)

Section StrayLocationFacts.
Import Supabase Telegram Runs Repository Service.

(** No event of the service writes the map of the broadcast dialogue. *)
Lemma dispatch_adminStates w e : adminStates (dispatch w e) = adminStates w.
Proof.
  destruct e; cbn [dispatch].
  - unfold onLocation. destruct message as [loc|]; [|reflexivity].
    destruct (pendingRoutes w !! userId) as [req|].
    { unfold handleRouteLocation. destruct (routeStep req); reflexivity. }
    assert (H : adminStates (fst (handleLocation env w userId (Some loc)))
                = adminStates w).
    { unfold handleLocation.
      destruct (adminStates w !! userId) as [[]|]; [reflexivity|].
      destruct (pendingReports w !! userId) as [p|]; [|reflexivity].
      destruct (PendingReport.step p); try reflexivity.
      destruct (createIncident _ _ _) as [db1 saved].
      destruct (incrementUserReports _ _ _ db1 userId) as [db2 ok].
      destruct saved; [|reflexivity].
      destruct (channelId env); [|reflexivity].
      destruct (sendThrows env); reflexivity. }
    destruct (pendingFuel w !! userId) as [[[] ? ?]|]; try exact H.
    reflexivity.
  - unfold onConfirm. destruct (addConfirmation _ _ _ _ _). reflexivity.
  - unfold onReject. destruct (addConfirmation _ _ _ _ _). reflexivity.
  - reflexivity.
  - unfold handleDescription.
    destruct (pendingReports w !! userId) as [p|]; [|reflexivity].
    destruct (PendingReport.step p); reflexivity.
  - unfold handlePanic. destruct (getOrCreateUser _ _ _ _ _). reflexivity.
  - unfold onStart. destruct (getOrCreateUser _ _ _ _ _). reflexivity.
  - reflexivity.
  - reflexivity.
  - reflexivity.
  - reflexivity.
Qed.

Lemma run_adminStates events : forall w,
  adminStates (run events w) = adminStates w.
Proof.
  unfold run. induction events as [|e events IH]; intros w; simpl.
  - reflexivity.
  - rewrite IH. apply dispatch_adminStates.
Qed.



End StrayLocationFacts.

(** ** Creating an incident and finding it again *)

Section CreateFacts.
Import Supabase Repository.

Lemma createIncident_Some fault db incident saved :
  snd (createIncident fault db incident) = Some saved ->
  fault = NoFault
  /\ incidentConstraints db (incidentRow (next_id db) incident) = true
  /\ saved = mapDbToIncident (incidentRow (next_id db) incident)
  /\ fst (createIncident fault db incident)
     = {| users := users db;
          incidents := incidents db ++ [incidentRow (next_id db) incident];
          confirmations := confirmations db;
          next_id := N.succ (next_id db) |}.
Proof.
  unfold createIncident. destruct fault; try discriminate.
  destruct (incidentConstraints _ _); [|discriminate].
  cbn [fst snd]. intros H. injection H as <-. repeat split.
Qed.




(** X6. A stored incident is found again: when [createIncident] answers an
    incident whose status is [pending] or [verified], that very incident is
    in the answer of [getNearbyIncidents] around its own location for every
    radius that is not negative, and in the answer of [getActiveIncidents]
    for every window that reaches back to its creation time. *)
Theorem created_incident_is_found fault db incident saved :
  snd (createIncident fault db incident) = Some saved ->
  Incident.status incident = pending \/ Incident.status incident = verified ->
  (forall radius,
     (0 <= radius)%Q ->
     In saved
       (getNearbyIncidents NoFault (fst (createIncident fault db incident))
          (Incident.location incident) radius))
  /\ (forall dateNow maxAge,
        (dateNow - match maxAge with Some m => m | None => 60%Z end
                   * 60 * 1000 <= Incident.createdAt incident)%Z ->
        In saved
          (getActiveIncidents NoFault dateNow
             (fst (createIncident fault db incident)) maxAge)).
Proof.
  intros Hs Hactive.
  destruct (createIncident_Some _ _ _ _ Hs) as (_ & _ & -> & ->).
  assert (Hin : In (incidentRow (next_id db) incident)
                  (incidents db ++ [incidentRow (next_id db) incident]))
    by (apply in_or_app; right; left; reflexivity).
  split.
  - intros radius Hr. unfold getNearbyIncidents. cbn [incidents].
    apply in_map.
    apply (Permutation_in _ (Permutation_sym (orderBy_perm newerFirst _))).
    apply filter_In. split; [exact Hin|].
    cbn [incidentRow IncidentRow.status IncidentRow.latitude
           IncidentRow.longitude].
    assert (Ha : activeStatus (Incident.status incident) = true)
      by (apply activeStatus_true; exact Hactive).
    rewrite Ha. cbn [andb].
    assert (H0 : (0 <= radius / 111)%Q)
      by (apply Qle_shift_div_l; [reflexivity|lra]).
    set (delta := (radius / 111)%Q) in *.
    rewrite !andb_true_iff, !Qle_bool_iff. repeat split; lra.
  - intros dateNow maxAge Hc. apply getActiveIncidents_In.
    exists (incidentRow (next_id db) incident). cbn [incidents].
    split; [exact Hin|]. split; [reflexivity|]. split; assumption.
Qed.

(** Bob's flooding is found within 50 metres of where he stood. *)
Lemma created_incident_is_found_witness :
  In (mapDbToIncident (incidentRow 1 Scenarios.bobsFlooding))
    (getNearbyIncidents NoFault
       (fst (createIncident NoFault Sample.emptyDb Scenarios.bobsFlooding))
       Sample.bastos (5 # 100)).
Proof.
  refine (proj1 (created_incident_is_found NoFault Sample.emptyDb
                   Scenarios.bobsFlooding _ _ _) (5 # 100) _).
  - reflexivity.
  - left. reflexivity.
  - vm_compute. discriminate.
Defined.

End CreateFacts.

(** ** The repository keeps the constraints of the schema *)

Section SchemaFacts.
Import Supabase Repository.

Lemma NoDup_snoc {A} (l : list A) (x : A) :
  List.NoDup l -> ~ In x l -> List.NoDup (l ++ [x]).
Proof.
  intros Hl Hx. induction l as [|y l IH]; simpl.
  - constructor; [intros []|constructor].
  - inversion Hl as [|? ? Hy Hl']; subst. constructor.
    + intros Hin. apply in_app_or in Hin. destruct Hin as [Hin|[<-|[]]].
      * exact (Hy Hin).
      * apply Hx. left. reflexivity.
    + apply IH; [exact Hl'|]. intros Hin. apply Hx. right. exact Hin.
Qed.

Lemma existsb_app_l {A} (p : A -> bool) (l1 l2 : list A) :
  existsb p l1 = true -> existsb p (l1 ++ l2) = true.
Proof. intros H. rewrite existsb_app, H. reflexivity. Qed.

Lemma existsb_map_stable {A} (p : A -> bool) (f : A -> A) (l : list A) :
  (forall x, p (f x) = p x) -> existsb p (map f l) = existsb p l.
Proof.
  intros Hp. induction l as [|x l IH]; simpl; [reflexivity|].
  rewrite Hp, IH. reflexivity.
Qed.

Lemma userHasId_absent telegramId us :
  existsb (userHasId telegramId) us = false ->
  ~ In telegramId (map UserRow.telegram_id us).
Proof.
  intros He Hin. apply in_map_iff in Hin. destruct Hin as (u & Hu & Hin).
  assert (Hex : existsb (userHasId telegramId) us = true).
  { apply existsb_exists. exists u. split; [exact Hin|].
    unfold userHasId. rewrite Hu. apply String.eqb_refl. }
  congruence.
Qed.

Lemma sameVoter_absent incidentId telegramId cs :
  existsb (sameVoter incidentId telegramId) cs = false ->
  ~ In (incidentId, telegramId)
      (map (fun c => (ConfirmationRow.incident_id c,
                      ConfirmationRow.user_telegram_id c)) cs).
Proof.
  intros He Hin. apply in_map_iff in Hin. destruct Hin as (c & Hc & Hin).
  injection Hc as H1 H2.
  assert (Hex : existsb (sameVoter incidentId telegramId) cs = true).
  { apply existsb_exists. exists c. split; [exact Hin|].
    unfold sameVoter. rewrite H1, H2, N.eqb_refl, String.eqb_refl.
    reflexivity. }
  congruence.
Qed.

(** Rewriting rows of [incidents] without touching the id, the reporter and
    the severity keeps the constraints. *)
Lemma wellFormed_incidents_map db f :
  (forall r, IncidentRow.id (f r) = IncidentRow.id r
             /\ IncidentRow.reporter_id (f r) = IncidentRow.reporter_id r
             /\ IncidentRow.severity (f r) = IncidentRow.severity r) ->
  wellFormed db ->
  wellFormed {| users := users db; incidents := map f (incidents db);
                confirmations := confirmations db; next_id := next_id db |}.
Proof.
  intros Hf (H1 & H2 & H3 & H4 & H5 & H6 & H7).
  unfold wellFormed. cbn [users incidents confirmations next_id].
  assert (Hids : map IncidentRow.id (map f (incidents db))
                 = map IncidentRow.id (incidents db)).
  { rewrite map_map. apply map_ext. intros r. apply Hf. }
  assert (Hex : forall i, existsb (incidentHasId i) (map f (incidents db))
                          = existsb (incidentHasId i) (incidents db)).
  { intros i. apply existsb_map_stable. intros r. unfold incidentHasId.
    destruct (Hf r) as (-> & _). reflexivity. }
  rewrite Hids. repeat split; try assumption.
  - rewrite List.Forall_forall in *. intros r' Hin.
    apply in_map_iff in Hin. destruct Hin as (r & <- & Hin).
    destruct (Hf r) as (-> & _). exact (H2 r Hin).
  - rewrite List.Forall_forall in *. intros c Hin. rewrite Hex.
    exact (H5 c Hin).
  - rewrite List.Forall_forall in *. intros r' Hin.
    apply in_map_iff in Hin. destruct Hin as (r & <- & Hin).
    destruct (Hf r) as (_ & -> & ->). exact (H6 r Hin).
Qed.

(** Rewriting rows of [users] without touching the id, and leaving the
    trust score in 0..100, keeps the constraints. *)
Lemma wellFormed_users_map db f :
  (forall u, UserRow.telegram_id (f u) = UserRow.telegram_id u) ->
  (forall u, (0 <= UserRow.trust_score u <= 100)%Z ->
             (0 <= UserRow.trust_score (f u) <= 100)%Z) ->
  wellFormed db -> wellFormed (withUsers db (map f (users db))).
Proof.
  intros Hid Htrust (H1 & H2 & H3 & H4 & H5 & H6 & H7).
  unfold wellFormed, withUsers. cbn [users incidents confirmations next_id].
  assert (Hids : map UserRow.telegram_id (map f (users db))
                 = map UserRow.telegram_id (users db)).
  { rewrite map_map. apply map_ext. exact Hid. }
  assert (Hex : forall t, existsb (userHasId t) (map f (users db))
                          = existsb (userHasId t) (users db)).
  { intros t. apply existsb_map_stable. intros u. unfold userHasId.
    rewrite Hid. reflexivity. }
  rewrite Hids. repeat split; try assumption.
  - rewrite List.Forall_forall in *. intros c Hin. rewrite Hex.
    exact (H5 c Hin).
  - rewrite List.Forall_forall in *. intros r Hin. rewrite Hex.
    exact (H6 r Hin).
  - rewrite List.Forall_forall in *. intros u' Hin.
    apply in_map_iff in Hin. destruct Hin as (u & <- & Hin).
    apply Htrust. exact (H7 u Hin).
Qed.

Lemma createIncident_wellFormed fault db incident :
  wellFormed db -> wellFormed (fst (createIncident fault db incident)).
Proof.
  intros Hwf. unfold createIncident. destruct fault; try exact Hwf.
  destruct (incidentConstraints _ _) eqn:Hc; [|exact Hwf].
  destruct Hwf as (H1 & H2 & H3 & H4 & H5 & H6 & H7).
  unfold incidentConstraints in Hc.
  apply andb_true_iff in Hc. destruct Hc as (Hc & Hs2).
  apply andb_true_iff in Hc. destruct Hc as (Hu & Hs1).
  apply Z.leb_le in Hs1, Hs2.
  unfold wellFormed. cbn [fst users incidents confirmations next_id].
  repeat split; try assumption.
  - rewrite map_app. apply NoDup_snoc; [exact H1|].
    cbn [map incidentRow IncidentRow.id]. intros Hin.
    apply in_map_iff in Hin. destruct Hin as (r & Hr & Hin).
    rewrite List.Forall_forall in H2. specialize (H2 r Hin). lia.
  - apply Forall_app. split.
    + rewrite List.Forall_forall in *. intros r Hin. specialize (H2 r Hin).
      lia.
    + constructor; [cbn; lia|constructor].
  - rewrite List.Forall_forall in *. intros c Hin.
    destruct (H5 c Hin) as (Ha & Hb). split; [|exact Hb].
    apply existsb_app_l. exact Ha.
  - apply Forall_app. split; [exact H6|].
    constructor; [|constructor]. split; [exact Hu|].
    cbn [incidentRow IncidentRow.severity] in *. lia.
Qed.

(** The insert of a new user names two columns that the table [users] of
    the schema does not have, so it is refused whatever else holds. *)
Lemma createUser_refused fault db telegramId username :
  createUser fault db telegramId username = (db, None).
Proof. destruct fault; reflexivity. Qed.

(** [getOrCreateUser] writes nothing. *)
Lemma getOrCreateUser_db sel ins db telegramId username :
  fst (getOrCreateUser sel ins db telegramId username) = db.
Proof.
  unfold getOrCreateUser. destruct sel as [|code|]; [| |reflexivity].
  - destruct (single _); [reflexivity|].
    rewrite createUser_refused. reflexivity.
  - destruct (String.eqb code "PGRST116"); [|reflexivity].
    rewrite createUser_refused. reflexivity.
Qed.

Lemma getOrCreateUser_wellFormed sel ins db telegramId username :
  wellFormed db ->
  wellFormed (fst (getOrCreateUser sel ins db telegramId username)).
Proof. rewrite getOrCreateUser_db. intros H. exact H. Qed.

Lemma addConfirmation_wellFormed fault db incidentId telegramId vote :
  wellFormed db ->
  wellFormed (fst (addConfirmation fault db incidentId telegramId vote)).
Proof.
  intros Hwf. unfold addConfirmation.
  destruct fault as [|code|]; [|destruct (String.eqb _ _); exact Hwf
                              |exact Hwf].
  unfold confirmationError.
  destruct (existsb (sameVoter incidentId telegramId) (confirmations db))
    eqn:Hv; [exact Hwf|].
  destruct (existsb (incidentHasId incidentId) (incidents db)) eqn:Hi;
    [|exact Hwf].
  destruct (existsb (userHasId telegramId) (users db)) eqn:Hu; [|exact Hwf].
  destruct Hwf as (H1 & H2 & H3 & H4 & H5 & H6 & H7).
  unfold wellFormed. cbn [fst negb users incidents confirmations next_id].
  repeat split; try assumption.
  - rewrite map_app. apply NoDup_snoc; [exact H4|].
    apply sameVoter_absent. exact Hv.
  - apply Forall_app. split; [exact H5|].
    constructor; [|constructor]. split; assumption.
Qed.

Lemma runOp_wellFormed db op : wellFormed db -> wellFormed (runOp db op).
Proof.
  intros Hwf.
  destruct op as [fault incident|sel upd incidentId delta
                 |sel ins tid name|sel upd tid delta|rpc sel upd tid
                 |fault incidentId tid vote|now]; cbn [runOp].
  - apply createIncident_wellFormed. exact Hwf.
  - unfold updateIncidentConfirmations.
    destruct sel; try exact Hwf;
      (destruct upd; try exact Hwf;
       destruct (_ && _); try exact Hwf; cbn [fst];
       apply wellFormed_incidents_map; [|exact Hwf];
       intros r; destruct (incidentHasId incidentId r); repeat split).
  - apply getOrCreateUser_wellFormed. exact Hwf.
  - unfold updateUserTrustScore. destruct sel; try exact Hwf.
    destruct (single _); [|exact Hwf].
    destruct upd; try exact Hwf. cbn [fst].
    apply wellFormed_users_map; [| |exact Hwf].
    + intros u. destruct (userHasId tid u); reflexivity.
    + intros u Hu. destruct (userHasId tid u); [cbn; lia|exact Hu].
  - unfold incrementUserReports.
    destruct rpc as [|code|]; try exact Hwf; cbn [fst].
    + apply wellFormed_users_map; [| |exact Hwf].
      * intros u. destruct (userHasId tid u); reflexivity.
      * intros u Hu. destruct (userHasId tid u); exact Hu.
    + destruct sel; try exact Hwf.
      destruct (single _); [|exact Hwf].
      destruct upd; try exact Hwf. cbn [fst].
      apply wellFormed_users_map; [| |exact Hwf].
      * intros u. destruct (userHasId tid u); reflexivity.
      * intros u Hu. destruct (userHasId tid u); exact Hu.
  - apply addConfirmation_wellFormed. exact Hwf.
  - unfold expire_old_incidents, withIncidents. cbn [fst].
    apply wellFormed_incidents_map; [|exact Hwf].
    intros r. destruct (stale now r); repeat split.
Qed.

(** X7. Every sequence of calls of the repository ([createIncident],
    [updateIncidentConfirmations], [getOrCreateUser],
    [updateUserTrustScore], [incrementUserReports], [addConfirmation] and
    the expiry sweep), with whatever arguments and faults, keeps the
    constraints of the schema: ids and telegram ids stay unique, a reporter
    has at most one vote per incident, every vote and every incident refers
    to rows that exist, severities stay in 1..5 and trust scores in
    0..100. *)
Theorem repository_keeps_schema ops : forall db,
  wellFormed db -> wellFormed (runOps ops db).
Proof.
  unfold runOps. induction ops as [|op ops IH]; intros db Hwf; simpl.
  - exact Hwf.
  - apply IH. apply runOp_wellFormed. exact Hwf.
Qed.

(** From a store of three users and no incident: the user 1003 is looked
    up, files an incident, votes on it twice, has the trust score moved far
    out of range, and the sweep runs. *)
Lemma repository_keeps_schema_witness :
  wellFormed
    (runOps
       [ GetOrCreateUser NoFault NoFault "1003" None;
         CreateIncident NoFault
           (Telegram.incidentData (Sample.calm 0) "1003"
              (Sample.describes_entry "1003" "Route inondee") Sample.bastos);
         AddConfirmation NoFault 1 "1003" confirm;
         AddConfirmation NoFault 1 "1003" deny;
         UpdateUserTrustScore NoFault NoFault "1003" 1000;
         ExpireOldIncidents 99999999 ]
       Scenarios.boardDb).
Proof.
  apply repository_keeps_schema.
  unfold wellFormed. cbn. repeat split; repeat constructor;
    cbn; try lia; intuition discriminate.
Defined.

End SchemaFacts.

(** ** Users, badges and the leaderboard *)

Section UserFacts.
Import Supabase Repository.

Lemma filter_userHasId_unique tid us :
  List.NoDup (map UserRow.telegram_id us) ->
  List.filter (userHasId tid) us = []
  \/ exists row, List.filter (userHasId tid) us = [row].
Proof.
  induction us as [|u us IH]; intros Hnd; [left; reflexivity|].
  simpl in Hnd. inversion Hnd as [|? ? Hu Hnd']; subst. simpl.
  destruct (userHasId tid u) eqn:E.
  - right. exists u. f_equal. apply existsb_false_filter.
    apply not_true_iff_false. intros Hex. apply existsb_exists in Hex.
    destruct Hex as (v & Hin & Hv). apply Hu. apply in_map_iff.
    exists v. split; [|exact Hin].
    unfold userHasId in *. apply String.eqb_eq in E, Hv. congruence.
  - apply IH. exact Hnd'.
Qed.

(** X8. [getOrCreateUser] looks a user up and never registers one.
    Whatever the faults, the store is left as it was; an answer is a row of
    the table that has the requested id, field by field.  With unique
    telegram ids and a read that goes through, a stored user is answered.
    A user who has no row is answered with [null]: the insert names the
    columns [emergency_contacts] and [subscription_tier], which the table
    [users] of the schema does not have, and is refused. *)
Theorem getOrCreateUser_never_creates sel ins db tid name :
  fst (getOrCreateUser sel ins db tid name) = db
  /\ (forall user,
        snd (getOrCreateUser sel ins db tid name) = Some user ->
        sel = NoFault
        /\ exists row,
             In row (users db) /\ UserRow.telegram_id row = tid
             /\ telegramId user = tid
             /\ username user = UserRow.username row
             /\ trustScore user = UserRow.trust_score row
             /\ reportsCount user = UserRow.reports_count row
             /\ accurateReports user = UserRow.accurate_reports row)
  /\ (List.NoDup (map UserRow.telegram_id (users db)) ->
      forall row,
        In row (users db) -> UserRow.telegram_id row = tid ->
        snd (getOrCreateUser NoFault ins db tid name)
        = Some {| telegramId := tid;
                  username := UserRow.username row;
                  trustScore := UserRow.trust_score row;
                  reportsCount := UserRow.reports_count row;
                  accurateReports := UserRow.accurate_reports row |})
  /\ ((forall row, In row (users db) -> UserRow.telegram_id row <> tid) ->
      snd (getOrCreateUser sel ins db tid name) = None)
  /\ existsb (String.eqb "emergency_contacts") usersColumns = false
  /\ existsb (String.eqb "subscription_tier") usersColumns = false.
Proof.
  split; [apply getOrCreateUser_db|]. split; [|split; [|split]].
  - intros user. unfold getOrCreateUser. destruct sel as [|code|];
      [| |discriminate].
    + destruct (single _) as [row|] eqn:Hs;
        [|rewrite createUser_refused; discriminate].
      cbn [snd]. intros H. injection H as <-. split; [reflexivity|].
      apply single_Some in Hs.
      assert (Hin : In row (List.filter (userHasId tid) (users db)))
        by (rewrite Hs; left; reflexivity).
      apply filter_In in Hin. destruct Hin as (Hin & Hid).
      unfold userHasId in Hid. apply String.eqb_eq in Hid.
      exists row. repeat split; assumption.
    + destruct (String.eqb code "PGRST116");
        [rewrite createUser_refused|]; discriminate.
  - intros Hnd row Hin Hid. unfold getOrCreateUser.
    destruct (filter_userHasId_unique tid (users db) Hnd) as [Hf|(row' & Hf)].
    + exfalso. apply existsb_false_filter in Hf.
      assert (Hex : existsb (userHasId tid) (users db) = true).
      { apply existsb_exists. exists row. split; [exact Hin|].
        unfold userHasId. rewrite Hid. apply String.eqb_refl. }
      congruence.
    + rewrite Hf. cbn [single snd].
      assert (Hin' : In row' (List.filter (userHasId tid) (users db)))
        by (rewrite Hf; left; reflexivity).
      apply filter_In in Hin'. destruct Hin' as (Hin' & Hid').
      unfold userHasId in Hid'. apply String.eqb_eq in Hid'.
      assert (Heq : row' = row).
      { apply (NoDup_map_unique UserRow.telegram_id (users db));
          try assumption. congruence. }
      subst row'. unfold mapDbToUser. rewrite Hid. reflexivity.
  - intros Hnone. unfold getOrCreateUser.
    assert (Hf : List.filter (userHasId tid) (users db) = []).
    { apply existsb_false_filter. apply not_true_iff_false. intros Hex.
      apply existsb_exists in Hex. destruct Hex as (row & Hin & Hid).
      unfold userHasId in Hid. apply String.eqb_eq in Hid.
      exact (Hnone row Hin Hid). }
    destruct sel as [|code|]; [| |reflexivity].
    + rewrite Hf. cbn [single]. rewrite createUser_refused. reflexivity.
    + destruct (String.eqb code "PGRST116");
        [rewrite createUser_refused|]; reflexivity.
  - split; reflexivity.
Qed.

(** In the store of Alice and Bob, Alice is found and the newcomer 1003 is
    not registered. *)
Lemma getOrCreateUser_never_creates_witness :
  snd (getOrCreateUser NoFault NoFault Sample.emptyDb "1001" None)
  = Some {| telegramId := "1001"; username := Some "alice"%string;
            trustScore := 50; reportsCount := 0; accurateReports := 0 |}
  /\ getOrCreateUser NoFault NoFault Sample.emptyDb "1003" None
     = (Sample.emptyDb, None).
Proof.
  split.
  - refine (proj1 (proj2 (proj2 (getOrCreateUser_never_creates NoFault NoFault
                                   Sample.emptyDb "1001" None)))
              _ Sample.alice _ _).
    + cbn. repeat constructor; cbn; intuition discriminate.
    + left. reflexivity.
    + reflexivity.
  - destruct (getOrCreateUser_never_creates NoFault NoFault Sample.emptyDb
                "1003" None) as (H1 & _ & _ & H4 & _).
    assert (Hnew : forall row, In row (users Sample.emptyDb) ->
                     UserRow.telegram_id row <> "1003"%string)
      by (intros row [<-|[<-|[]]]; discriminate).
    specialize (H4 Hnew). revert H1 H4.
    generalize (getOrCreateUser NoFault NoFault Sample.emptyDb "1003" None).
    intros [d u]. cbn [fst snd]. intros -> ->. reflexivity.
Defined.

(** X9. A badge of a tier or better is held exactly when the thresholds of
    that tier are both met: 10 reports and a score of 50 for Active, 50 and
    70 for Trusted, 100 and 80 for Legend.  So the badge never drops when
    the report count or the trust score grows. *)
Theorem getUserBadge_tiers :
  (forall t r,
     ((1 <= badgeRank (getUserBadge t r))%Z <-> (10 <= r /\ 50 <= t)%Z)
     /\ ((2 <= badgeRank (getUserBadge t r))%Z <-> (50 <= r /\ 70 <= t)%Z)
     /\ ((3 <= badgeRank (getUserBadge t r))%Z <-> (100 <= r /\ 80 <= t)%Z))
  /\ (forall t1 r1 t2 r2,
        (t1 <= t2)%Z -> (r1 <= r2)%Z ->
        (badgeRank (getUserBadge t1 r1) <= badgeRank (getUserBadge t2 r2))%Z).
Proof.
  assert (Hcases : forall t r,
             (getUserBadge t r = Legend /\ (100 <= r /\ 80 <= t)%Z)
             \/ (getUserBadge t r = Trusted
                 /\ (50 <= r /\ 70 <= t)%Z /\ ~ (100 <= r /\ 80 <= t)%Z)
             \/ (getUserBadge t r = Active
                 /\ (10 <= r /\ 50 <= t)%Z /\ ~ (50 <= r /\ 70 <= t)%Z)
             \/ (getUserBadge t r = New /\ ~ (10 <= r /\ 50 <= t)%Z)).
  { intros t r. unfold getUserBadge.
    destruct (100 <=? r)%Z eqn:E1, (80 <=? t)%Z eqn:E2,
             (50 <=? r)%Z eqn:E3, (70 <=? t)%Z eqn:E4,
             (10 <=? r)%Z eqn:E5, (50 <=? t)%Z eqn:E6; cbn [andb];
      repeat match goal with
             | H : (_ <=? _)%Z = true |- _ => apply Z.leb_le in H
             | H : (_ <=? _)%Z = false |- _ => apply Z.leb_gt in H
             end;
      first [ left; split; [reflexivity|lia]
            | right; left; split; [reflexivity|lia]
            | right; right; left; split; [reflexivity|lia]
            | right; right; right; split; [reflexivity|lia]
            | exfalso; lia ]. }
  split.
  - intros t r.
    destruct (Hcases t r) as [(-> & H)|[(-> & H)|[(-> & H)|(-> & H)]]];
      cbn [badgeRank]; lia.
  - intros t1 r1 t2 r2 Ht Hr.
    destruct (Hcases t1 r1) as [(-> & H)|[(-> & H)|[(-> & H)|(-> & H)]]];
      destruct (Hcases t2 r2) as [(-> & G)|[(-> & G)|[(-> & G)|(-> & G)]]];
      cbn [badgeRank]; lia.
Qed.

(** Bob, with 7 reports at 95, has no better badge than Carol, with 120
    reports at 95. *)
Lemma getUserBadge_tiers_witness :
  (badgeRank (getUserBadge 95 7) <= badgeRank (getUserBadge 95 120))%Z.
Proof. apply (proj2 getUserBadge_tiers); lia. Defined.

Lemma ranksBefore_total a b :
  ranksBefore a b = false -> ranksBefore b a = true.
Proof.
  unfold ranksBefore. intros H.
  apply orb_false_iff in H. destruct H as (H1 & H2).
  apply Z.ltb_ge in H1. apply orb_true_iff.
  destruct (UserRow.trust_score a <? UserRow.trust_score b)%Z eqn:E;
    [left; reflexivity|right].
  apply Z.ltb_ge in E.
  assert (Heq : UserRow.trust_score a = UserRow.trust_score b) by lia.
  rewrite Heq, Z.eqb_refl in H2 |- *. cbn [andb] in *.
  apply Z.leb_gt in H2. apply Z.leb_le. lia.
Qed.

Lemma ranksBefore_spec a b :
  ranksBefore a b = true <->
  (UserRow.trust_score b < UserRow.trust_score a)%Z
  \/ (UserRow.trust_score a = UserRow.trust_score b
      /\ (UserRow.reports_count b <= UserRow.reports_count a)%Z).
Proof.
  unfold ranksBefore.
  rewrite orb_true_iff, andb_true_iff, Z.ltb_lt, Z.eqb_eq, Z.leb_le.
  reflexivity.
Qed.

Lemma ranksBefore_trans a b c :
  ranksBefore a b = true -> ranksBefore b c = true -> ranksBefore a c = true.
Proof. rewrite !ranksBefore_spec. lia. Qed.

Lemma StronglySorted_app_inv {A} (R : A -> A -> Prop) l1 l2 :
  StronglySorted R (l1 ++ l2) ->
  StronglySorted R l1 /\ forall a b, In a l1 -> In b l2 -> R a b.
Proof.
  induction l1 as [|x l1 IH]; simpl; intros Hs.
  - split; [constructor|intros a b []].
  - inversion Hs as [|? ? Hs' Hx]; subst.
    destruct (IH Hs') as (H1 & H2). split.
    + constructor; [exact H1|]. rewrite List.Forall_forall in *.
      intros y Hy. apply Hx. apply in_or_app. left. exact Hy.
    + intros a b [<-|Ha] Hb; [|exact (H2 a b Ha Hb)].
      rewrite List.Forall_forall in Hx. apply Hx. apply in_or_app.
      right. exact Hb.
Qed.

(** X10. The leaderboard lists the first [limit] users (10 when left out)
    of the table ordered by trust score and then by report count, both
    descending: it has [min limit n] entries for [n] users, each with the
    badge of its score and count; the listed users are in rank order and
    every user left out ranks no better than any listed one.  An error of
    the store or an exception gives the empty list. *)
Theorem getLeaderboard_spec db limit :
  let n := match limit with Some n => n | None => 10%nat end in
  let outranks a b :=
    (UserRow.trust_score b < UserRow.trust_score a)%Z
    \/ (UserRow.trust_score a = UserRow.trust_score b
        /\ (UserRow.reports_count b <= UserRow.reports_count a)%Z) in
  (exists top rest,
     getLeaderboard NoFault db limit = map leaderboardEntry top
     /\ Permutation (users db) (top ++ rest)
     /\ length top = Nat.min n (length (users db))
     /\ StronglySorted outranks top
     /\ (forall a b, In a top -> In b rest -> outranks a b))
  /\ Forall (fun e =>
       entryBadge e = getUserBadge (entryTrustScore e) (entryReportsCount e))
       (getLeaderboard NoFault db limit)
  /\ (forall code, getLeaderboard (ReturnsError code) db limit = [])
  /\ getLeaderboard Throws db limit = [].
Proof.
  intros n outranks. unfold getLeaderboard. fold n.
  split; [|split; [|split; reflexivity]].
  - exists (firstn n (orderBy ranksBefore (users db))),
           (skipn n (orderBy ranksBefore (users db))).
    split; [reflexivity|]. rewrite firstn_skipn.
    split; [symmetry; apply orderBy_perm|].
    split.
    { rewrite List.length_firstn,
        (Permutation_length (orderBy_perm ranksBefore (users db))).
      reflexivity. }
    assert (Hs : StronglySorted outranks
                   (firstn n (orderBy ranksBefore (users db))
                    ++ skipn n (orderBy ranksBefore (users db)))).
    { rewrite firstn_skipn.
      eapply StronglySorted_weaken
        with (R1 := fun a b => ranksBefore a b = true).
      - intros a b H. apply ranksBefore_spec. exact H.
      - apply orderBy_sorted;
          [apply ranksBefore_total|apply ranksBefore_trans]. }
    apply StronglySorted_app_inv in Hs. exact Hs.
  - rewrite List.Forall_forall. intros e Hin.
    apply in_map_iff in Hin. destruct Hin as (u & <- & _). reflexivity.
Qed.

(** Of Alice (50, 0 reports), Bob (95, 7) and Carol (95, 120) the board of
    two lists Carol and Bob. *)
Lemma getLeaderboard_spec_witness :
  getLeaderboard NoFault Scenarios.boardDb (Some 2%nat)
  = [leaderboardEntry Scenarios.carol; leaderboardEntry Sample.bob]
  /\ Forall (fun e =>
       entryBadge e = getUserBadge (entryTrustScore e) (entryReportsCount e))
       (getLeaderboard NoFault Scenarios.boardDb (Some 2%nat)).
Proof.
  split; [reflexivity|].
  exact (proj1 (proj2 (getLeaderboard_spec Scenarios.boardDb (Some 2%nat)))).
Defined.

(** X11. For a trust score in 0..100 the bar of [/mystats] has exactly ten
    cells, of which [k] are filled, where [10 k] is within 5 of the score;
    for a score of 105 or more, or below -5, [String.repeat] is called with
    a negative count and the handler throws. *)
Theorem trustBar_ten_cells t :
  ((0 <= t <= 100)%Z ->
   exists k,
     (0 <= k <= 10)%Z /\ (10 * k - 5 <= t < 10 * k + 5)%Z
     /\ trustBar t
        = Some (repeat true (Z.to_nat k) ++ repeat false (Z.to_nat (10 - k)))
     /\ forall cells, trustBar t = Some cells -> length cells = 10%nat)
  /\ ((105 <= t)%Z -> trustBar t = None)
  /\ ((t < -5)%Z -> trustBar t = None).
Proof.
  unfold trustBar, roundTenth.
  pose proof (Z.div_mod (t + 5) 10 ltac:(lia)) as Hdm.
  pose proof (Z.mod_pos_bound (t + 5) 10 ltac:(lia)) as Hm.
  set (k := ((t + 5) / 10)%Z) in *.
  split; [|split].
  - intros Ht. exists k.
    assert (Hk : (0 <= k <= 10)%Z) by lia.
    split; [exact Hk|]. split; [lia|].
    assert (E1 : (k <? 0)%Z = false) by (apply Z.ltb_ge; lia).
    assert (E2 : (10 - k <? 0)%Z = false) by (apply Z.ltb_ge; lia).
    rewrite E1, E2. cbn [orb]. split; [reflexivity|].
    intros cells H. injection H as <-.
    rewrite List.length_app, !repeat_length. lia.
  - intros Ht.
    assert (E2 : (10 - k <? 0)%Z = true) by (apply Z.ltb_lt; lia).
    rewrite E2, orb_true_r. reflexivity.
  - intros Ht.
    assert (E1 : (k <? 0)%Z = true) by (apply Z.ltb_lt; lia).
    rewrite E1. reflexivity.
Qed.

(** At the starting score of 50 the bar is half full. *)
Lemma trustBar_ten_cells_witness :
  exists k,
    (0 <= k <= 10)%Z /\ (10 * k - 5 <= 50 < 10 * k + 5)%Z
    /\ trustBar 50
       = Some (repeat true (Z.to_nat k) ++ repeat false (Z.to_nat (10 - k)))
    /\ forall cells, trustBar 50 = Some cells -> length cells = 10%nat.
Proof. apply (proj1 (trustBar_ten_cells 50)). lia. Defined.

End UserFacts.

(** ** Location messages: what a finalize leaves behind *)

Section LocationFacts.
Import Supabase Telegram Runs Repository Service.

Lemma withDb_db w : withDb w (db w) = w.
Proof. destruct w. reflexivity. Qed.

(** Without an entry for the sender, [handleLocation] writes nothing. *)
Lemma handleLocation_no_entry env w userId message :
  pendingReports w !! userId = None ->
  fst (handleLocation env w userId message) = w.
Proof.
  intros Hp. unfold handleLocation. rewrite Hp.
  destruct (adminStates w !! userId) as [[]|]; [reflexivity|].
  destruct message; reflexivity.
Qed.

(** With neither a route nor a fuel request of the sender, a location
    message goes to [handleLocation]. *)
Lemma onLocation_plain env w userId location :
  pendingRoutes w !! userId = None ->
  pendingFuel w !! userId = None ->
  onLocation env w userId (Some location)
  = handleLocation env w userId (Some location).
Proof. intros Hr Hf. unfold onLocation. rewrite Hr, Hf. reflexivity. Qed.

(** The flow maps after a finalize: the entry of the sender is removed,
    unless the post to the channel threw; the other maps are not written. *)
Lemma handleLocation_finalize_maps env w userId p location :
  reachesFinalize w userId p ->
  adminStates (fst (handleLocation env w userId (Some location)))
  = adminStates w
  /\ pendingRoutes (fst (handleLocation env w userId (Some location)))
     = pendingRoutes w
  /\ pendingFuel (fst (handleLocation env w userId (Some location)))
     = pendingFuel w
  /\ (pendingReports (fst (handleLocation env w userId (Some location)))
      = delete userId (pendingReports w)
      \/ (pendingReports (fst (handleLocation env w userId (Some location)))
          = pendingReports w
          /\ sendThrows env = true /\ channelId env <> None
          /\ snd (createIncident (insertFault env) (db w)
                    (incidentData env userId p location)) <> None)).
Proof.
  intros (Hadmin & Hpending & Hstep). unfold handleLocation.
  rewrite Hadmin, Hpending, Hstep.
  destruct (createIncident _ _ _) as [db1 saved].
  destruct (incrementUserReports _ _ _ db1 userId) as [db2 ok].
  destruct saved as [inc|]; [|repeat split; left; reflexivity].
  destruct (channelId env); [|repeat split; left; reflexivity].
  destruct (sendThrows env); repeat split;
    [right; repeat split; discriminate|left; reflexivity].
Qed.




(** X13. A finalized report is submitted once: unless the post to the
    channel threw, the entry of the reporter is gone after the finalize, and
    a further location message of the same reporter (outside a route or
    fuel flow) writes nothing and is answered with the nearby lookup. *)
Theorem second_location_is_lookup env env' w userId p location location' :
  reachesFinalize w userId p ->
  channelId env = None \/ sendThrows env = false ->
  pendingRoutes w !! userId = None ->
  pendingFuel w !! userId = None ->
  pendingReports (fst (onLocation env w userId (Some location))) !! userId
  = None
  /\ fst (onLocation env'
            (fst (onLocation env w userId (Some location))) userId
            (Some location'))
     = fst (onLocation env w userId (Some location))
  /\ snd (onLocation env'
            (fst (onLocation env w userId (Some location))) userId
            (Some location'))
     = showNearbyIncidents env'
         (fst (onLocation env w userId (Some location))) location'.
Proof.
  intros Hreach Hsend Hr Hf.
  rewrite (onLocation_plain env w userId location Hr Hf).
  destruct (handleLocation_finalize_maps env w userId p location Hreach)
    as (Ha & Hr' & Hf' & Hp).
  set (w1 := fst (handleLocation env w userId (Some location))) in *.
  assert (Hgone : pendingReports w1 !! userId = None).
  { destruct Hp as [->|(_ & Hthrow & Hch & _)];
      [apply lookup_delete_eq|].
    destruct Hsend as [Hnone|Hno]; congruence. }
  assert (Hr1 : pendingRoutes w1 !! userId = None) by (rewrite Hr'; exact Hr).
  assert (Hf1 : pendingFuel w1 !! userId = None) by (rewrite Hf'; exact Hf).
  rewrite (onLocation_plain env' w1 userId location' Hr1 Hf1).
  split; [exact Hgone|]. split.
  - apply handleLocation_no_entry. exact Hgone.
  - unfold handleLocation. rewrite Hgone, Ha.
    destruct Hreach as (-> & _). reflexivity.
Qed.

(** Alice shares her location a second time. *)
Lemma second_location_is_lookup_witness :
  fst (onLocation (Sample.calm 60000) Sample.afterAlice "1001"
         (Some Sample.bastos))
  = Sample.afterAlice.
Proof.
  refine (proj1 (proj2
            (second_location_is_lookup (Sample.calm 0) (Sample.calm 60000)
               Sample.bothWaiting "1001"
               (Sample.describes_entry "1001" "Route inondee")
               Sample.bastos Sample.bastos _ _ _ _))).
  - repeat split; vm_compute; reflexivity.
  - left. reflexivity.
  - reflexivity.
  - reflexivity.
Defined.



End LocationFacts.

(** ** Whole flows *)

Section FlowFacts.
Import Supabase Telegram Runs Repository Service.

Lemma getOrCreateUser_tables sel ins db tid name :
  incidents (fst (getOrCreateUser sel ins db tid name)) = incidents db
  /\ confirmations (fst (getOrCreateUser sel ins db tid name))
     = confirmations db
  /\ next_id (fst (getOrCreateUser sel ins db tid name)) = next_id db.
Proof. rewrite getOrCreateUser_db. repeat split. Qed.











(** X17. A route request comes before a report: after [/route] the first
    location message of the user is taken as the origin and the second as
    the destination, for which directions from the first to the second are
    asked and the request is closed; neither message writes the store or
    the entries of the report flow, even when a report of the user waits
    for its location. *)
Theorem route_flow_shadows_report env1 env2 w userId loc1 loc2 :
  let w0 := fst (onRouteCommand w userId) in
  let w1 := fst (onLocation env1 w0 userId (Some loc1)) in
  let w2 := fst (onLocation env2 w1 userId (Some loc2)) in
  snd (onLocation env1 w0 userId (Some loc1)) = [AskDestination]
  /\ snd (onLocation env2 w1 userId (Some loc2))
     = [Directions (Some loc1) (Some loc2)]
  /\ db w2 = db w
  /\ pendingReports w2 = pendingReports w
  /\ pendingRoutes w2 !! userId = None.
Proof.
  intros w0 w1 w2.
  assert (H0 : pendingRoutes w0 !! userId
               = Some {| origin := None; destination := None;
                         routeStep := route_origin |}).
  { unfold w0, onRouteCommand. cbn [fst pendingRoutes withPendingRoutes].
    apply lookup_insert_eq. }
  assert (E1 : onLocation env1 w0 userId (Some loc1)
               = (withPendingRoutes w0
                    (<[userId := {| origin := Some loc1; destination := None;
                                    routeStep := route_destination |}]>
                       (pendingRoutes w0)), [AskDestination])).
  { unfold onLocation. rewrite H0. reflexivity. }
  assert (H1 : pendingRoutes w1 !! userId
               = Some {| origin := Some loc1; destination := None;
                         routeStep := route_destination |}).
  { unfold w1. rewrite E1. cbn [fst pendingRoutes withPendingRoutes].
    apply lookup_insert_eq. }
  assert (E2 : onLocation env2 w1 userId (Some loc2)
               = (withPendingRoutes w1 (delete userId (pendingRoutes w1)),
                  [Directions (Some loc1) (Some loc2)])).
  { unfold onLocation. rewrite H1. reflexivity. }
  split; [rewrite E1; reflexivity|]. split; [rewrite E2; reflexivity|].
  unfold w2. rewrite E2. cbn [fst db pendingReports pendingRoutes
                               withPendingRoutes].
  unfold w1. rewrite E1. cbn [fst db pendingReports pendingRoutes
                               withPendingRoutes].
  repeat split. apply lookup_delete_eq.
Qed.

(** X18. A fuel request takes one location: after [/fuel], for a user
    without a route request, the next location message is answered with the
    fuel lookup and closes the request, without writing the store or the
    report entries; the location message after that is handled by
    [handleLocation]. *)
Theorem fuel_flow_takes_one_location env1 env2 w userId loc1 loc2 :
  pendingRoutes w !! userId = None ->
  let w0 := fst (onFuelCommand w userId) in
  let w1 := fst (onLocation env1 w0 userId (Some loc1)) in
  snd (onLocation env1 w0 userId (Some loc1)) = [FuelLookup loc1]
  /\ db w1 = db w
  /\ pendingReports w1 = pendingReports w
  /\ pendingFuel w1 !! userId = None
  /\ onLocation env2 w1 userId (Some loc2)
     = handleLocation env2 w1 userId (Some loc2).
Proof.
  intros Hr w0 w1.
  assert (E1 : onLocation env1 w0 userId (Some loc1)
               = (withPendingFuel w0 (delete userId (pendingFuel w0)),
                  [FuelLookup loc1])).
  { unfold onLocation, w0, onFuelCommand.
    cbn [fst pendingRoutes pendingFuel withPendingFuel].
    rewrite Hr, lookup_insert_eq. reflexivity. }
  assert (Hf1 : pendingFuel w1 !! userId = None).
  { unfold w1. rewrite E1. cbn [fst pendingFuel withPendingFuel].
    apply lookup_delete_eq. }
  assert (Hr1 : pendingRoutes w1 !! userId = None).
  { unfold w1. rewrite E1. exact Hr. }
  split; [rewrite E1; reflexivity|].
  split; [unfold w1; rewrite E1; reflexivity|].
  split; [unfold w1; rewrite E1; reflexivity|].
  split; [exact Hf1|].
  apply onLocation_plain; assumption.
Qed.

(** Bob asks for fuel while his flooding report waits for its location. *)
Lemma fuel_flow_takes_one_location_witness :
  snd (onLocation (Sample.calm 1)
         (fst (onFuelCommand Sample.bothWaiting "1002")) "1002"
         (Some Sample.bastos))
  = [FuelLookup Sample.bastos].
Proof.
  refine (proj1 (fuel_flow_takes_one_location (Sample.calm 1) (Sample.calm 2)
                   Sample.bothWaiting "1002" Sample.bastos Sample.bastos _)).
  reflexivity.
Defined.

End FlowFacts.

(** ** Votes and the HTTP route *)

Section VoteAndRouteFacts.
Import Supabase Telegram Runs Repository Service.

Lemma onVote_unfold vote env w incidentId userId :
  onVote vote env w incidentId userId
  = (withDb w (fst (addConfirmation (voteFault env) (db w) incidentId userId
                      vote)),
     [VoteReply vote
        (snd (addConfirmation (voteFault env) (db w) incidentId userId
                vote))]).
Proof.
  destruct vote; unfold onVote, onConfirm, onReject;
    destruct (addConfirmation _ _ _ _ _); reflexivity.
Qed.

(** X19. The first vote of a reporter on an incident stands: once a confirm
    or a reject action was accepted, every later confirm or reject action
    of the same reporter on the same incident is answered as already
    recorded and writes nothing, and the one stored vote of the pair is the
    first. *)
Theorem first_vote_stands vote vote' env env' w incidentId userId :
  snd (onVote vote env w incidentId userId) = [VoteReply vote true] ->
  let w1 := fst (onVote vote env w incidentId userId) in
  onVote vote' env' w1 incidentId userId = (w1, [VoteReply vote' false])
  /\ List.filter (sameVoter incidentId userId) (confirmations (db w1))
     = [{| ConfirmationRow.incident_id := incidentId;
           ConfirmationRow.user_telegram_id := userId;
           ConfirmationRow.vote := vote |}].
Proof.
  intros Hok w1. rewrite onVote_unfold in Hok. cbn [fst snd] in Hok.
  injection Hok as Hok.
  assert (Hw1 : w1 = withDb w (fst (addConfirmation (voteFault env) (db w)
                                     incidentId userId vote)))
    by (unfold w1; rewrite onVote_unfold; reflexivity).
  clearbody w1. subst w1.
  set (w1 := withDb w (fst (addConfirmation (voteFault env) (db w)
                              incidentId userId vote))).
  destruct (addConfirmation_cases (voteFault env) (db w) incidentId userId
              vote) as [H|(Hnone & H)]; rewrite H in Hok; [discriminate|].
  assert (Hrows : List.filter (sameVoter incidentId userId)
                    (confirmations (db w1))
                  = [{| ConfirmationRow.incident_id := incidentId;
                        ConfirmationRow.user_telegram_id := userId;
                        ConfirmationRow.vote := vote |}]).
  { unfold w1. rewrite H. cbn [fst db withDb confirmations].
    rewrite List.filter_app.
    apply existsb_false_filter in Hnone. rewrite Hnone. simpl.
    unfold sameVoter. cbn [ConfirmationRow.incident_id
                             ConfirmationRow.user_telegram_id].
    rewrite N.eqb_refl, String.eqb_refl. reflexivity. }
  split; [|exact Hrows].
  rewrite onVote_unfold.
  destruct (addConfirmation_cases (voteFault env') (db w1) incidentId userId
              vote') as [->|(Hnone' & _)].
  - cbn [fst snd]. rewrite withDb_db. reflexivity.
  - apply existsb_false_filter in Hnone'. rewrite Hrows in Hnone'.
    discriminate.
Qed.

(** Bob confirms Alice's incident and then tries to reject it. *)
Lemma first_vote_stands_witness :
  onVote deny (Sample.calm 2)
    (fst (onVote confirm (Sample.calm 1) Sample.afterAlice 1 "1002"))
    1 "1002"
  = (fst (onVote confirm (Sample.calm 1) Sample.afterAlice 1 "1002"),
     [VoteReply deny false]).
Proof.
  refine (proj1 (first_vote_stands confirm deny (Sample.calm 1)
                   (Sample.calm 2) Sample.afterAlice 1 "1002" _)).
  reflexivity.
Defined.

(** X20. [POST /report] answers 400, and writes nothing, exactly when the
    user id is missing or empty, the type is missing, or the latitude or
    the longitude is missing or zero: a report from the equator or from the
    prime meridian is refused as incomplete.  It answers 500 and writes
    nothing when the insert fails; only with 201 is a row written, and the
    tables of users and votes are never written. *)
Theorem postReport_responses newDate dateNow fault db body :
  (snd (Api.postReport newDate dateNow fault db body) = Api.BadRequest <->
   Api.truthyString (Api.userId body)
   && match Api.type body with Some _ => true | None => false end
   && Api.truthyNumber (Api.latitude body)
   && Api.truthyNumber (Api.longitude body) = false)
  /\ (forall q, Api.latitude body = Some q -> (q == 0)%Q ->
        Api.postReport newDate dateNow fault db body = (db, Api.BadRequest))
  /\ (forall q, Api.longitude body = Some q -> (q == 0)%Q ->
        Api.postReport newDate dateNow fault db body = (db, Api.BadRequest))
  /\ ((forall incidentId,
         snd (Api.postReport newDate dateNow fault db body)
         <> Api.Created incidentId) ->
      fst (Api.postReport newDate dateNow fault db body) = db)
  /\ users (fst (Api.postReport newDate dateNow fault db body)) = users db
  /\ confirmations (fst (Api.postReport newDate dateNow fault db body))
     = confirmations db.
Proof.
  assert (Hzero : forall q, (q == 0)%Q -> Api.truthyNumber (Some q) = false).
  { intros q Hq. unfold Api.truthyNumber.
    apply Qeq_bool_iff in Hq. rewrite Hq. reflexivity. }
  unfold Api.postReport.
  destruct (Api.userId body) as [uid|] eqn:Eu;
    [|repeat split; try reflexivity; intros; reflexivity].
  destruct (Api.type body) as [ty|] eqn:Et;
    [|repeat split; try reflexivity; intros;
      rewrite ?andb_false_r; reflexivity].
  destruct (Api.latitude body) as [lat|] eqn:Ela;
    [|repeat split; try reflexivity; intros;
      rewrite ?andb_false_r; try reflexivity; discriminate].
  destruct (Api.longitude body) as [lon|] eqn:Elo;
    [|repeat split; try reflexivity; intros;
      rewrite ?andb_false_r; try reflexivity; discriminate].
  cbn [andb]. rewrite andb_true_r.
  destruct (Api.truthyString (Some uid)) eqn:Ts; cbn [andb];
    [|repeat split; try reflexivity; intros; reflexivity].
  destruct (Api.truthyNumber (Some lat)) eqn:Tla; cbn [andb];
    [|repeat split; try reflexivity; intros; reflexivity].
  destruct (Api.truthyNumber (Some lon)) eqn:Tlo; cbn [andb];
    [|repeat split; try reflexivity; intros; reflexivity].
  unfold createIncident. destruct fault;
    try (cbn [fst snd]; split; [split; discriminate|];
         split; [intros q Hq Hz; injection Hq as <-;
                 rewrite (Hzero _ Hz) in Tla; discriminate|];
         split; [intros q Hq Hz; injection Hq as <-;
                 rewrite (Hzero _ Hz) in Tlo; discriminate|];
         repeat split).
  destruct (incidentConstraints _ _); cbn [fst snd users confirmations].
  - split; [split; discriminate|].
    split; [intros q Hq Hz; injection Hq as <-;
            rewrite (Hzero _ Hz) in Tla; discriminate|].
    split; [intros q Hq Hz; injection Hq as <-;
            rewrite (Hzero _ Hz) in Tlo; discriminate|].
    split; [|split; reflexivity].
    intros Hnot. exfalso. eapply Hnot. reflexivity.
  - split; [split; discriminate|].
    split; [intros q Hq Hz; injection Hq as <-;
            rewrite (Hzero _ Hz) in Tla; discriminate|].
    split; [intros q Hq Hz; injection Hq as <-;
            rewrite (Hzero _ Hz) in Tlo; discriminate|].
    repeat split.
Qed.

(** A report from a point on the equator. *)
Lemma postReport_responses_witness :
  Api.postReport 1000 1000 NoFault Sample.emptyDb Scenarios.equator
  = (Sample.emptyDb, Api.BadRequest).
Proof.
  refine (proj1 (proj2 (postReport_responses 1000 1000 NoFault Sample.emptyDb
                          Scenarios.equator)) (0 # 1) _ _).
  - reflexivity.
  - reflexivity.
Defined.

End VoteAndRouteFacts.

(** ** The classifier: letter case, ranges, texts without words *)

Section ClassifierEdgeFacts.
Import Js Gemini.

(** X21. On texts of Basic Latin and Latin-1 the classification does not
    look at letter case.  Two such texts that differ at most in the case of
    their letters get the same answer from every test, and so the same
    type, severity and emergency flag from the fallback classifier; and the
    lower-casing that the classifier does first changes nothing: without it
    the type, the severity and the flag would be the same. *)
Theorem classification_ignores_case :
  (forall alts s t,
     latin1 s -> latin1 t -> Forall2 Keywords.caseVariants s t ->
     test alts s = test alts t)
  /\ (forall s t,
        latin1 s -> latin1 t -> Forall2 Keywords.caseVariants s t ->
        type (fallbackParse toLowerCaseLatin1 s)
        = type (fallbackParse toLowerCaseLatin1 t)
        /\ severity (fallbackParse toLowerCaseLatin1 s)
           = severity (fallbackParse toLowerCaseLatin1 t)
        /\ isEmergency (fallbackParse toLowerCaseLatin1 s)
           = isEmergency (fallbackParse toLowerCaseLatin1 t))
  /\ (forall s,
        latin1 s ->
        type (fallbackParse toLowerCaseLatin1 s)
        = type (fallbackParse (fun text => text) s)
        /\ severity (fallbackParse toLowerCaseLatin1 s)
           = severity (fallbackParse (fun text => text) s)
        /\ isEmergency (fallbackParse toLowerCaseLatin1 s)
           = isEmergency (fallbackParse (fun text => text) s)).
Proof.
  assert (Hcan : forall s t,
             Forall2 Keywords.caseVariants s t ->
             map canonicalize s = map canonicalize t).
  { induction 1 as [|a b s t Hab _ IH]; simpl; [reflexivity|].
    rewrite (caseVariants_canonical a b Hab), IH. reflexivity. }
  assert (H1 : forall alts s t,
             map canonicalize s = map canonicalize t ->
             test alts s = test alts t).
  { intros alts s t Hs. unfold test.
    apply scanFrom_canonical; [exact Hs|reflexivity]. }
  split; [|split].
  - intros alts s t _ _ Hst. apply H1, Hcan, Hst.
  - intros s t _ _ Hst.
    assert (H2 : forall alts,
               test alts (toLowerCaseLatin1 s)
               = test alts (toLowerCaseLatin1 t)).
    { intros alts. apply H1. rewrite !toLowerCaseLatin1_canonical.
      apply Hcan, Hst. }
    unfold fallbackParse. cbn [type severity isEmergency].
    rewrite !H2. repeat split.
  - intros s _.
    assert (H2 : forall alts, test alts (toLowerCaseLatin1 s) = test alts s).
    { intros alts. apply H1. apply toLowerCaseLatin1_canonical. }
    unfold fallbackParse. cbn [type severity isEmergency].
    rewrite !H2. repeat split.
Qed.

(** "ROUTE BARREE" and "route barree". *)
Lemma classification_ignores_case_witness :
  type (fallbackParse toLowerCaseLatin1 (units "ROUTE BARREE"))
  = type (fallbackParse toLowerCaseLatin1 (units "route barree")).
Proof.
  refine (proj1 (proj1 (proj2 classification_ignores_case)
                   (units "ROUTE BARREE") (units "route barree") _ _ _)).
  - unfold latin1. rewrite List.Forall_forall. intros c Hc.
    vm_compute in Hc. repeat (destruct Hc as [<-|Hc]; [lia|]). destruct Hc.
  - unfold latin1. rewrite List.Forall_forall. intros c Hc.
    vm_compute in Hc. repeat (destruct Hc as [<-|Hc]; [lia|]). destruct Hc.
  - assert (Hup : forall a b : N,
               (65 <= a <= 90)%N -> (a + 32)%N = b ->
               Keywords.caseVariants a b).
    { intros a b Ha Hb. right. right. split; [left; lia|exact Hb]. }
    vm_compute units.
    repeat (constructor; [first [apply Hup; [lia|reflexivity]
                                |left; reflexivity]|]).
    constructor.
Defined.

Lemma firstMatchingRule_not_sos s : firstMatchingRule s <> sos.
Proof.
  unfold firstMatchingRule, typeRules. cbn [find fst snd].
  repeat match goal with
         | |- context [if test ?re ?x then _ else _] =>
             destruct (test re x); [discriminate|]
         end.
  discriminate.
Qed.

(** X22. Whatever the text and the lower-casing, the answer of the fallback
    classifier fits the schema: the severity is 3 or 5, hence in 1..5; it
    is 5 exactly when the emergency flag is set, which is exactly when the
    type is [sos]; and the description is the first [min 100 n] code units
    of a text of [n] units. *)
Theorem fallbackParse_ranges lower text :
  (1 <= severity (fallbackParse lower text) <= 5)%Z
  /\ (severity (fallbackParse lower text) = 5%Z <->
      isEmergency (fallbackParse lower text) = true)
  /\ (severity (fallbackParse lower text) = 3%Z <->
      isEmergency (fallbackParse lower text) = false)
  /\ (type (fallbackParse lower text) = sos <->
      isEmergency (fallbackParse lower text) = true)
  /\ length (description (fallbackParse lower text))
     = Nat.min 100 (length text)
  /\ (exists rest, text = description (fallbackParse lower text) ++ rest).
Proof.
  pose proof (fallbackParse_chain lower text) as Hchain.
  unfold fallbackParse in *. cbn [type severity isEmergency description] in *.
  destruct (test reEmergency (lower text)) eqn:E.
  - repeat split; try lia; try reflexivity; try discriminate.
    + unfold slice0. apply List.length_firstn.
    + exists (skipn 100 text). unfold slice0. symmetry. apply firstn_skipn.
  - specialize (Hchain eq_refl).
    split; [lia|]. split; [split; discriminate|].
    split; [split; reflexivity|]. split.
    + split; [|discriminate]. intros H. rewrite Hchain in H.
      exfalso. exact (firstMatchingRule_not_sos _ H).
    + split; [unfold slice0; apply List.length_firstn|].
      exists (skipn 100 text). unfold slice0. symmetry. apply firstn_skipn.
Qed.

Lemma scanFrom_no_words alts : forall s prev,
  isWordAt prev = false ->
  Forall (fun c => isWordChar c = false) s ->
  scanFrom alts prev s = false.
Proof.
  induction s as [|c s IH]; intros prev Hp Hs; simpl.
  - unfold matchAt, wordBoundary. rewrite Hp. reflexivity.
  - inversion Hs as [|? ? Hc Hs']; subst.
    unfold matchAt at 1, wordBoundary. simpl. rewrite Hp, Hc. simpl.
    apply IH; [exact Hc|exact Hs'].
Qed.

(** X23. A text without a letter, a digit or an underscore (the empty text
    among them) has no word boundary, so no rule matches: the fallback
    classifier answers [other], severity 3, no emergency. *)
Theorem fallbackParse_without_words lower text :
  Forall (fun c => isWordChar c = false) (lower text) ->
  fallbackParse lower text
  = {| type := other; severity := 3; description := slice0 100 text;
       locationHint := None; isEmergency := false; confidence := 6 # 10 |}.
Proof.
  intros Hs.
  assert (H : forall alts, test alts (lower text) = false).
  { intros alts. unfold test. apply scanFrom_no_words; [reflexivity|exact Hs]. }
  unfold fallbackParse. rewrite !H. reflexivity.
Qed.

(** The empty text, and a text of punctuation. *)
Lemma fallbackParse_without_words_witness :
  fallbackParse toLowerCaseLatin1 [] 
  = {| type := other; severity := 3; description := [];
       locationHint := None; isEmergency := false; confidence := 6 # 10 |}
  /\ type (fallbackParse toLowerCaseLatin1 (units "?!... ?")) = other.
Proof.
  split.
  - apply (fallbackParse_without_words toLowerCaseLatin1 []). constructor.
  - rewrite (fallbackParse_without_words toLowerCaseLatin1 (units "?!... ?"));
      [reflexivity|].
    vm_compute. repeat constructor.
Defined.

(** X30. The type rules of the fallback classifier.  For a text without
    an emergency word the type is that of the first rule, in the order
    accident, police_control, flooding, traffic_jam, road_works, hazard,
    road_damage, protest, roadblock, that has a keyword in the lower-cased
    text, and [other] when no rule has one; the severity is 3, the
    description the first 100 code units of the text and the confidence 0.6.
    A keyword that ends with a letter of Basic Latin is in the text where it
    stands as a word of its own, in either case; the one keyword that ends
    with an accented letter, the last of the rule for road damage, is in
    the text only where a letter, digit or underscore of Basic Latin
    directly follows it. *)
Theorem fallbackParse_first_rule lower text :
  isEmergency (fallbackParse lower text) = false ->
  Keywords.firstHit (lower text) (type (fallbackParse lower text))
  /\ severity (fallbackParse lower text) = 3%Z
  /\ description (fallbackParse lower text) = firstn 100 text
  /\ confidence (fallbackParse lower text) = 6 # 10
  /\ map snd Keywords.rules
     = [accident; police_control; flooding; traffic_jam; road_works; hazard;
        road_damage; protest; roadblock]
  /\ (forall rule kw,
        In rule Keywords.rules -> In kw (fst rule) ->
        Keywords.endsWithLetter kw = false ->
        kw = units "cass" ++ [233%N] /\ snd rule = road_damage).
Proof.
  intros H. rewrite fallbackParse_isEmergency in H.
  rewrite (fallbackParse_chain lower text H).
  split; [apply firstMatchingRule_firstHit|].
  unfold fallbackParse. cbn [severity description confidence]. rewrite H.
  split; [reflexivity|]. split; [reflexivity|]. split; [reflexivity|].
  split; [reflexivity|].
  intros rule kw Hr Hk He. unfold Keywords.rules in Hr.
  repeat (destruct Hr as [<-|Hr];
          [cbn [fst map] in Hk;
           repeat (destruct Hk as [<-|Hk];
                   [first [discriminate He|split; reflexivity]|]);
           destruct Hk|]).
  destruct Hr.
Qed.

(** "Gros bouchon sur la route": the rule for traffic jams comes before the
    rule for road damage. *)
Lemma fallbackParse_first_rule_witness :
  Keywords.firstHit
    (toLowerCaseLatin1 (units "Gros bouchon sur la route"))
    (type (fallbackParse toLowerCaseLatin1
             (units "Gros bouchon sur la route")))
  /\ type (fallbackParse toLowerCaseLatin1
             (units "Gros bouchon sur la route")) = traffic_jam.
Proof.
  split; [|reflexivity].
  refine (proj1 (fallbackParse_first_rule toLowerCaseLatin1
                   (units "Gros bouchon sur la route") _)).
  vm_compute. reflexivity.
Defined.

End ClassifierEdgeFacts.

(** A flooded road reported as a cry for help. *)
Lemma fallbackParse_ranges_witness :
  Gemini.type (Gemini.fallbackParse Js.toLowerCaseLatin1
                 (Js.units "Au secours, la route est inondee")) = sos.
Proof.
  apply (proj2 (proj1 (proj2 (proj2 (proj2
           (fallbackParse_ranges Js.toLowerCaseLatin1
              (Js.units "Au secours, la route est inondee"))))))).
  vm_compute. reflexivity.
Defined.

(** ** Calls of the repository for rows that are missing or unread *)

Section MissingRowFacts.
Import Supabase Repository.

Lemma db_eta db :
  {| users := users db; incidents := incidents db;
     confirmations := confirmations db; next_id := next_id db |} = db.
Proof. destruct db. reflexivity. Qed.

(** X24. When the read of the counter returns an error and the write goes
    through, [updateIncidentConfirmations] answers [true] and restarts the
    counter from 0: for a delta that fits the column, every row of that id
    gets the count [max 0 delta], whatever count was stored, and the status
    [verified] when the delta is at least 2 and [pending] otherwise; nothing
    else of these rows, no other row and no other table is changed. *)
Theorem updateIncidentConfirmations_unread code db incidentId delta :
  (delta <= 2147483647)%Z ->
  let result :=
    updateIncidentConfirmations (ReturnsError code) NoFault db incidentId
      delta in
  snd result = true
  /\ Forall2 (fun r r' =>
        (IncidentRow.id r <> incidentId /\ r' = r)
        \/ (IncidentRow.id r = incidentId /\ Runs.sameReport r r'
            /\ IncidentRow.confirmations r' = Z.max 0 delta
            /\ (IncidentRow.status r' = verified <-> (2 <= delta)%Z)
            /\ (IncidentRow.status r' = pending <-> (delta < 2)%Z)))
       (incidents db) (incidents (fst result))
  /\ users (fst result) = users db
  /\ confirmations (fst result) = confirmations db
  /\ next_id (fst result) = next_id db.
Proof.
  intros Hfit result. subst result. unfold updateIncidentConfirmations.
  cbn [confirmationsOrZero]. rewrite Z.add_0_l. unfold maxInteger.
  assert (E : (2147483647 <? Z.max 0 delta)%Z = false)
    by (apply Z.ltb_ge; lia).
  rewrite E, andb_false_r.
  cbn [fst snd users incidents confirmations next_id].
  split; [reflexivity|]. split; [|repeat split].
  apply Forall2_map_r. intros r _.
  destruct (incidentHasId incidentId r) eqn:Er; unfold incidentHasId in Er.
  - right. apply N.eqb_eq in Er. split; [exact Er|].
    split; [apply sameReport_setConfirmations|].
    cbn [setConfirmations IncidentRow.confirmations IncidentRow.status].
    split; [reflexivity|].
    destruct (2 <=? Z.max 0 delta)%Z eqn:E2.
    + apply Z.leb_le in E2. split; split; try reflexivity; try lia;
        try discriminate; intros _; lia.
    + apply Z.leb_gt in E2. split; split; try reflexivity; try lia;
        try discriminate; intros _; lia.
  - left. apply N.eqb_neq in Er. split; [exact Er|reflexivity].
Qed.

(** Incident 7 has two confirmations; a confirmation whose read fails
    leaves it with one, and pending. *)
Lemma updateIncidentConfirmations_unread_witness :
  snd (updateIncidentConfirmations (ReturnsError "57P01") NoFault
         Sample.verifiedDb 7 1) = true
  /\ map (fun r => (IncidentRow.id r, IncidentRow.confirmations r,
                    IncidentRow.status r))
       (incidents
          (fst (updateIncidentConfirmations (ReturnsError "57P01") NoFault
                  Sample.verifiedDb 7 1)))
     = [(7%N, 1%Z, pending)].
Proof.
  split; [|reflexivity].
  refine (proj1 (updateIncidentConfirmations_unread "57P01" Sample.verifiedDb
                   7 1 _)).
  lia.
Defined.

(** X25. For an id that no incident has, [updateIncidentConfirmations]
    (with both calls going through) answers [true] although nothing is
    written: the store is the one from before. *)
Theorem updateIncidentConfirmations_unknown_id db incidentId delta :
  existsb (incidentHasId incidentId) (incidents db) = false ->
  updateIncidentConfirmations NoFault NoFault db incidentId delta
  = (db, true).
Proof.
  intros Hnone. unfold updateIncidentConfirmations. rewrite Hnone.
  apply existsb_false_filter in Hnone. rewrite Hnone. cbn [single andb].
  f_equal. rewrite (map_unmatched (incidentHasId incidentId) _ _ Hnone).
  apply db_eta.
Qed.

(** A confirmation for incident 99 of a store that has incident 7 only. *)
Lemma updateIncidentConfirmations_unknown_id_witness :
  updateIncidentConfirmations NoFault NoFault Sample.verifiedDb 99 1
  = (Sample.verifiedDb, true).
Proof.
  apply updateIncidentConfirmations_unknown_id. reflexivity.
Defined.

(** X26. For a reporter without a row in [users], the store is left as it
    is by both functions, but the answers differ: [incrementUserReports]
    answers [true] (when the procedure goes through, and when the fallback
    reads without an exception), [updateUserTrustScore] answers [false]. *)
Theorem calls_for_unknown_user db tid :
  existsb (userHasId tid) (users db) = false ->
  (forall sel upd, incrementUserReports NoFault sel upd db tid = (db, true))
  /\ (forall code upd,
        incrementUserReports (ReturnsError code) NoFault upd db tid
        = (db, true))
  /\ (forall rpc sel upd,
        fst (incrementUserReports rpc sel upd db tid) = db)
  /\ (forall sel upd delta,
        updateUserTrustScore sel upd db tid delta = (db, false)).
Proof.
  intros Hnone. apply existsb_false_filter in Hnone.
  assert (H1 : forall sel upd,
             incrementUserReports NoFault sel upd db tid = (db, true)).
  { intros sel upd. unfold incrementUserReports, withUsers. f_equal.
    rewrite (map_unmatched (userHasId tid) _ _ Hnone). apply db_eta. }
  split; [exact H1|]. split; [|split].
  - intros code upd. unfold incrementUserReports. rewrite Hnone. reflexivity.
  - intros rpc sel upd. destruct rpc as [|code|];
      [rewrite H1; reflexivity| |reflexivity].
    unfold incrementUserReports. destruct sel; try reflexivity.
    rewrite Hnone. reflexivity.
  - intros sel upd delta. unfold updateUserTrustScore.
    destruct sel; try reflexivity. rewrite Hnone. reflexivity.
Qed.

(** The stranger 1003 in the store of Alice and Bob. *)
Lemma calls_for_unknown_user_witness :
  incrementUserReports NoFault NoFault NoFault Sample.emptyDb "1003"
  = (Sample.emptyDb, true)
  /\ updateUserTrustScore NoFault NoFault Sample.emptyDb "1003" 5
     = (Sample.emptyDb, false).
Proof.
  destruct (calls_for_unknown_user Sample.emptyDb "1003" eq_refl)
    as (H1 & _ & _ & H4).
  split; [apply H1|apply H4].
Defined.

End MissingRowFacts.

(** ** The events of the service and the store *)

Section EventFacts.
Import Supabase Telegram Runs Repository Service.

Lemma handleLocation_store env w userId message :
  exists ops,
    db (fst (handleLocation env w userId message)) = runOps ops (db w)
    /\ Forall serviceOp ops.
Proof.
  unfold handleLocation.
  destruct (adminStates w !! userId) as [[]|] eqn:Ha;
    [exists []; split; [reflexivity|constructor]|].
  destruct (pendingReports w !! userId) as [p|] eqn:Hp;
    [|destruct message; exists []; split; try reflexivity; constructor].
  destruct (PendingReport.step p) eqn:Hs;
    try (destruct message; exists []; split; try reflexivity; constructor).
  destruct message as [location|];
    [|exists []; split; [reflexivity|constructor]].
  exists [CreateIncident (insertFault env)
            (incidentData env userId p location);
          IncrementUserReports (rpcFault env) (selectFault env)
            (updateFault env) userId].
  split.
  - unfold runOps. cbn [fold_left runOp].
    destruct (createIncident _ _ _) as [db1 saved]. cbn [fst].
    destruct (incrementUserReports _ _ _ db1 userId) as [db2 ok]. cbn [fst].
    destruct saved; [|reflexivity].
    destruct (channelId env); [|reflexivity].
    destruct (sendThrows env); reflexivity.
  - constructor; [split; reflexivity|]. constructor; [exact I|constructor].
Qed.

(** What an event does to the store is a sequence of calls of the
    repository, none of which writes a counter or a trust score. *)
Lemma dispatch_store w e :
  exists ops,
    db (dispatch w e) = runOps ops (db w) /\ Forall serviceOp ops.
Proof.
  destruct e as [env userId message|env incidentId userId
                |env incidentId userId|env userId type|userId text
                |sel ins newDate userId name contacts
                |sel ins act dateNow isAdmin userId name
                |userId|userId|fault now|newDate dateNow fault body];
    cbn [dispatch].
  - unfold onLocation. destruct message as [loc|];
      [|exists []; split; [reflexivity|constructor]].
    destruct (pendingRoutes w !! userId) as [req|].
    { unfold handleRouteLocation. destruct (routeStep req);
        exists []; split; try reflexivity; constructor. }
    destruct (pendingFuel w !! userId) as [[[] ? ?]|];
      try apply handleLocation_store.
    exists []. split; [reflexivity|constructor].
  - exists [AddConfirmation (voteFault env) incidentId userId confirm].
    unfold onConfirm. destruct (addConfirmation _ _ _ _ _) eqn:E.
    split; [unfold runOps; cbn; rewrite E; reflexivity|].
    constructor; [exact I|constructor].
  - exists [AddConfirmation (voteFault env) incidentId userId deny].
    unfold onReject. destruct (addConfirmation _ _ _ _ _) eqn:E.
    split; [unfold runOps; cbn; rewrite E; reflexivity|].
    constructor; [exact I|constructor].
  - exists []. split; [reflexivity|constructor].
  - exists []. split; [|constructor]. unfold handleDescription.
    destruct (pendingReports w !! userId) as [p|]; [|reflexivity].
    destruct (PendingReport.step p); reflexivity.
  - exists [GetOrCreateUser sel ins userId name].
    unfold handlePanic. destruct (getOrCreateUser _ _ _ _ _) eqn:E.
    split; [unfold runOps; cbn; rewrite E; reflexivity|].
    constructor; [exact I|constructor].
  - exists [GetOrCreateUser sel ins userId name].
    unfold onStart. destruct (getOrCreateUser _ _ _ _ _) eqn:E.
    split; [unfold runOps; cbn; rewrite E; reflexivity|].
    constructor; [exact I|constructor].
  - exists []. split; [reflexivity|constructor].
  - exists []. split; [reflexivity|constructor].
  - unfold runExpiryCleanup. destruct fault;
      try (exists []; split; [reflexivity|constructor]).
    exists [ExpireOldIncidents now]. split; [reflexivity|].
    constructor; [exact I|constructor].
  - unfold Api.postReport.
    destruct (Api.userId body) as [uid|];
      [|exists []; split; [reflexivity|constructor]].
    destruct (Api.type body) as [ty|];
      [|exists []; split; [reflexivity|constructor]].
    destruct (Api.latitude body) as [lat|];
      [|exists []; split; [reflexivity|constructor]].
    destruct (Api.longitude body) as [lon|];
      [|exists []; split; [reflexivity|constructor]].
    destruct (_ && _); [|exists []; split; [reflexivity|constructor]].
    match goal with
    | |- context [createIncident fault (db w) ?payload] =>
        exists [CreateIncident fault payload];
        destruct (createIncident fault (db w) payload) as [db1 inc] eqn:E
    end.
    split.
    + unfold runOps. cbn [fold_left runOp]. rewrite E.
      destruct inc; reflexivity.
    + constructor; [split; reflexivity|constructor].
Qed.

Lemma serviceOp_unconfirmed db op :
  serviceOp op ->
  Forall unconfirmed (incidents db) ->
  Forall unconfirmed (incidents (runOp db op)).
Proof.
  intros Hop Hall.
  destruct op as [fault incident|sel upd incidentId delta
                 |sel ins tid name|sel upd tid delta|rpc sel upd tid
                 |fault incidentId tid vote|now]; cbn [runOp serviceOp] in *;
    try contradiction.
  - unfold createIncident. destruct fault; try exact Hall.
    destruct (incidentConstraints _ _); [|exact Hall].
    cbn [fst incidents]. apply Forall_app. split; [exact Hall|].
    constructor; [|constructor]. destruct Hop as (Hc & Hs).
    split; [exact Hc|left; exact Hs].
  - rewrite (proj1 (getOrCreateUser_tables sel ins db tid name)). exact Hall.
  - rewrite (proj1 (incrementUserReports_tables rpc sel upd db tid)).
    exact Hall.
  - destruct (addConfirmation_cases fault db incidentId tid vote)
      as [->|(_ & ->)]; exact Hall.
  - unfold expire_old_incidents, withIncidents. cbn [fst incidents].
    rewrite List.Forall_forall in *. intros r' Hin.
    apply in_map_iff in Hin. destruct Hin as (r & <- & Hin).
    destruct (stale now r); [|exact (Hall r Hin)].
    destruct (Hall r Hin) as (Hc & _). split; [exact Hc|right; reflexivity].
Qed.

Lemma runOps_app ops1 ops2 db :
  runOps (ops1 ++ ops2) db = runOps ops2 (runOps ops1 db).
Proof. unfold runOps. apply fold_left_app. Qed.

(** X27. Whatever the events (location messages, votes, type choices,
    descriptions, the panic button, [/start], [/route], [/fuel], the expiry
    sweep, [POST /report]), what they do to the store is a sequence of
    calls of [createIncident] (with count 0 and status [pending]),
    [incrementUserReports], [getOrCreateUser], [addConfirmation] and the
    sweep: no event calls [updateIncidentConfirmations] or
    [updateUserTrustScore]. *)
Theorem events_are_repository_calls events : forall w,
  exists ops,
    db (run events w) = runOps ops (db w) /\ Forall serviceOp ops.
Proof.
  unfold run. induction events as [|e events IH]; intros w; simpl.
  - exists []. split; [reflexivity|constructor].
  - destruct (dispatch_store w e) as (ops1 & H1 & F1).
    destruct (IH (dispatch w e)) as (ops2 & H2 & F2).
    exists (ops1 ++ ops2). split.
    + rewrite H2, H1, runOps_app. reflexivity.
    + apply Forall_app. split; assumption.
Qed.

(** X28. Two invariants of the running service.  Whatever the events, a
    store that satisfies the constraints of the schema keeps satisfying
    them; and when every incident has confirmation count 0 and status
    [pending] or [expired], this stays so: no incident becomes [verified]
    and no counter moves, however many votes are accepted. *)
Theorem service_invariants events : forall w,
  (wellFormed (db w) -> wellFormed (db (run events w)))
  /\ (Forall unconfirmed (incidents (db w)) ->
      Forall unconfirmed (incidents (db (run events w)))).
Proof.
  assert (Hops : forall ops d,
             Forall serviceOp ops ->
             (wellFormed d -> wellFormed (runOps ops d))
             /\ (Forall unconfirmed (incidents d) ->
                 Forall unconfirmed (incidents (runOps ops d)))).
  { unfold runOps. induction ops as [|op ops IH]; intros d Hs; simpl.
    - split; intros H; exact H.
    - inversion Hs as [|? ? Hop Hs']; subst.
      destruct (IH (runOp d op) Hs') as (I1 & I2). split; intros H.
      + apply I1. apply runOp_wellFormed. exact H.
      + apply I2. apply serviceOp_unconfirmed; assumption. }
  unfold run. induction events as [|e events IH]; intros w; simpl.
  - split; intros H; exact H.
  - destruct (dispatch_store w e) as (ops & Hdb & Hs).
    destruct (Hops ops (db w) Hs) as (J1 & J2).
    destruct (IH (dispatch w e)) as (I1 & I2).
    split; intros H.
    + apply I1. rewrite Hdb. apply J1. exact H.
    + apply I2. rewrite Hdb. apply J2. exact H.
Qed.

(** Alice reports, Bob and Alice confirm, Bob reports through the HTTP
    route, and the sweep runs: the incidents are unconfirmed. *)
Lemma service_invariants_witness :
  Forall unconfirmed
    (incidents
       (db (run [ LocationMessage (Sample.calm 0) "1001"
                    (Some Sample.bastos);
                  ConfirmAction (Sample.calm 1) 1 "1002";
                  ConfirmAction (Sample.calm 2) 1 "1001";
                  ReportPosted 1000 1000 NoFault Sample.nativeReport;
                  ExpiryCleanup NoFault 99999999 ]
              Sample.bothWaiting))).
Proof.
  apply (proj2 (service_invariants _ Sample.bothWaiting)). constructor.
Defined.

End EventFacts.
